(** * Stublogs: the per-tenant state-management core

    A shallow embedding of the rate limiter, the reactor identity resolver,
    the view counter, the reaction engine, the comment pager and the
    notification pipeline of [src/index.js], with the properties of the
    specification stated and proved over it.

    Conventions of the embedding.
    - JavaScript numbers that hold integers (timestamps in milliseconds,
      counters, page numbers) are [Z].
    - JavaScript strings are [string]: a sequence of 8-bit characters.  On
      ASCII text this is the sequence of UTF-16 code units the code sees and
      also the UTF-8 bytes [TextEncoder] produces; [trim] and [toLowerCase]
      are the ASCII fragments of the JavaScript functions.
    - The relational store is explicit state: one field per table.  Every
      statement the code sends to the store is appended to a log, and the
      module-level [...TableReadyPromise] memo cells are part of the state.
    - [Date.now()], [Math.random()] and [crypto.getRandomValues] are inputs
      of the function that reads them. *)

From Stdlib Require Import ZArith String Ascii List Lia Bool DecimalString.
From stdpp Require Import base option list gmap strings sorting.

Local Open Scope string_scope.
Local Open Scope Z_scope.

(** ** JavaScript string primitives *)

Module Js.

Definition isSpace (c : ascii) : bool :=
  let n := nat_of_ascii c in
  ((9 <=? n) && (n <=? 13))%nat || (n =? 32)%nat.

Fixpoint trimStart (s : string) : string :=
  match s with
  | String c rest => if isSpace c then trimStart rest else s
  | EmptyString => EmptyString
  end.

Fixpoint trimEnd (s : string) : string :=
  match s with
  | String c rest =>
      match trimEnd rest with
      | EmptyString => if isSpace c then EmptyString else String c EmptyString
      | kept => String c kept
      end
  | EmptyString => EmptyString
  end.

Definition trim (s : string) : string := trimEnd (trimStart s).

Definition lowerChar (c : ascii) : ascii :=
  let n := nat_of_ascii c in
  if ((65 <=? n) && (n <=? 90))%nat then ascii_of_nat (n + 32) else c.

Fixpoint toLowerCase (s : string) : string :=
  match s with
  | String c rest => String (lowerChar c) (toLowerCase rest)
  | EmptyString => EmptyString
  end.

(** [s.slice(0, n)] *)
Fixpoint slice0 (n : nat) (s : string) : string :=
  match n, s with
  | S k, String c rest => String c (slice0 k rest)
  | _, _ => EmptyString
  end.

(** Truthiness of a string: every string but the empty one. *)
Definition truthy (s : string) : bool :=
  match s with EmptyString => false | String _ _ => true end.

(** [a || b] on strings. *)
Definition orElse (a b : string) : string := if truthy a then a else b.

(** [Number(x) || d] on an integer. *)
Definition numberOr (x d : Z) : Z := if x =? 0 then d else x.

Definition startsWith (p s : string) : bool := String.prefix p s.

Fixpoint forallb (p : ascii -> bool) (s : string) : bool :=
  match s with
  | String c rest => p c && forallb p rest
  | EmptyString => true
  end.

Definition between (lo hi : nat) (c : ascii) : bool :=
  ((lo <=? nat_of_ascii c) && (nat_of_ascii c <=? hi))%nat.

Definition isDigit : ascii -> bool := between 48 57.
Definition isLowerHex (c : ascii) : bool := isDigit c || between 97 102 c.
Definition isAlnum (c : ascii) : bool :=
  isDigit c || between 65 90 c || between 97 122 c.

Definition lengthIn (lo hi : nat) (s : string) : bool :=
  ((lo <=? String.length s) && (String.length s <=? hi))%nat.

(** [s.split(sep)] for a one-character separator. *)
Fixpoint split (sep : ascii) (s : string) : list string :=
  match s with
  | EmptyString => [EmptyString]
  | String c rest =>
      if Ascii.eqb c sep then EmptyString :: split sep rest
      else
        match split sep rest with
        | part :: parts => String c part :: parts
        | [] => [String c EmptyString]
        end
  end.

(** [new Map(entries)] and [Object.fromEntries(entries)]: a later entry
    replaces an earlier one with the same key. *)
Definition fromEntries {V} (entries : list (string * V)) : gmap string V :=
  list_to_map (reverse entries).

Fixpoint filter (p : ascii -> bool) (s : string) : string :=
  match s with
  | String c rest => if p c then String c (filter p rest) else filter p rest
  | EmptyString => EmptyString
  end.

Fixpoint endsWithChar (c : ascii) (s : string) : bool :=
  match s with
  | EmptyString => false
  | String d EmptyString => Ascii.eqb d c
  | String _ rest => endsWithChar c rest
  end.

Definition includes (sub s : string) : bool :=
  match String.index 0 sub s with Some _ => true | None => false end.

(** [s.replace(/\r\n/g, "\n")] *)
Fixpoint replaceCrLf (s : string) : string :=
  match s with
  | String c rest =>
      match rest with
      | String d _ =>
          if ((nat_of_ascii c =? 13) && (nat_of_ascii d =? 10))%nat
          then replaceCrLf rest
          else String c (replaceCrLf rest)
      | EmptyString => s
      end
  | EmptyString => EmptyString
  end.

Definition isUriUnreserved (c : ascii) : bool :=
  isAlnum c
  || existsb (Ascii.eqb c) (list_ascii_of_string "-_.!~*'()").

Definition upperHexDigit (n : nat) : ascii :=
  nth n (list_ascii_of_string "0123456789ABCDEF") "0"%char.

(** [encodeURIComponent] on the UTF-8 bytes of a well-formed string. *)
Fixpoint encodeURIComponent (s : string) : string :=
  match s with
  | String c rest =>
      if isUriUnreserved c then String c (encodeURIComponent rest)
      else
        String "%" (String (upperHexDigit (nat_of_ascii c / 16))
          (String (upperHexDigit (nat_of_ascii c mod 16))
             (encodeURIComponent rest)))
  | EmptyString => EmptyString
  end.

(** [Array.from(new Set(l))]: the first occurrence of each element, in
    order. *)
Definition unique (l : list string) : list string :=
  reverse (remove_dups (reverse l)).

(** [Math.ceil(a / b)] for integers [a] and [b > 0]. *)
Definition ceilDiv (a b : Z) : Z := - ((- a) / b).

End Js.

(** ** The store *)

(** [updated_at] of [rate_limits] is kept as the millisecond timestamp its
    ISO-8601 text renders (see [RateLimiter.stale]). *)
Record RateLimitRow := {
  window_start_ms : Z;
  rate_attempts : Z;
  rate_updated_at : Z
}.

Record ReactionRow := {
  reaction_id : Z;
  reaction_site_id : Z;
  reaction_post_slug : string;
  reaction_key : string;
  actor_token : string;
  reaction_created_at : string
}.

Record PageViewRow := {
  view_count : Z;
  view_updated_at : string
}.

(** A row of [posts], as far as the core reads it. *)
Record PostRow := {
  post_site_id : Z;
  post_slug : string;
  title : string;
  published : Z
}.

Record CommentRow := {
  comment_id : Z;
  comment_site_id : Z;
  comment_post_slug : string;
  author_name : string;
  author_site_slug : string;
  content : string;
  comment_created_at : string
}.

Record NotificationRow := {
  notification_id : Z;
  notification_site_id : Z;
  event_type : string;
  notification_post_slug : string;
  post_title : string;
  actor_name : string;
  actor_site_slug : string;
  content_preview : string;
  notification_reaction_key : string;
  reaction_label : string;
  target_path : string;
  notification_created_at : string;
  read_at : option string
}.

Record TelegramSettingsRow := {
  enabled : Z;
  notify_comments : Z;
  notify_reactions : Z;
  telegram_chat_id : string;
  telegram_bot_token_enc : string;
  settings_updated_at : string
}.

(** The statements of [env.DB.prepare(...)], by table and kind. *)
Inductive Stmt :=
| CreateTable (table : string)
| CreateIndex (index : string)
| SelectRateLimit (key : string)
| UpsertRateLimit (key : string)
| UpdateRateLimit (key : string)
| DeleteRateLimit (key : string)
| SweepRateLimits
| CountReactions (site : Z) (post : string)
| SelectActorReactions (site : Z) (post actor : string)
| SelectReaction (site : Z) (post key actor : string)
| DeleteReaction (site : Z) (post key actor : string)
| InsertReaction (site : Z) (post key actor : string)
| UpsertPageView (site : Z) (type key : string)
| SelectPageView (site : Z) (type key : string)
| SelectPageViews (site : Z) (type : string) (keys : list string)
| SelectPost (site : Z) (slug : string)
| CountComments (site : Z) (post : string)
| SelectComments (site : Z) (post : string) (limit offset : Z)
| InsertNotification (site : Z)
| SelectNotificationCutoff (site : Z)
| DeleteNotificationsBelow (site : Z) (cutoff : Z)
| SelectTelegramSettings (site : Z).

(** One outbound [fetch] to the Telegram Bot API. *)
Record RelayCall := {
  relay_bot_token : string;
  relay_chat_id : string;
  relay_text : string
}.

(** The module-level memo cells of the schema bootstrap. *)
Record Memo := {
  commentsTableReady : bool;
  rateLimitsTableReady : bool;
  reactionsTableReady : bool;
  viewsTableReady : bool;
  notificationTablesReady : bool
}.

Record World := {
  rate_limits : gmap string RateLimitRow;
  reactions : list ReactionRow;
  reactions_seq : Z;
  page_views : gmap (Z * string * string) PageViewRow;
  comments : list CommentRow;
  posts : list PostRow;
  site_notifications : list NotificationRow;
  site_notifications_seq : Z;
  site_telegram_settings : gmap Z TelegramSettingsRow;
  memo : Memo;
  statements : list Stmt;
  relay_calls : list RelayCall
}.

Definition set_rate_limits (t : gmap string RateLimitRow) (w : World) : World :=
  {| rate_limits := t;
     reactions := reactions w;
     reactions_seq := reactions_seq w;
     page_views := page_views w;
     comments := comments w;
     posts := posts w;
     site_notifications := site_notifications w;
     site_notifications_seq := site_notifications_seq w;
     site_telegram_settings := site_telegram_settings w;
     memo := memo w;
     statements := statements w;
     relay_calls := relay_calls w |}.

Definition set_reactions (t : list ReactionRow) (seq : Z) (w : World) : World :=
  {| rate_limits := rate_limits w;
     reactions := t;
     reactions_seq := seq;
     page_views := page_views w;
     comments := comments w;
     posts := posts w;
     site_notifications := site_notifications w;
     site_notifications_seq := site_notifications_seq w;
     site_telegram_settings := site_telegram_settings w;
     memo := memo w;
     statements := statements w;
     relay_calls := relay_calls w |}.

Definition set_page_views (t : gmap (Z * string * string) PageViewRow) (w : World)
  : World :=
  {| rate_limits := rate_limits w;
     reactions := reactions w;
     reactions_seq := reactions_seq w;
     page_views := t;
     comments := comments w;
     posts := posts w;
     site_notifications := site_notifications w;
     site_notifications_seq := site_notifications_seq w;
     site_telegram_settings := site_telegram_settings w;
     memo := memo w;
     statements := statements w;
     relay_calls := relay_calls w |}.

Definition set_site_notifications (t : list NotificationRow) (seq : Z) (w : World)
  : World :=
  {| rate_limits := rate_limits w;
     reactions := reactions w;
     reactions_seq := reactions_seq w;
     page_views := page_views w;
     comments := comments w;
     posts := posts w;
     site_notifications := t;
     site_notifications_seq := seq;
     site_telegram_settings := site_telegram_settings w;
     memo := memo w;
     statements := statements w;
     relay_calls := relay_calls w |}.

Definition set_memo (m : Memo) (w : World) : World :=
  {| rate_limits := rate_limits w;
     reactions := reactions w;
     reactions_seq := reactions_seq w;
     page_views := page_views w;
     comments := comments w;
     posts := posts w;
     site_notifications := site_notifications w;
     site_notifications_seq := site_notifications_seq w;
     site_telegram_settings := site_telegram_settings w;
     memo := m;
     statements := statements w;
     relay_calls := relay_calls w |}.

Definition set_statements (l : list Stmt) (w : World) : World :=
  {| rate_limits := rate_limits w;
     reactions := reactions w;
     reactions_seq := reactions_seq w;
     page_views := page_views w;
     comments := comments w;
     posts := posts w;
     site_notifications := site_notifications w;
     site_notifications_seq := site_notifications_seq w;
     site_telegram_settings := site_telegram_settings w;
     memo := memo w;
     statements := l;
     relay_calls := relay_calls w |}.

Definition set_relay_calls (l : list RelayCall) (w : World) : World :=
  {| rate_limits := rate_limits w;
     reactions := reactions w;
     reactions_seq := reactions_seq w;
     page_views := page_views w;
     comments := comments w;
     posts := posts w;
     site_notifications := site_notifications w;
     site_notifications_seq := site_notifications_seq w;
     site_telegram_settings := site_telegram_settings w;
     memo := memo w;
     statements := statements w;
     relay_calls := l |}.

(** ** Sequencing of store effects *)

Definition M (A : Type) : Type := World -> A * World.

Definition ret {A} (a : A) : M A := fun w => (a, w).

Definition bind {A B} (m : M A) (k : A -> M B) : M B :=
  fun w => let '(a, w') := m w in k a w'.

Notation "x <- m ;; k" := (bind m (fun x => k))
  (at level 100, m at next level, right associativity).
Notation "m ;;; k" := (bind m (fun _ => k))
  (at level 100, right associativity).

Definition get {A} (f : World -> A) : M A := fun w => (f w, w).

Definition modify (f : World -> World) : M unit := fun w => (tt, f w).

(** [env.DB.prepare(sql)...run()]: the statement reaches the store. *)
Definition issue (s : Stmt) : M unit :=
  modify (fun w => set_statements (statements w ++ [s]) w).

(** A fresh store and a fresh process. *)
Definition emptyWorld : World :=
  {| rate_limits := ∅; reactions := []; reactions_seq := 0; page_views := ∅;
     comments := []; posts := []; site_notifications := [];
     site_notifications_seq := 0;
     site_telegram_settings := ∅;
     memo := {| commentsTableReady := false; rateLimitsTableReady := false;
                reactionsTableReady := false; viewsTableReady := false;
                notificationTablesReady := false |};
     statements := []; relay_calls := [] |}.


(** ** Lazy schema bootstrap

    Each [ensure...Table] sends its [CREATE TABLE IF NOT EXISTS] and
    [CREATE INDEX IF NOT EXISTS] statements once and remembers that in a
    module-level cell. *)

Definition ensureSchema (ready : Memo -> bool) (mark : Memo -> Memo)
    (ddl : list Stmt) : M unit :=
  fun w =>
    if ready (memo w) then (tt, w)
    else (tt, set_memo (mark (memo w)) (set_statements (statements w ++ ddl) w)).

Definition ensureCommentsTable : M unit :=
  ensureSchema commentsTableReady
    (fun m => {| commentsTableReady := true;
                 rateLimitsTableReady := rateLimitsTableReady m;
                 reactionsTableReady := reactionsTableReady m;
                 viewsTableReady := viewsTableReady m;
                 notificationTablesReady := notificationTablesReady m |})
    [CreateTable "comments"; CreateIndex "idx_comments_site_post_created";
     CreateIndex "idx_comments_site_created"].

Definition ensureRateLimitsTable : M unit :=
  ensureSchema rateLimitsTableReady
    (fun m => {| commentsTableReady := commentsTableReady m;
                 rateLimitsTableReady := true;
                 reactionsTableReady := reactionsTableReady m;
                 viewsTableReady := viewsTableReady m;
                 notificationTablesReady := notificationTablesReady m |})
    [CreateTable "rate_limits"; CreateIndex "idx_rate_limits_updated"].

Definition ensureReactionsTable : M unit :=
  ensureSchema reactionsTableReady
    (fun m => {| commentsTableReady := commentsTableReady m;
                 rateLimitsTableReady := rateLimitsTableReady m;
                 reactionsTableReady := true;
                 viewsTableReady := viewsTableReady m;
                 notificationTablesReady := notificationTablesReady m |})
    [CreateTable "reactions"; CreateIndex "idx_reactions_site_post";
     CreateIndex "idx_reactions_actor"].

Definition ensureViewsTable : M unit :=
  ensureSchema viewsTableReady
    (fun m => {| commentsTableReady := commentsTableReady m;
                 rateLimitsTableReady := rateLimitsTableReady m;
                 reactionsTableReady := reactionsTableReady m;
                 viewsTableReady := true;
                 notificationTablesReady := notificationTablesReady m |})
    [CreateTable "page_views"; CreateIndex "idx_page_views_site_type"].

Definition ensureNotificationTables : M unit :=
  ensureSchema notificationTablesReady
    (fun m => {| commentsTableReady := commentsTableReady m;
                 rateLimitsTableReady := rateLimitsTableReady m;
                 reactionsTableReady := reactionsTableReady m;
                 viewsTableReady := viewsTableReady m;
                 notificationTablesReady := true |})
    [CreateTable "site_notifications";
     CreateIndex "idx_site_notifications_site_created";
     CreateIndex "idx_site_notifications_site_read";
     CreateTable "site_telegram_settings";
     CreateIndex "idx_site_telegram_settings_updated"].

(** The next [INTEGER PRIMARY KEY AUTOINCREMENT] value: one more than the
    largest row id the table has ever held. *)
Definition nextRowId (seq : Z) (ids : list Z) : Z :=
  Z.max seq (foldr Z.max 0 ids) + 1.

(** ** Rate limiter ([consumeRateLimit], [clearRateLimit]) *)

Module RateLimiter.

Record RateLimitResult := {
  allowed : bool;
  attempts : Z;
  remaining : Z;
  retryAfterMs : Z
}.

Definition DAY_MS : Z := 86400000.

(** A row is stale when [updated_at < now - 1 day].  [updated_at] holds the
    ISO-8601 UTC rendering of a millisecond timestamp; renderings of equal
    width order as the timestamps do, so the column is kept as the
    timestamp.  The store's clock and [Date.now()] are one clock. *)
Definition stale (nowMs : Z) (row : RateLimitRow) : bool :=
  rate_updated_at row <? nowMs - DAY_MS.

(** [DELETE FROM rate_limits WHERE updated_at < now - 1 day] *)
Definition sweepStale (nowMs : Z) (table : gmap string RateLimitRow)
  : gmap string RateLimitRow :=
  filter (fun kv => stale nowMs (snd kv) = false) table.

(** [sweep] is the outcome of [Math.random() < 0.01].  The [DELETE] is sent
    before the caller's own statements. *)
Definition maybeScheduleRateLimitGc (sweep : bool) (nowMs : Z) : M unit :=
  if sweep then
    issue SweepRateLimits ;;;
    modify (fun w => set_rate_limits (sweepStale nowMs (rate_limits w)) w)
  else ret tt.

(** The table as the caller's [SELECT] finds it. *)
Definition afterGc (sweep : bool) (nowMs : Z) (table : gmap string RateLimitRow)
  : gmap string RateLimitRow :=
  if sweep then sweepStale nowMs table else table.

Definition consumeRateLimit (sweep : bool) (nowMs : Z)
    (rateKey : string) (windowMs maxAttempts : Z) : M RateLimitResult :=
  ensureRateLimitsTable ;;;
  maybeScheduleRateLimitGc sweep nowMs ;;;
  let safeKey := Js.slice0 180 rateKey in
  let safeWindowMs := Z.max (Js.numberOr windowMs 60000) 1000 in
  let safeMaxAttempts := Z.max (Js.numberOr maxAttempts 1) 1 in
  issue (SelectRateLimit safeKey) ;;;
  existing <- get (fun w => rate_limits w !! safeKey) ;;
  let windowStartMs := from_option window_start_ms 0 existing in
  let attempts := from_option rate_attempts 0 existing in
  let sameWindow :=
    match existing with
    | Some _ => nowMs - windowStartMs <? safeWindowMs
    | None => false
    end in
  if negb sameWindow then
    issue (UpsertRateLimit safeKey) ;;;
    modify (fun w =>
      set_rate_limits
        (<[safeKey := {| window_start_ms := nowMs; rate_attempts := 1;
                         rate_updated_at := nowMs |}]> (rate_limits w)) w) ;;;
    ret {| allowed := true; attempts := 1;
           remaining := Z.max (safeMaxAttempts - 1) 0; retryAfterMs := 0 |}
  else if safeMaxAttempts <=? attempts then
    ret {| allowed := false; attempts := attempts; remaining := 0;
           retryAfterMs :=
             Z.max (safeWindowMs - (nowMs - windowStartMs)) 1000 |}
  else
    let nextAttempts := attempts + 1 in
    issue (UpdateRateLimit safeKey) ;;;
    modify (fun w =>
      set_rate_limits
        (alter (fun row =>
                  {| window_start_ms := window_start_ms row;
                     rate_attempts := nextAttempts;
                     rate_updated_at := nowMs |}) safeKey (rate_limits w)) w) ;;;
    ret {| allowed := true; attempts := nextAttempts;
           remaining := Z.max (safeMaxAttempts - nextAttempts) 0;
           retryAfterMs := 0 |}.

Definition clearRateLimit (rateKey : string) : M unit :=
  if negb (Js.truthy rateKey) then ret tt
  else
    ensureRateLimitsTable ;;;
    issue (DeleteRateLimit (Js.slice0 180 rateKey)) ;;;
    modify (fun w =>
      set_rate_limits (delete (Js.slice0 180 rateKey) (rate_limits w)) w).

(** The operations a request handler can run against the table. *)
Inductive Op :=
| Consume (sweep : bool) (nowMs : Z) (rateKey : string) (windowMs maxAttempts : Z)
| Clear (rateKey : string).

Definition run (op : Op) (w : World) : World :=
  match op with
  | Consume sweep nowMs rateKey windowMs maxAttempts =>
      snd (consumeRateLimit sweep nowMs rateKey windowMs maxAttempts w)
  | Clear rateKey => snd (clearRateLimit rateKey w)
  end.

(** States reached from a store whose [rate_limits] table is empty. *)
Inductive reachable : World -> Prop :=
| reachable_init w : rate_limits w = ∅ -> reachable w
| reachable_step w op : reachable w -> reachable (run op w).

End RateLimiter.

(** ** SHA-256 ([crypto.subtle.digest]) and hexadecimal rendering *)

Module Sha256.

Definition mask32 (x : Z) : Z := Z.land x 0xffffffff.
Definition add32 (a b : Z) : Z := mask32 (a + b).
Definition rotr (n x : Z) : Z :=
  mask32 (Z.lor (Z.shiftr x n) (Z.shiftl x (32 - n))).
Definition shr (n x : Z) : Z := Z.shiftr x n.

Definition Ch (x y z : Z) : Z :=
  Z.lxor (Z.land x y) (Z.land (Z.lxor x 0xffffffff) z).
Definition Maj (x y z : Z) : Z :=
  Z.lxor (Z.lxor (Z.land x y) (Z.land x z)) (Z.land y z).
Definition Sigma0 (x : Z) : Z := Z.lxor (Z.lxor (rotr 2 x) (rotr 13 x)) (rotr 22 x).
Definition Sigma1 (x : Z) : Z := Z.lxor (Z.lxor (rotr 6 x) (rotr 11 x)) (rotr 25 x).
Definition sigma0 (x : Z) : Z := Z.lxor (Z.lxor (rotr 7 x) (rotr 18 x)) (shr 3 x).
Definition sigma1 (x : Z) : Z := Z.lxor (Z.lxor (rotr 17 x) (rotr 19 x)) (shr 10 x).

(** The constants of FIPS 180-4 are the first 32 bits of the fractional
    parts of the square roots (initial hash value) and cube roots (round
    constants) of the first primes. *)
Definition isPrime (n : Z) : bool :=
  forallb (fun d => negb (n mod d =? 0)) (map Z.of_nat (seq 2 (Z.to_nat n - 2))).

Definition primes : list Z := filter (fun n => isPrime n = true) (map Z.of_nat (seq 2 310)).

(** The largest [r] below [2 ^ (bit + 1)] over the given [r] with
    [r ^ e <= n]. *)
Fixpoint rootFrom (e n : Z) (bit : nat) (r : Z) : Z :=
  let candidate := r + 2 ^ Z.of_nat bit in
  let r' := if candidate ^ e <=? n then candidate else r in
  match bit with
  | O => r'
  | S lower => rootFrom e n lower r'
  end.

Definition fractionalRoot (e p : Z) : Z :=
  mask32 (rootFrom e (p * 2 ^ (32 * e)) 40 0).

Definition K : list Z := Eval vm_compute in map (fractionalRoot 3) (take 64 primes).

(** The eight working words. *)
Definition State : Type := Z * Z * Z * Z * Z * Z * Z * Z.

Definition H0 : State :=
  Eval vm_compute in
    match map (fractionalRoot 2) (take 8 primes) with
    | [a; b; c; d; e; f; g; h] => (a, b, c, d, e, f, g, h)
    | _ => (0, 0, 0, 0, 0, 0, 0, 0)
    end.

Definition bytesOfString (s : string) : list Z :=
  map (fun c => Z.of_nat (nat_of_ascii c)) (list_ascii_of_string s).

(** Big-endian bytes of the low [8 * n] bits of [x]. *)
Fixpoint bigEndian (n : nat) (x : Z) : list Z :=
  match n with
  | O => []
  | S k => Z.land (Z.shiftr x (8 * Z.of_nat k)) 0xff :: bigEndian k x
  end.

Definition pad (msg : list Z) : list Z :=
  let len := Z.of_nat (length msg) in
  let zeros := Z.to_nat ((55 - len) mod 64) in
  msg ++ [0x80] ++ repeat 0 zeros ++ bigEndian 8 (8 * len).

Fixpoint wordsOfBytes (fuel : nat) (bytes : list Z) : list Z :=
  match fuel, bytes with
  | S k, b0 :: b1 :: b2 :: b3 :: rest =>
      (Z.shiftl b0 24 + Z.shiftl b1 16 + Z.shiftl b2 8 + b3)
        :: wordsOfBytes k rest
  | _, _ => []
  end.

(** The message schedule, most recent word first. *)
Fixpoint extend (n : nat) (rev_w : list Z) : list Z :=
  match n with
  | O => rev_w
  | S k =>
      let at_ i := nth i rev_w 0 in
      extend k
        (add32 (add32 (sigma1 (at_ 1%nat)) (at_ 6%nat))
               (add32 (sigma0 (at_ 14%nat)) (at_ 15%nat)) :: rev_w)
  end.

Definition round (st : State) (kw : Z * Z) : State :=
  let '(a, b, c, d, e, f, g, h) := st in
  let t1 := add32 (add32 (add32 h (Sigma1 e)) (add32 (Ch e f g) (fst kw))) (snd kw) in
  let t2 := add32 (Sigma0 a) (Maj a b c) in
  (add32 t1 t2, a, b, c, add32 d t1, e, f, g).

Definition compress (st : State) (block : list Z) : State :=
  let w := rev (extend 48 (rev block)) in
  let '(a, b, c, d, e, f, g, h) := fold_left round (combine K w) st in
  let '(a0, b0, c0, d0, e0, f0, g0, h0) := st in
  (add32 a0 a, add32 b0 b, add32 c0 c, add32 d0 d,
   add32 e0 e, add32 f0 f, add32 g0 g, add32 h0 h).

Fixpoint blocks (fuel : nat) (st : State) (words : list Z) : State :=
  match fuel, words with
  | S k, _ :: _ => blocks k (compress st (take 16 words)) (drop 16 words)
  | _, _ => st
  end.

Definition digest (msg : list Z) : list Z :=
  let padded := pad msg in
  let words := wordsOfBytes (length padded) padded in
  let '(a, b, c, d, e, f, g, h) := blocks (length words) H0 words in
  bigEndian 4 a ++ bigEndian 4 b ++ bigEndian 4 c ++ bigEndian 4 d ++
  bigEndian 4 e ++ bigEndian 4 f ++ bigEndian 4 g ++ bigEndian 4 h.

Definition hexChars : list ascii :=
  list_ascii_of_string "0123456789abcdef".

Definition hexDigit (n : Z) : ascii := nth (Z.to_nat n) hexChars "0"%char.

(** [value.toString(16).padStart(2, "0")] for a byte. *)
Fixpoint bytesToHex (bytes : list Z) : string :=
  match bytes with
  | b :: rest =>
      String (hexDigit (Z.shiftr b 4)) (String (hexDigit (Z.land b 15))
        (bytesToHex rest))
  | [] => EmptyString
  end.

Definition sha256Hex (value : string) : string :=
  bytesToHex (digest (bytesOfString value)).

End Sha256.

(** ** Request and environment *)

Record Env := {
  SESSION_SECRET : string;
  BASE_DOMAIN : string
}.

(** The headers the core reads; an absent header is the empty string, as
    after [request.headers.get(name) || ""]. *)
Record Request := {
  cf_connecting_ip : string;
  user_agent : string;
  cookie : string
}.

(** Why a handler that reads a JSON body throws: [readJson] rethrows its
    [Request body too large] (a [content-length] or a text of more than
    65536); [JSON.parse] returned [null], and the first read of a field of
    [body] is a [TypeError]; a field holds an object that [String] cannot
    convert. *)
Inductive ReadError := BodyTooLarge | BodyNull | FieldNotText.

(** What [await readJson(request)] and the reads [String(body.field || ...)]
    that follow it come to: an exception, which leaves the handler and is
    answered by [fetch] with [json({ error: "Internal server error" }, 500)],
    or the text of each field the handler reads ([readJson] hands on [{}]
    for a text that does not parse). *)
Inductive JsonBody (A : Type) :=
| Thrown (error : ReadError)
| Parsed (fields : A).

Arguments Thrown {A} error.
Arguments Parsed {A} fields.

(** ** Actor identity resolver *)

Module Reactor.

Definition REACTOR_COOKIE : string := "stublogs_reactor".

Definition parseCookies (cookieHeader : string) : gmap string string :=
  Js.fromEntries
    (map (fun pair =>
            match Js.split "="%char pair with
            | name :: rest => (name, String.concat "=" rest)
            | [] => (EmptyString, EmptyString)
            end)
         (filter (fun v => Js.truthy v = true)
                 (map Js.trim (Js.split ";"%char cookieHeader)))).

(** [None] is the thrown [Missing SESSION_SECRET]. *)
Definition getSessionSecret (env : Env) : option string :=
  let secret := Js.trim (SESSION_SECRET env) in
  if negb (Js.truthy secret) then None else Some secret.

(** [entropy] is what [crypto.getRandomValues] writes. *)
Definition randomHex (byteLength : nat) (entropy : list Z) : string :=
  Sha256.bytesToHex (take byteLength entropy).

Definition sanitizeActorToken (value : string) : string :=
  let token := Js.toLowerCase (Js.trim value) in
  if negb (Js.truthy token) then EmptyString
  else if negb (Js.forallb Js.isLowerHex token && Js.lengthIn 20 64 token)
  then EmptyString
  else Js.slice0 64 token.

Definition deriveIpActorToken (entropy : list Z) (request : Request) (env : Env)
  : option string :=
  let ip := Js.trim (cf_connecting_ip request) in
  let ua := Js.trim (user_agent request) in
  if negb (Js.truthy ip) then Some (randomHex 16 entropy)
  else
    match getSessionSecret env with
    | None => None
    | Some secret =>
        let digest :=
          Sha256.sha256Hex (ip ++ "|" ++ ua ++ "|" ++ secret ++ "|reactor-ip-v1") in
        Some (Js.orElse (sanitizeActorToken digest) (randomHex 16 entropy))
    end.

Record Resolved := {
  token : string;
  shouldSetCookie : bool
}.

Definition resolveReactorToken (entropy : list Z) (request : Request) (env : Env)
  : option Resolved :=
  let cookies := parseCookies (cookie request) in
  let existing := sanitizeActorToken (default EmptyString (cookies !! REACTOR_COOKIE)) in
  match deriveIpActorToken entropy request env with
  | None => None
  | Some ipToken =>
      if Js.truthy existing then
        if String.eqb existing ipToken then
          Some {| token := ipToken; shouldSetCookie := false |}
        else
          let mixed :=
            Sha256.sha256Hex (existing ++ ":" ++ ipToken ++ ":reactor-mix-v1") in
          Some {| token := Js.orElse (sanitizeActorToken mixed) ipToken;
                  shouldSetCookie := false |}
      else Some {| token := ipToken; shouldSetCookie := true |}
  end.

End Reactor.

(** ** Reaction engine *)

Module Reactions.

Record Preset := {
  key : string;
  icon : string;
  label : string
}.

Definition REACTION_PRESETS : list Preset :=
  [ {| key := "lion"; icon := "🦁"; label := "獅王" |};
    {| key := "dragon"; icon := "🐉"; label := "金龍" |};
    {| key := "hummingbird"; icon := "🐦"; label := "蜂鳥" |};
    {| key := "deer"; icon := "🦌"; label := "冰鹿" |};
    {| key := "eagle"; icon := "🦅"; label := "蒼鷹" |};
    {| key := "wolf"; icon := "🐺"; label := "紫狼" |};
    {| key := "unicorn"; icon := "🦄"; label := "獨角獸" |};
    {| key := "phoenix"; icon := "🐦‍🔥"; label := "鳳凰" |};
    {| key := "orca"; icon := "🐋"; label := "逆戟鯨" |};
    {| key := "fire"; icon := "🔥"; label := "燃" |};
    {| key := "rocket"; icon := "🚀"; label := "起飛" |};
    {| key := "spark"; icon := "✨"; label := "閃亮" |};
    {| key := "mindblown"; icon := "🤯"; label := "炸裂" |};
    {| key := "respect"; icon := "🫶"; label := "超讚" |} ].

Definition REACTION_PRESET_MAP : gmap string Preset :=
  Js.fromEntries (map (fun item => (key item, item)) REACTION_PRESETS).

Definition sanitizeReactionKey (value : string) : string :=
  let key := Js.toLowerCase (Js.trim value) in
  match REACTION_PRESET_MAP !! key with
  | Some _ => key
  | None => EmptyString
  end.

(** An element of the array between [.map] and [.sort]. *)
Record Ranked := {
  preset : Preset;
  orderIndex : Z;
  rankedCount : Z;
  rankedSelected : bool
}.

Record Item := {
  itemKey : string;
  itemIcon : string;
  itemLabel : string;
  count : Z;
  selected : bool
}.

Record Snapshot := {
  items : list Item;
  total : Z;
  selectedKeys : list string
}.

(** The comparator handed to [Array.prototype.sort]. *)
Definition compareRanked (left right : Ranked) : Z :=
  if negb (rankedCount left =? rankedCount right)
  then rankedCount right - rankedCount left
  else orderIndex left - orderIndex right.

(** [left] may stand before [right]. *)
Definition inOrder (left right : Ranked) : Prop := compareRanked left right <= 0.

#[global] Instance inOrder_dec left right : Decision (inOrder left right) :=
  Z_le_dec _ _.

(** [array.sort(compare)]: a stable merge sort. *)
Definition sort (l : list Ranked) : list Ranked := merge_sort inOrder l.

Definition buildReactionSnapshot (countsByKey : gmap string Z)
    (selectedKeys : list string) : Snapshot :=
  let normalizedSelected : gset string :=
    list_to_set
      (filter (fun k => Js.truthy k = true) (map sanitizeReactionKey selectedKeys)) in
  let items :=
    map (fun item =>
           {| itemKey := key (preset item); itemIcon := icon (preset item);
              itemLabel := label (preset item); count := rankedCount item;
              selected := rankedSelected item |})
        (sort
           (imap (fun index preset =>
                    {| preset := preset;
                       orderIndex := Z.of_nat index;
                       rankedCount :=
                         Z.max (default 0 (countsByKey !! key preset)) 0;
                       rankedSelected :=
                         bool_decide (key preset ∈ normalizedSelected) |})
                 REACTION_PRESETS)) in
  {| items := items;
     total := foldl (fun sum item => sum + count item) 0 items;
     selectedKeys := map itemKey (filter (fun item => selected item = true) items) |}.

(** Position of a key in the declaration of [REACTION_PRESETS]. *)
Definition declaredIndex (k : string) : nat :=
  default (length REACTION_PRESETS)
    (fst <$> list_find (fun item => key item = k) REACTION_PRESETS).

(** The presentation order: larger count first, equal counts in declaration
    order. *)
Definition ranksBefore (a b : Item) : Prop :=
  count b < count a
  \/ (count a = count b /\ (declaredIndex (itemKey a) < declaredIndex (itemKey b))%nat).

(** The count a snapshot shows for a key. *)
Definition shownCount (k : string) (snapshot : Snapshot) : Z :=
  from_option count 0 (snd <$> list_find (fun item => itemKey item = k) (items snapshot)).

Definition onPost (siteId : Z) (postSlug : string) (row : ReactionRow) : bool :=
  (reaction_site_id row =? siteId) && String.eqb (reaction_post_slug row) postSlug.

Definition isReaction (siteId : Z) (postSlug reactionKey actorToken : string)
    (row : ReactionRow) : bool :=
  onPost siteId postSlug row && String.eqb (reaction_key row) reactionKey
    && String.eqb (actor_token row) actorToken.

(** [SELECT reaction_key, COUNT( * ) ... GROUP BY reaction_key]: one row per
    stored key, in order of first occurrence. *)
Definition groupByKey (rows : list ReactionRow) : list (string * Z) :=
  map (fun k =>
         (k, Z.of_nat (length (filter (fun row => reaction_key row = k) rows))))
      (remove_dups (map reaction_key rows)).

(** The [for] loop that fills [countsMap]. *)
Definition countsOfRows (rows : list (string * Z)) : gmap string Z :=
  foldl (fun countsMap row =>
           let key := sanitizeReactionKey (fst row) in
           if negb (Js.truthy key) then countsMap
           else <[key := Z.max (snd row) 0]> countsMap)
        ∅ rows.

Definition listPostReactionSnapshot (siteId : Z) (postSlug actorToken : string)
  : M Snapshot :=
  ensureReactionsTable ;;;
  issue (CountReactions siteId postSlug) ;;;
  countsResult <- get (fun w =>
    groupByKey (filter (fun row => onPost siteId postSlug row = true) (reactions w))) ;;
  let countsMap := countsOfRows countsResult in
  let normalizedActorToken := Reactor.sanitizeActorToken actorToken in
  if Js.truthy normalizedActorToken then
    issue (SelectActorReactions siteId postSlug normalizedActorToken) ;;;
    selectedResult <- get (fun w =>
      map reaction_key
        (filter (fun row => onPost siteId postSlug row
                              && String.eqb (actor_token row) normalizedActorToken = true)
                (reactions w))) ;;
    ret (buildReactionSnapshot countsMap
           (filter (fun k => Js.truthy k = true) (map sanitizeReactionKey selectedResult)))
  else ret (buildReactionSnapshot countsMap []).

(** [createdAt] is [new Date().toISOString()]. *)
Definition togglePostReaction (createdAt : string) (siteId : Z)
    (postSlug reactionKey actorToken : string) : M bool :=
  ensureReactionsTable ;;;
  let normalizedReactionKey := sanitizeReactionKey reactionKey in
  let normalizedActorToken := Reactor.sanitizeActorToken actorToken in
  if negb (Js.truthy normalizedReactionKey) || negb (Js.truthy normalizedActorToken)
  then ret false
  else
    let matches := isReaction siteId postSlug normalizedReactionKey normalizedActorToken in
    issue (SelectReaction siteId postSlug normalizedReactionKey normalizedActorToken) ;;;
    existing <- get (fun w =>
      head (filter (fun row => matches row = true) (reactions w))) ;;
    match existing with
    | Some _ =>
        issue (DeleteReaction siteId postSlug normalizedReactionKey
                 normalizedActorToken) ;;;
        modify (fun w =>
          set_reactions (filter (fun row => matches row = false) (reactions w))
                        (reactions_seq w) w) ;;;
        ret false
    | None =>
        issue (InsertReaction siteId postSlug normalizedReactionKey
                 normalizedActorToken) ;;;
        modify (fun w =>
          let id := nextRowId (reactions_seq w) (map reaction_id (reactions w)) in
          set_reactions
            (reactions w ++
               [{| reaction_id := id; reaction_site_id := siteId;
                   reaction_post_slug := postSlug;
                   reaction_key := normalizedReactionKey;
                   actor_token := normalizedActorToken;
                   reaction_created_at := createdAt |}])
            id w) ;;;
        ret true
    end.

End Reactions.

(** A row of [sites], as far as the core reads it. *)
Record Site := {
  site_id : Z;
  site_slug : string
}.

(** [getPostMeta]: the row of a post, without [includeDrafts] of a published
    post.  The probe for the optional [is_page] column is left out: it only
    decides a column the core does not read. *)
Definition getPostMeta (siteId : Z) (postSlug : string) (includeDrafts : bool)
  : M (option PostRow) :=
  issue (SelectPost siteId postSlug) ;;;
  get (fun w =>
    head (filter (fun row =>
                    (post_site_id row =? siteId) && String.eqb (post_slug row) postSlug
                    && (includeDrafts || (published row =? 1)) = true)
                 (posts w))).

(** ** View counter *)

Module Views.

Definition HOME_VIEW_KEY : string := "__home__".
Definition VIEW_RATE_WINDOW_MS : Z := 10 * 1000.
Definition VIEW_RATE_MAX_ATTEMPTS : Z := 2.

Definition normalizeViewResourceType (value : string) : string :=
  let type := Js.toLowerCase (Js.trim value) in
  if String.eqb type "home" then "home" else "post".

Definition normalizeViewResourceKey (resourceType value : string) : string :=
  if String.eqb resourceType "home" then HOME_VIEW_KEY
  else
    let slug := Js.toLowerCase (Js.trim value) in
    if negb (Js.truthy slug) then EmptyString
    else if (120 <? String.length slug)%nat then Js.slice0 120 slug
    else slug.

(** [now] is [new Date().toISOString()]. *)
Definition incrementPageViewCount (now : string) (siteId : Z)
    (resourceType resourceKey : string) : M Z :=
  ensureViewsTable ;;;
  let normalizedType := normalizeViewResourceType resourceType in
  let normalizedKey := normalizeViewResourceKey normalizedType resourceKey in
  if negb (Js.truthy normalizedKey) then ret 0
  else
    let pk := (siteId, normalizedType, normalizedKey) in
    issue (UpsertPageView siteId normalizedType normalizedKey) ;;;
    modify (fun w =>
      set_page_views
        (match page_views w !! pk with
         | Some old =>
             <[pk := {| view_count := view_count old + 1; view_updated_at := now |}]>
               (page_views w)
         | None =>
             <[pk := {| view_count := 1; view_updated_at := now |}]> (page_views w)
         end) w) ;;;
    issue (SelectPageView siteId normalizedType normalizedKey) ;;;
    row <- get (fun w => page_views w !! pk) ;;
    ret (Z.max (from_option view_count 0 row) 0).

Definition listPageViewCounts (siteId : Z) (resourceType : string)
    (resourceKeys : list string) : M (gmap string Z) :=
  ensureViewsTable ;;;
  let normalizedType := normalizeViewResourceType resourceType in
  let uniqueKeys :=
    Js.unique
      (filter (fun k => Js.truthy k = true)
              (map (normalizeViewResourceKey normalizedType) resourceKeys)) in
  match uniqueKeys with
  | [] => ret ∅
  | _ =>
      issue (SelectPageViews siteId normalizedType uniqueKeys) ;;;
      results <- get (fun w =>
        omap (fun k =>
                match page_views w !! (siteId, normalizedType, k) with
                | Some row => Some (k, view_count row)
                | None => None
                end) uniqueKeys) ;;
      ret (foldl (fun viewMap row =>
                    if negb (Js.truthy (fst row)) then viewMap
                    else <[fst row := Z.max (snd row) 0]> viewMap)
                 ∅ results)
  end.

(** The fields of the JSON body the handler reads, each as the text that
    [String(body.field || "")] makes of it: the empty string for an absent
    field and for any other falsy value. *)
Record ViewBody := {
  bodyResourceType : string;
  bodyType : string;
  bodyResourceKey : string;
  bodyPostSlug : string
}.

Inductive Body :=
| Failed (error : string)
| Throttled (count : Z)
| Counted (resourceType resourceKey : string) (count : Z).

Record Response := {
  status : Z;
  body : Body
}.

Definition requestedType (payload : ViewBody) : string :=
  normalizeViewResourceType
    (Js.orElse (bodyResourceType payload) (Js.orElse (bodyType payload) "post")).

Definition requestedKey (payload : ViewBody) : string :=
  let resourceKeyInput :=
    Js.toLowerCase (Js.trim (Js.orElse (bodyResourceKey payload) (bodyPostSlug payload))) in
  if String.eqb (requestedType payload) "home" then HOME_VIEW_KEY else resourceKeyInput.

Definition viewRateKey (request : Request) (site : Site)
    (resourceType resourceKey : string) : string :=
  Js.orElse (cf_connecting_ip request) "unknown" ++ ":" ++ site_slug site
  ++ ":view:" ++ resourceType ++ ":" ++ resourceKey.

(** [POST /api/view], once the site of the host is found: [read] is what
    reading the body comes to. *)
Definition postApiView (sweep : bool) (nowMs : Z) (nowIso : string)
    (request : Request) (site : Site) (read : JsonBody ViewBody) : M Response :=
  match read with
  | Thrown _ => ret {| status := 500; body := Failed "Internal server error" |}
  | Parsed payload =>
      let resourceType := requestedType payload in
      let resourceKey := requestedKey payload in
      if negb (Js.truthy resourceKey) then
        ret {| status := 400; body := Failed "Missing resource key" |}
      else
        post <- (if String.eqb resourceType "post"
                 then getPostMeta (site_id site) resourceKey false
                 else ret None) ;;
        if String.eqb resourceType "post" && negb (bool_decide (is_Some post)) then
          ret {| status := 404; body := Failed "Post not found" |}
        else
          viewRate <- RateLimiter.consumeRateLimit sweep nowMs
            (viewRateKey request site resourceType resourceKey)
            VIEW_RATE_WINDOW_MS VIEW_RATE_MAX_ATTEMPTS ;;
          if negb (RateLimiter.allowed viewRate) then
            viewMap <- listPageViewCounts (site_id site) resourceType [resourceKey] ;;
            let currentCount := Z.max (default 0 (viewMap !! resourceKey)) 0 in
            ret {| status := 200; body := Throttled currentCount |}
          else
            count <- incrementPageViewCount nowIso (site_id site) resourceType resourceKey ;;
            ret {| status := 200; body := Counted resourceType resourceKey count |}
  end.

End Views.

(** ** Comment store: paging *)

Module Comments.

Definition COMMENTS_PAGE_SIZE : Z := 20.

Record Comment := {
  id : Z;
  postSlug : string;
  authorName : string;
  authorSiteSlug : string;
  commentContent : string;
  createdAt : string
}.

Record Page := {
  pageComments : list Comment;
  total : Z;
  page : Z;
  totalPages : Z;
  pageSize : Z
}.

(** [ORDER BY created_at DESC]: [left] may stand before [right]. *)
Definition newerFirst (left right : CommentRow) : Prop :=
  String.le (comment_created_at right) (comment_created_at left).

#[global] Instance newerFirst_dec : RelDecision newerFirst.
Proof. intros left right; unfold newerFirst; apply _. Defined.

Definition onPost (siteId : Z) (postSlug : string) (row : CommentRow) : bool :=
  (comment_site_id row =? siteId) && String.eqb (comment_post_slug row) postSlug.

Definition listPostComments (siteId : Z) (postSlug : string) (page pageSize : Z)
  : M Page :=
  ensureCommentsTable ;;;
  let safePageSize := Z.min (Z.max (Js.numberOr pageSize COMMENTS_PAGE_SIZE) 1) 80 in
  let safePage := Z.max (Js.numberOr page 1) 1 in
  issue (CountComments siteId postSlug) ;;;
  totalResult <- get (fun w =>
    Z.of_nat
      (length (filter (fun row => onPost siteId postSlug row = true) (comments w)))) ;;
  let total := Z.max totalResult 0 in
  let totalPages := Z.max 1 (Js.ceilDiv total safePageSize) in
  let boundedPage := Z.min safePage totalPages in
  let offset := (boundedPage - 1) * safePageSize in
  issue (SelectComments siteId postSlug safePageSize offset) ;;;
  rowsResult <- get (fun w =>
    take (Z.to_nat safePageSize)
      (drop (Z.to_nat offset)
         (merge_sort newerFirst
            (filter (fun row => onPost siteId postSlug row = true) (comments w))))) ;;
  let comments :=
    map (fun item =>
           {| id := comment_id item; postSlug := comment_post_slug item;
              authorName := author_name item;
              authorSiteSlug := Js.orElse (author_site_slug item) EmptyString;
              commentContent := content item;
              createdAt := comment_created_at item |}) rowsResult in
  ret {| pageComments := comments; total := total; page := boundedPage;
         totalPages := totalPages; pageSize := safePageSize |}.

End Comments.

(** ** Notification pipeline *)

Module Notify.

(** The [payload] and [event] objects; an absent field is the empty
    string. *)
Record Event := {
  eventType : string;
  postSlug : string;
  postTitle : string;
  actorName : string;
  actorSiteSlug : string;
  contentPreview : string;
  reactionKey : string;
  reactionLabel : string;
  targetPath : string;
  createdAt : string
}.

Record Settings := {
  settingsEnabled : bool;
  notifyComments : bool;
  notifyReactions : bool;
  telegramChatId : string;
  hasBotToken : bool;
  telegramBotToken : string;
  updatedAt : string
}.

Definition sanitizeNotifyEventType (value : string) : string :=
  let type := Js.toLowerCase (Js.trim value) in
  if String.eqb type "comment" then "comment"
  else if String.eqb type "reaction" then "reaction"
  else EmptyString.

Definition isPathNoise (c : ascii) : bool :=
  let n := nat_of_ascii c in
  ((n <=? 31) || (n =? 127) || (n =? 34) || (n =? 39) || (n =? 60) || (n =? 62)
   || (n =? 96))%nat.

Definition sanitizeNotificationPath (value : string) : string :=
  let rawPath := Js.trim value in
  if negb (Js.startsWith "/" rawPath) then "/"
  else
    let path := Js.slice0 320 (Js.filter (fun c => negb (isPathNoise c)) rawPath) in
    if Js.startsWith "/" path then path else "/".

Definition sanitizeNotificationPreview (value : string) : string :=
  Js.slice0 320 (Js.trim (Js.replaceCrLf value)).

Definition isTokenChar (c : ascii) : bool :=
  Js.isAlnum c || Ascii.eqb c "_" || Ascii.eqb c "-".

(** [/^\d{6,14}:[A-Za-z0-9_-]{20,140}$/] *)
Definition sanitizeTelegramBotToken (value : string) : string :=
  let token := Js.trim value in
  if negb (Js.truthy token) then EmptyString
  else
    match Js.split ":"%char token with
    | [botId; secret] =>
        if Js.forallb Js.isDigit botId && Js.lengthIn 6 14 botId
           && Js.forallb isTokenChar secret && Js.lengthIn 20 140 secret
        then token else EmptyString
    | _ => EmptyString
    end.

(** [/^-?\d{5,20}$/] *)
Definition sanitizeTelegramChatId (value : string) : string :=
  let chatId := Js.trim value in
  if negb (Js.truthy chatId) then EmptyString
  else
    let digits :=
      match chatId with
      | String "-" rest => rest
      | _ => chatId
      end in
    if Js.forallb Js.isDigit digits && Js.lengthIn 5 20 digits
    then chatId else EmptyString.

Definition sanitizeName (value : string) : string := Js.slice0 60 (Js.trim value).
Definition sanitizeTitle (value : string) : string := Js.slice0 120 (Js.trim value).

Definition isSlugChar (c : ascii) : bool :=
  Js.isDigit c || Js.between 97 122 c || Ascii.eqb c "-".

Definition sanitizeOptionalSiteSlug (value : string) : string :=
  let slug := Js.toLowerCase (Js.trim value) in
  if negb (Js.truthy slug) then EmptyString
  else if negb (Js.lengthIn 2 30 slug) then EmptyString
  else if negb (Js.forallb isSlugChar slug) then EmptyString
  else if Js.startsWith "-" slug || Js.endsWithChar "-" slug || Js.includes "--" slug
  then EmptyString
  else slug.

Definition defaultSiteNotifySettings : Settings :=
  {| settingsEnabled := false; notifyComments := true; notifyReactions := true;
     telegramChatId := EmptyString; hasBotToken := false;
     telegramBotToken := EmptyString; updatedAt := EmptyString |}.

Definition hexValue (c : ascii) : Z :=
  let n := Z.of_nat (nat_of_ascii c) in
  if Js.isDigit c then n - 48 else n - 87.

Fixpoint hexPairs (s : string) : list Z :=
  match s with
  | String hi (String lo rest) => (16 * hexValue hi + hexValue lo) :: hexPairs rest
  | _ => []
  end.

(** [None] is [null]. *)
Definition hexToBytes (hex : string) : option (list Z) :=
  let raw := Js.toLowerCase (Js.trim hex) in
  if negb (Js.truthy raw) || negb (Nat.even (String.length raw))
     || negb (Js.forallb Js.isLowerHex raw)
  then None
  else Some (hexPairs raw).

Section Crypto.

(** [crypto.subtle.decrypt] with AES-GCM, followed by [TextDecoder]:
    key, nonce, ciphertext to plaintext; [None] is a rejected promise. *)
Variable aesGcmDecrypt : list Z -> list Z -> list Z -> option string.

(** [None] is a throw. *)
Definition decryptSensitiveValue (value : string) (env : Env) : option string :=
  let raw := Js.trim value in
  if negb (Js.truthy raw) then Some EmptyString
  else
    match Js.split "$"%char raw with
    | [version; ivHex; cipherHex] =>
        if negb (String.eqb version "v1") then Some EmptyString
        else
          match hexToBytes ivHex, hexToBytes cipherHex with
          | Some iv, Some cipherBytes =>
              match Reactor.getSessionSecret env with
              | None => None
              | Some secret =>
                  aesGcmDecrypt
                    (Sha256.digest
                       (Sha256.bytesOfString (secret ++ ":site-tele-notify:v1")))
                    iv cipherBytes
              end
          | _, _ => Some EmptyString
          end
    | _ => Some EmptyString
    end.

Definition getSiteNotifySettings (env : Env) (siteId : Z) (includeBotToken : bool)
  : M Settings :=
  ensureNotificationTables ;;;
  issue (SelectTelegramSettings siteId) ;;;
  row <- get (fun w => site_telegram_settings w !! siteId) ;;
  match row with
  | None => ret defaultSiteNotifySettings
  | Some row =>
      let encryptedToken := telegram_bot_token_enc row in
      let telegramBotToken :=
        if includeBotToken && Js.truthy encryptedToken then
          default EmptyString (decryptSensitiveValue encryptedToken env)
        else EmptyString in
      ret {| settingsEnabled := enabled row =? 1;
             notifyComments := negb (notify_comments row =? 0);
             notifyReactions := negb (notify_reactions row =? 0);
             telegramChatId := sanitizeTelegramChatId (telegram_chat_id row);
             hasBotToken := Js.truthy encryptedToken;
             telegramBotToken := sanitizeTelegramBotToken telegramBotToken;
             updatedAt := settings_updated_at row |}
  end.

(** [nowIso] is [new Date().toISOString()]; the result is the new row id,
    [None] for [null]. *)
Definition createSiteNotification (nowIso : string) (siteId : Z) (payload : Event)
  : M (option Z) :=
  ensureNotificationTables ;;;
  let eventType := sanitizeNotifyEventType (eventType payload) in
  if negb (Js.truthy eventType) then ret None
  else
    let postSlug := Js.slice0 120 (Js.toLowerCase (Js.trim (postSlug payload))) in
    if negb (Js.truthy postSlug) then ret None
    else
      let now := Js.orElse (createdAt payload) nowIso in
      let postTitle := sanitizeTitle (Js.orElse (postTitle payload) postSlug) in
      let actorName := sanitizeName (actorName payload) in
      let actorSiteSlug := sanitizeOptionalSiteSlug (actorSiteSlug payload) in
      let contentPreview := sanitizeNotificationPreview (contentPreview payload) in
      let reactionKey := Reactions.sanitizeReactionKey (reactionKey payload) in
      let reactionPreset :=
        if Js.truthy reactionKey
        then Reactions.REACTION_PRESET_MAP !! reactionKey else None in
      let reactionLabel :=
        match reactionPreset with
        | Some preset => Reactions.icon preset ++ " " ++ Reactions.label preset
        | None => sanitizeNotificationPreview (reactionLabel payload)
        end in
      let targetPath :=
        sanitizeNotificationPath
          (Js.orElse (targetPath payload) ("/" ++ Js.encodeURIComponent postSlug)) in
      issue (InsertNotification siteId) ;;;
      id <- get (fun w =>
        nextRowId (site_notifications_seq w)
                  (map notification_id (site_notifications w))) ;;
      modify (fun w =>
        set_site_notifications
          (site_notifications w ++
             [{| notification_id := id; notification_site_id := siteId;
                 event_type := eventType; notification_post_slug := postSlug;
                 post_title := postTitle; actor_name := actorName;
                 actor_site_slug := actorSiteSlug;
                 content_preview := contentPreview;
                 notification_reaction_key := reactionKey;
                 reaction_label := reactionLabel; target_path := targetPath;
                 notification_created_at := now; read_at := None |}])
          id w) ;;;
      ret (Some id).

(** [ORDER BY created_at DESC]: [left] may stand before [right]. *)
Definition newerFirst (left right : NotificationRow) : Prop :=
  String.le (notification_created_at right) (notification_created_at left).

#[global] Instance newerFirst_dec : RelDecision newerFirst.
Proof. intros left right; unfold newerFirst; apply _. Defined.

(** [sweep] is the outcome of [Math.random() < 0.02]. *)
Definition maybeScheduleNotificationsGc (sweep : bool) (siteId : Z) : M unit :=
  if negb sweep then ret tt
  else
    issue (SelectNotificationCutoff siteId) ;;;
    cutoff <- get (fun w =>
      merge_sort newerFirst
        (filter (fun row => notification_site_id row = siteId) (site_notifications w))
      !! 799%nat) ;;
    let cutoffId := from_option notification_id 0 cutoff in
    if cutoffId =? 0 then ret tt
    else
      issue (DeleteNotificationsBelow siteId cutoffId) ;;;
      modify (fun w =>
        set_site_notifications
          (filter (fun row =>
                     ¬ (notification_site_id row = siteId
                        ∧ notification_id row < cutoffId))
                  (site_notifications w))
          (site_notifications_seq w) w).

Definition buildSiteNotificationMessage (nowIso : string) (event : Event)
    (site : Site) (baseDomain : string) : string :=
  let fullSite := site_slug site ++ "." ++ baseDomain in
  let postUrl := "https://" ++ fullSite ++ "/" ++ Js.encodeURIComponent (postSlug event) in
  let newline := String (ascii_of_nat 10) EmptyString in
  if String.eqb (sanitizeNotifyEventType (eventType event)) "reaction" then
    let reactionLine :=
      if Js.truthy (reactionLabel event)
      then "反應：" ++ reactionLabel event
      else "反應：新點贊" in
    String.concat newline
      [ "🔔 新點贊通知";
        "站點：" ++ fullSite;
        "文章：" ++ Js.orElse (postTitle event) (postSlug event);
        reactionLine;
        "連結：" ++ postUrl;
        "時間：" ++ Js.orElse (createdAt event) nowIso ]
  else
    let actorLine :=
      if Js.truthy (actorSiteSlug event)
      then actorName event ++ "（" ++ actorSiteSlug event ++ "." ++ baseDomain ++ "）"
      else Js.orElse (actorName event) "匿名" in
    String.concat newline
      [ "💬 新留言通知";
        "站點：" ++ fullSite;
        "文章：" ++ Js.orElse (postTitle event) (postSlug event);
        "留言者：" ++ actorLine;
        "內容：" ++ Js.orElse (contentPreview event) "(無文字)";
        "連結：" ++ postUrl ++ "#comments";
        "時間：" ++ Js.orElse (createdAt event) nowIso ].

(** The [fetch] is made; what the relay answers only decides whether an
    error is logged. *)
Definition sendTelegramViaCustomBot (botToken chatId text : string) : M unit :=
  modify (fun w =>
    set_relay_calls
      (relay_calls w ++
         [{| relay_bot_token := botToken; relay_chat_id := chatId;
             relay_text := text |}]) w).

Definition normalizeEvent (nowIso : string) (payload : Event) : Event :=
  {| eventType := sanitizeNotifyEventType (eventType payload);
     postSlug := Js.toLowerCase (Js.trim (postSlug payload));
     postTitle := sanitizeTitle (Js.orElse (postTitle payload) (postSlug payload));
     actorName := sanitizeName (actorName payload);
     actorSiteSlug := sanitizeOptionalSiteSlug (actorSiteSlug payload);
     contentPreview := sanitizeNotificationPreview (contentPreview payload);
     reactionKey := Reactions.sanitizeReactionKey (reactionKey payload);
     reactionLabel := sanitizeNotificationPreview (reactionLabel payload);
     targetPath :=
       sanitizeNotificationPath
         (Js.orElse (targetPath payload)
            ("/" ++ Js.encodeURIComponent
                      (Js.toLowerCase (Js.trim (postSlug payload)))));
     createdAt := Js.orElse (createdAt payload) nowIso |}.

(** The detached task of [queueSiteNotificationEvent], run to its end. *)
Definition queueSiteNotificationEvent (sweep : bool) (nowIso : string)
    (env : Env) (site : Site) (payload : Event) : M unit :=
  let event := normalizeEvent nowIso payload in
  if negb (Js.truthy (eventType event)) || negb (Js.truthy (postSlug event))
  then ret tt
  else
    createSiteNotification nowIso (site_id site) event ;;;
    maybeScheduleNotificationsGc sweep (site_id site) ;;;
    notifySettings <- getSiteNotifySettings env (site_id site) true ;;
    if negb (settingsEnabled notifySettings)
       || negb (Js.truthy (telegramChatId notifySettings))
       || negb (Js.truthy (telegramBotToken notifySettings))
    then ret tt
    else if String.eqb (eventType event) "comment"
            && negb (notifyComments notifySettings)
    then ret tt
    else if String.eqb (eventType event) "reaction"
            && negb (notifyReactions notifySettings)
    then ret tt
    else
      let baseDomain := Js.toLowerCase (Js.orElse (BASE_DOMAIN env) "bdfz.net") in
      let message := buildSiteNotificationMessage nowIso event site baseDomain in
      sendTelegramViaCustomBot (telegramBotToken notifySettings)
        (telegramChatId notifySettings) message.

(** The condition under which a relay call is due for an event of the given
    kind: the site's settings row enables the relay, holds a chat id and a
    bot token that decrypts to a well-formed token, and the toggle of the
    event's kind is on. *)
Definition relayDue (env : Env) (siteId : Z) (kind : string) (w : World) : Prop :=
  exists row botToken,
    site_telegram_settings w !! siteId = Some row
    /\ enabled row = 1
    /\ sanitizeTelegramChatId (telegram_chat_id row) <> EmptyString
    /\ decryptSensitiveValue (telegram_bot_token_enc row) env = Some botToken
    /\ sanitizeTelegramBotToken botToken <> EmptyString
    /\ (kind = "comment" -> notify_comments row <> 0)
    /\ (kind = "reaction" -> notify_reactions row <> 0).

End Crypto.

End Notify.

(** ** [POST /api/reactions] *)

Module Api.

Definition REACTION_RATE_WINDOW_MS : Z := 60 * 1000.
Definition REACTION_RATE_MAX_ATTEMPTS : Z := 30.
Definition REACTOR_COOKIE_TTL_SECONDS : Z := 60 * 60 * 24 * 365 * 2.

(** The fields of the JSON body the handler reads, each as the text that
    [String(body.field || "")] makes of it: the empty string for an absent
    field and for any other falsy value. *)
Record ReactionBody := {
  bodyPostSlug : string;
  bodyReactionKey : string
}.

Inductive Body :=
| Failed (error : string)
| Reacted (postSlug reactionKey : string) (active : bool)
    (snapshot : Reactions.Snapshot).

Record Response := {
  status : Z;
  retryAfter : option Z;
  setCookie : option string;
  body : Body
}.

Definition failed (status : Z) (error : string) : Response :=
  {| status := status; retryAfter := None; setCookie := None; body := Failed error |}.

Definition buildReactorCookie (token : string) : string :=
  Reactor.REACTOR_COOKIE ++ "=" ++ token
  ++ "; Path=/; HttpOnly; Secure; SameSite=Lax; Max-Age="
  ++ NilZero.string_of_int (Z.to_int REACTOR_COOKIE_TTL_SECONDS).

Definition reactionRateKey (request : Request) (site : Site) : string :=
  Js.orElse (cf_connecting_ip request) "unknown" ++ ":" ++ site_slug site ++ ":reactions".

Section Crypto.

Variable aesGcmDecrypt : list Z -> list Z -> list Z -> option string.

(** [POST /api/reactions], once the site of the host is found: [read] is
    what reading the body comes to.  [sweepRate] and [sweepNotifications] are the
    outcomes of the two [Math.random()] draws, [toggledAt] and [queuedAt] the
    two readings of the clock as ISO strings.  The detached notification
    task is run where it is started; it touches no table the handler reads
    afterwards.  A thrown [Missing SESSION_SECRET] is answered by the
    catch-all of [fetch] with status 500, as is a body that cannot be
    read. *)
Definition postApiReactions (sweepRate : bool) (nowMs : Z) (entropy : list Z)
    (toggledAt : string) (sweepNotifications : bool) (queuedAt : string)
    (env : Env) (request : Request) (site : Site) (read : JsonBody ReactionBody)
  : M Response :=
  reactionRate <- RateLimiter.consumeRateLimit sweepRate nowMs
    (reactionRateKey request site) REACTION_RATE_WINDOW_MS REACTION_RATE_MAX_ATTEMPTS ;;
  if negb (RateLimiter.allowed reactionRate) then
    ret {| status := 429;
           retryAfter := Some (Js.ceilDiv (RateLimiter.retryAfterMs reactionRate) 1000);
           setCookie := None;
           body := Failed "Too many reaction requests, please try later" |}
  else
    match read with
    | Thrown _ => ret (failed 500 "Internal server error")
    | Parsed payload =>
        let postSlug := Js.toLowerCase (Js.trim (bodyPostSlug payload)) in
        let reactionKey := Reactions.sanitizeReactionKey (bodyReactionKey payload) in
        if negb (Js.truthy postSlug) then ret (failed 400 "Missing post slug")
        else if negb (Js.truthy reactionKey) then ret (failed 400 "Invalid reaction key")
        else
          post <- getPostMeta (site_id site) postSlug false ;;
          match post with
          | None => ret (failed 404 "Post not found")
          | Some post =>
              match Reactor.resolveReactorToken entropy request env with
              | None => ret (failed 500 "Internal server error")
              | Some reactor =>
                  active <- Reactions.togglePostReaction toggledAt (site_id site) postSlug
                              reactionKey (Reactor.token reactor) ;;
                  (if active then
                     Notify.queueSiteNotificationEvent aesGcmDecrypt sweepNotifications
                       queuedAt env site
                       {| Notify.eventType := "reaction";
                          Notify.postSlug := postSlug;
                          Notify.postTitle := Js.orElse (title post) postSlug;
                          Notify.actorName := EmptyString;
                          Notify.actorSiteSlug := EmptyString;
                          Notify.contentPreview := EmptyString;
                          Notify.reactionKey := reactionKey;
                          Notify.reactionLabel :=
                            match Reactions.REACTION_PRESET_MAP !! reactionKey with
                            | Some reactionPreset =>
                                Reactions.icon reactionPreset ++ " "
                                ++ Reactions.label reactionPreset
                            | None => reactionKey
                            end;
                          Notify.targetPath :=
                            "/" ++ Js.encodeURIComponent postSlug ++ "#reactions";
                          Notify.createdAt := EmptyString |}
                   else ret tt) ;;;
                  snapshot <- Reactions.listPostReactionSnapshot (site_id site) postSlug
                                (Reactor.token reactor) ;;
                  ret {| status := 200; retryAfter := None;
                         setCookie :=
                           if Reactor.shouldSetCookie reactor
                           then Some (buildReactorCookie (Reactor.token reactor))
                           else None;
                         body := Reacted postSlug reactionKey active snapshot |}
              end
          end
    end.

End Crypto.

End Api.

(** ** Serial composition *)

(** The calls of [f] on the elements of [l], one after the other. *)
Fixpoint traverse {A B} (f : A -> M B) (l : list A) : M (list B) :=
  match l with
  | [] => ret []
  | a :: rest => b <- f a ;; bs <- traverse f rest ;; ret (b :: bs)
  end.

(** [m] leaves the part [f] of the store as it finds it. *)
Definition keeps {X A} (f : World -> X) (m : M A) : Prop :=
  forall w, f (snd (m w)) = f w.

(** ** Writes to the comments and settings tables

    The statement log keeps the statements of the request paths above; the
    functions below are modelled by what they read from and write to the
    tables. *)

Definition set_comments (t : list CommentRow) (w : World) : World :=
  {| rate_limits := rate_limits w;
     reactions := reactions w;
     reactions_seq := reactions_seq w;
     page_views := page_views w;
     comments := t;
     posts := posts w;
     site_notifications := site_notifications w;
     site_notifications_seq := site_notifications_seq w;
     site_telegram_settings := site_telegram_settings w;
     memo := memo w;
     statements := statements w;
     relay_calls := relay_calls w |}.

Definition set_site_telegram_settings (t : gmap Z TelegramSettingsRow) (w : World)
  : World :=
  {| rate_limits := rate_limits w;
     reactions := reactions w;
     reactions_seq := reactions_seq w;
     page_views := page_views w;
     comments := comments w;
     posts := posts w;
     site_notifications := site_notifications w;
     site_notifications_seq := site_notifications_seq w;
     site_telegram_settings := t;
     memo := memo w;
     statements := statements w;
     relay_calls := relay_calls w |}.

(** ** Comment store: writing *)

Module CommentStore.




Definition toComment (item : CommentRow) : Comments.Comment :=
  {| Comments.id := comment_id item;
     Comments.postSlug := comment_post_slug item;
     Comments.authorName := author_name item;
     Comments.authorSiteSlug := Js.orElse (author_site_slug item) EmptyString;
     Comments.commentContent := content item;
     Comments.createdAt := comment_created_at item |}.

(** [seq] is the counter SQLite keeps for the table in [sqlite_sequence],
    the largest id the table has held so far; [createdAt] is
    [new Date().toISOString()]. *)
Definition createComment (seq : Z) (createdAt : string) (siteId : Z)
    (postSlug authorName authorSiteSlug content : string) : M Comments.Comment :=
  ensureCommentsTable ;;;
  id <- get (fun w => nextRowId seq (map comment_id (comments w))) ;;
  modify (fun w =>
    set_comments
      (comments w ++
         [{| comment_id := id; comment_site_id := siteId;
             comment_post_slug := postSlug; author_name := authorName;
             author_site_slug := authorSiteSlug; content := content;
             comment_created_at := createdAt |}]) w) ;;;
  ret {| Comments.id := id; Comments.postSlug := postSlug;
         Comments.authorName := authorName;
         Comments.authorSiteSlug := authorSiteSlug;
         Comments.commentContent := content;
         Comments.createdAt := createdAt |}.

Definition isComment (siteId commentId : Z) (row : CommentRow) : bool :=
  (comment_id row =? commentId) && (comment_site_id row =? siteId).

Definition deleteComment (siteId commentId : Z) : M bool :=
  ensureCommentsTable ;;;
  changes <- get (fun w =>
    Z.of_nat
      (length (filter (fun row => isComment siteId commentId row = true) (comments w)))) ;;
  modify (fun w =>
    set_comments
      (filter (fun row => isComment siteId commentId row = false) (comments w)) w) ;;;
  ret (0 <? changes).

End CommentStore.

(** ** The [reactions] table *)

Module ReactionTable.

(** The columns of [UNIQUE(site_id, post_slug, reaction_key, actor_token)]. *)
Definition reactionIdentity (row : ReactionRow) : Z * string * string * string :=
  (reaction_site_id row, reaction_post_slug row, reaction_key row, actor_token row).

(** What the schema asks of the table, a primary key and the [UNIQUE]
    constraint, and what [togglePostReaction] writes into it: a key of
    [REACTION_PRESETS] and an actor token in normal form. *)
Definition wellFormed (rows : list ReactionRow) : Prop :=
  NoDup (map reaction_id rows)
  /\ NoDup (map reactionIdentity rows)
  /\ Forall (fun row =>
               reaction_key row ∈ map Reactions.key Reactions.REACTION_PRESETS
               /\ Js.forallb Js.isLowerHex (actor_token row)
                    && Js.lengthIn 20 64 (actor_token row) = true) rows.

End ReactionTable.

(** ** A post goes away or changes its slug *)

Module PostCleanup.

Definition deleteCommentsByPost (siteId : Z) (postSlug : string) : M unit :=
  ensureCommentsTable ;;;
  modify (fun w =>
    set_comments
      (filter (fun row => Comments.onPost siteId postSlug row = false) (comments w)) w).

Definition moveComment (siteId : Z) (fromPostSlug toPostSlug : string)
    (row : CommentRow) : CommentRow :=
  if Comments.onPost siteId fromPostSlug row then
    {| comment_id := comment_id row; comment_site_id := comment_site_id row;
       comment_post_slug := toPostSlug; author_name := author_name row;
       author_site_slug := author_site_slug row; content := content row;
       comment_created_at := comment_created_at row |}
  else row.

Definition moveCommentsToPost (siteId : Z) (fromPostSlug toPostSlug : string)
  : M unit :=
  ensureCommentsTable ;;;
  modify (fun w =>
    set_comments (map (moveComment siteId fromPostSlug toPostSlug) (comments w)) w).

Definition deleteReactionsByPost (siteId : Z) (postSlug : string) : M unit :=
  ensureReactionsTable ;;;
  modify (fun w =>
    set_reactions
      (filter (fun row => Reactions.onPost siteId postSlug row = false) (reactions w))
      (reactions_seq w) w).

Definition moveReaction (siteId : Z) (fromPostSlug toPostSlug : string)
    (row : ReactionRow) : ReactionRow :=
  if Reactions.onPost siteId fromPostSlug row then
    {| reaction_id := reaction_id row; reaction_site_id := reaction_site_id row;
       reaction_post_slug := toPostSlug; reaction_key := reaction_key row;
       actor_token := actor_token row;
       reaction_created_at := reaction_created_at row |}
  else row.

(** [None] is the error of an [UPDATE] that the [UNIQUE] constraint of the
    table stops; the statement then changes nothing. *)
Definition moveReactionsToPost (siteId : Z) (fromPostSlug toPostSlug : string)
  : M (option unit) :=
  ensureReactionsTable ;;;
  moved <- get (fun w => map (moveReaction siteId fromPostSlug toPostSlug) (reactions w)) ;;
  if bool_decide (NoDup (map ReactionTable.reactionIdentity moved)) then
    modify (fun w => set_reactions moved (reactions_seq w) w) ;;;
    ret (Some tt)
  else ret None.

End PostCleanup.

(** ** The notification inbox of a site *)

Module Inbox.

Definition NOTIFICATION_PAGE_SIZE : Z := 40.

Record Notification := {
  id : Z;
  eventType : string;
  postSlug : string;
  postTitle : string;
  actorName : string;
  actorSiteSlug : string;
  contentPreview : string;
  reactionKey : string;
  reactionLabel : string;
  targetPath : string;
  createdAt : string;
  read : bool
}.

Record Page := {
  notifications : list Notification;
  unread : Z;
  total : Z;
  page : Z;
  pageSize : Z;
  totalPages : Z;
  hasPrev : bool;
  hasNext : bool
}.

Definition ofSite (siteId : Z) (row : NotificationRow) : bool :=
  notification_site_id row =? siteId.

Definition isUnread (row : NotificationRow) : bool :=
  match read_at row with None => true | Some _ => false end.

Definition toNotification (row : NotificationRow) : Notification :=
  {| id := notification_id row;
     eventType := Notify.sanitizeNotifyEventType (event_type row);
     postSlug := notification_post_slug row;
     postTitle := post_title row;
     actorName := actor_name row;
     actorSiteSlug := actor_site_slug row;
     contentPreview := content_preview row;
     reactionKey := Reactions.sanitizeReactionKey (notification_reaction_key row);
     reactionLabel := reaction_label row;
     targetPath := Notify.sanitizeNotificationPath (Js.orElse (target_path row) "/");
     createdAt := notification_created_at row;
     read := match read_at row with Some readAt => Js.truthy readAt | None => false end |}.

Definition listSiteNotifications (siteId : Z) (page pageSize : Z) : M Page :=
  ensureNotificationTables ;;;
  let safePageSize := Z.min (Z.max (Js.numberOr pageSize NOTIFICATION_PAGE_SIZE) 1) 100 in
  let safePage := Z.max (Js.numberOr page 1) 1 in
  totalResult <- get (fun w =>
    Z.of_nat
      (length (filter (fun row => ofSite siteId row = true) (site_notifications w)))) ;;
  unreadResult <- get (fun w =>
    Z.of_nat
      (length (filter (fun row => ofSite siteId row && isUnread row = true)
                      (site_notifications w)))) ;;
  let total := Z.max totalResult 0 in
  let unread := Z.max unreadResult 0 in
  let totalPages := Z.max 1 (Js.ceilDiv total safePageSize) in
  let boundedPage := Z.min safePage totalPages in
  let offset := (boundedPage - 1) * safePageSize in
  rows <- get (fun w =>
    take (Z.to_nat safePageSize)
      (drop (Z.to_nat offset)
         (merge_sort Notify.newerFirst
            (filter (fun row => ofSite siteId row = true) (site_notifications w))))) ;;
  ret {| notifications := map toNotification rows;
         unread := unread;
         total := total;
         page := boundedPage;
         pageSize := safePageSize;
         totalPages := totalPages;
         hasPrev := 1 <? boundedPage;
         hasNext := boundedPage <? totalPages |}.

(** [SET read_at = COALESCE(read_at, now)] *)
Definition markRead (now : string) (row : NotificationRow) : NotificationRow :=
  {| notification_id := notification_id row;
     notification_site_id := notification_site_id row;
     event_type := event_type row;
     notification_post_slug := notification_post_slug row;
     post_title := post_title row;
     actor_name := actor_name row;
     actor_site_slug := actor_site_slug row;
     content_preview := content_preview row;
     notification_reaction_key := notification_reaction_key row;
     reaction_label := reaction_label row;
     target_path := target_path row;
     notification_created_at := notification_created_at row;
     read_at := match read_at row with Some readAt => Some readAt | None => Some now end |}.

(** The ids of [options.ids] that the statement names: [Some n] is an item
    whose [Number(item)] is the integer [n], [None] any other item. *)
Definition selectedIds (ids : list (option Z)) : list Z :=
  reverse
    (remove_dups
       (reverse (take 80 (filter (fun item => 0 < item) (omap (fun item => item) ids))))).

(** [now] is [new Date().toISOString()], [all] is [options.all] and [ids]
    the items of [options.ids], none when it is not an array. *)
Definition markSiteNotificationsRead (now : string) (siteId : Z) (all : bool)
    (ids : list (option Z)) : M unit :=
  ensureNotificationTables ;;;
  if all then
    modify (fun w =>
      set_site_notifications
        (map (fun row => if ofSite siteId row then markRead now row else row)
             (site_notifications w))
        (site_notifications_seq w) w)
  else
    match selectedIds ids with
    | [] => ret tt
    | chosen =>
        modify (fun w =>
          set_site_notifications
            (map (fun row =>
                    if ofSite siteId row && bool_decide (notification_id row ∈ chosen)
                    then markRead now row else row)
                 (site_notifications w))
            (site_notifications_seq w) w)
    end.

End Inbox.

(** ** [POST /api/comments] *)

Module CommentApi.



Inductive Body :=
| Failed (error : string)
| Created (comment : Comments.Comment).

Record Response := {
  status : Z;
  retryAfter : option Z;
  body : Body
}.

Definition failed (status : Z) (error : string) : Response :=
  {| status := status; retryAfter := None; body := Failed error |}.


Section Crypto.

Variable aesGcmDecrypt : list Z -> list Z -> list Z -> option string.


End Crypto.

End CommentApi.

(** ** Stored secrets and the notification settings of a site *)

Module Secrets.

(** The fields of [payload]: an absent or [null] flag is [None], any other
    value its truthiness; an absent string is the empty string. *)
Record SettingsPayload := {
  payloadEnabled : option bool;
  payloadNotifyComments : option bool;
  payloadNotifyReactions : option bool;
  payloadTelegramChatId : string;
  payloadTelegramBotToken : string;
  payloadClearBotToken : bool
}.

Definition normalizeNotifyBool (value : option bool) (fallback : bool) : bool :=
  default fallback value.

Section Crypto.

(** [crypto.subtle.encrypt] with AES-GCM after [TextEncoder]: key, nonce,
    plaintext to the bytes of ciphertext and tag. *)
Variable aesGcmEncrypt : list Z -> list Z -> string -> list Z.

Variable aesGcmDecrypt : list Z -> list Z -> list Z -> option string.

(** [entropy] is what [crypto.getRandomValues] writes into the nonce;
    [None] is the thrown [Missing SESSION_SECRET]. *)
Definition encryptSensitiveValue (entropy : list Z) (value : string) (env : Env)
  : option string :=
  if negb (Js.truthy value) then Some EmptyString
  else
    let iv := take 12 entropy in
    match Reactor.getSessionSecret env with
    | None => None
    | Some secret =>
        let encrypted :=
          aesGcmEncrypt
            (Sha256.digest (Sha256.bytesOfString (secret ++ ":site-tele-notify:v1")))
            iv value in
        Some ("v1$" ++ Sha256.bytesToHex iv ++ "$" ++ Sha256.bytesToHex encrypted)
    end.

(** [now] is [new Date().toISOString()]; [None] is a throw, which comes
    before the row is written. *)
Definition upsertSiteNotifySettings (entropy : list Z) (now : string) (env : Env)
    (siteId : Z) (payload : SettingsPayload) : M (option Notify.Settings) :=
  ensureNotificationTables ;;;
  issue (SelectTelegramSettings siteId) ;;;
  existing <- get (fun w => site_telegram_settings w !! siteId) ;;
  let enabled := normalizeNotifyBool (payloadEnabled payload) false in
  let notifyComments := normalizeNotifyBool (payloadNotifyComments payload) true in
  let notifyReactions := normalizeNotifyBool (payloadNotifyReactions payload) true in
  let chatId := Notify.sanitizeTelegramChatId (payloadTelegramChatId payload) in
  let rawToken := Notify.sanitizeTelegramBotToken (payloadTelegramBotToken payload) in
  let stored := from_option telegram_bot_token_enc EmptyString existing in
  let tokenEnc :=
    if Js.truthy rawToken then encryptSensitiveValue entropy rawToken env
    else if payloadClearBotToken payload then Some EmptyString
    else Some stored in
  match tokenEnc with
  | None => ret None
  | Some tokenEnc =>
      modify (fun w =>
        set_site_telegram_settings
          (<[siteId := {| enabled := if enabled then 1 else 0;
                          notify_comments := if notifyComments then 1 else 0;
                          notify_reactions := if notifyReactions then 1 else 0;
                          telegram_chat_id := chatId;
                          telegram_bot_token_enc := tokenEnc;
                          settings_updated_at := now |}]>
             (site_telegram_settings w)) w) ;;;
      settings <- Notify.getSiteNotifySettings aesGcmDecrypt env siteId false ;;
      ret (Some settings)
  end.

End Crypto.

End Secrets.

(** ** Sessions *)

Module Session.

Definition SESSION_COOKIE : string := "stublogs_session".
Definition SESSION_TTL_SECONDS : Z := 60 * 60 * 24 * 7.

(** [s.charCodeAt(i) || 0] *)
Definition charCodeAt (s : string) (i : nat) : Z :=
  match String.get i s with
  | Some c => Z.of_nat (nat_of_ascii c)
  | None => 0
  end.

Definition timingSafeEqual (a b : string) : bool :=
  let length := Nat.max (String.length a) (String.length b) in
  let mismatch :=
    foldl (fun mismatch i => Z.lor mismatch (Z.lxor (charCodeAt a i) (charCodeAt b i)))
          (Z.lxor (Z.of_nat (String.length a)) (Z.of_nat (String.length b)))
          (seq 0 length) in
  mismatch =? 0.

(** HMAC with SHA-256, as [crypto.subtle.sign] computes it. *)
Definition hmacSha256 (key message : list Z) : list Z :=
  let hashed := if (64 <? length key)%nat then Sha256.digest key else key in
  let block := (hashed ++ repeat 0 (64 - length hashed))%list in
  Sha256.digest
    (map (Z.lxor 0x5c) block ++ Sha256.digest (map (Z.lxor 0x36) block ++ message))%list.

Definition hmacHex (value secret : string) : string :=
  Sha256.bytesToHex (hmacSha256 (Sha256.bytesOfString secret) (Sha256.bytesOfString value)).

Record Payload := {
  slug : string;
  exp : Z
}.

Section Codec.

(** [toBase64Url(JSON.stringify({ slug, exp }))] *)
Variable encodePayload : string -> Z -> string.

(** [JSON.parse(fromBase64Url(payloadEncoded))] with the check of the shape
    that follows it: [None] when the text does not parse, or parses to
    something without a string [slug] and a number [exp]. *)
Variable decodePayload : string -> option Payload.

(** [nowMs] is [Date.now()]; [None] is the thrown [Missing SESSION_SECRET]. *)
Definition createSessionToken (nowMs : Z) (slug : string) (env : Env) : option string :=
  let payloadEncoded := encodePayload slug (nowMs + SESSION_TTL_SECONDS * 1000) in
  match Reactor.getSessionSecret env with
  | None => None
  | Some secret => Some (payloadEncoded ++ "." ++ hmacHex payloadEncoded secret)
  end.

(** The outer [None] is the thrown [Missing SESSION_SECRET], the inner one
    [null]. *)
Definition verifySessionToken (nowMs : Z) (token : string) (env : Env)
  : option (option Payload) :=
  if negb (Js.includes "." token) then Some None
  else
    match Js.split "."%char token with
    | payloadEncoded :: signature :: _ =>
        if negb (Js.truthy payloadEncoded) || negb (Js.truthy signature) then Some None
        else
          match Reactor.getSessionSecret env with
          | None => None
          | Some secret =>
              let expected := hmacHex payloadEncoded secret in
              if negb (timingSafeEqual signature expected) then Some None
              else
                match decodePayload payloadEncoded with
                | None => Some None
                | Some payload =>
                    if exp payload <? nowMs then Some None else Some (Some payload)
                end
          end
    | _ => Some None
    end.

Definition isSiteAuthenticated (nowMs : Z) (request : Request) (env : Env)
    (siteSlug : string) : bool :=
  let cookies := Reactor.parseCookies (cookie request) in
  match cookies !! SESSION_COOKIE with
  | None => false
  | Some token =>
      if negb (Js.truthy token) then false
      else
        match verifySessionToken nowMs token env with
        | Some (Some session) => String.eqb (slug session) siteSlug
        | _ => false
        end
  end.

End Codec.

End Session.

(** ** The site of a host name *)

Module Hosts.

(** [s.endsWith(suffix)] *)
Definition endsWith (suffix s : string) : bool :=
  (String.length suffix <=? String.length s)%nat
  && String.eqb
       (String.substring (String.length s - String.length suffix)
          (String.length suffix) s)
       suffix.

(** [None] is [null]. *)
Definition getHostSlug (hostname baseDomain : string) : option string :=
  let host := Js.toLowerCase hostname in
  let base := Js.toLowerCase baseDomain in
  if String.eqb host base then None
  else if negb (endsWith ("." ++ base) host) then None
  else
    let prefix := Js.slice0 (String.length host - String.length base - 1) host in
    if negb (Js.truthy prefix) then None
    else
      match filter (fun label => Js.truthy label = true) (Js.split "."%char prefix) with
      | label :: _ => Some label
      | [] => None
      end.

End Hosts.

(** * Properties *)

(** ** Strings *)

Section StringFacts.

Lemma slice0_short n s : (String.length s <= n)%nat -> Js.slice0 n s = s.
Proof.
  revert n; induction s as [|c s IH]; intros [|n] Hlen; simpl in *;
    try reflexivity; try lia.
  f_equal; apply IH; lia.
Qed.

Lemma slice0_length n s : (String.length (Js.slice0 n s) <= n)%nat.
Proof.
  revert s; induction n as [|n IH]; intros [|c s]; simpl; try lia.
  specialize (IH s); lia.
Qed.

Lemma slice0_idem n s : Js.slice0 n (Js.slice0 n s) = Js.slice0 n s.
Proof. apply slice0_short, slice0_length. Qed.

Lemma slice0_truthy n s :
  Js.truthy s = true -> Js.truthy (Js.slice0 (S n) s) = true.
Proof. destruct s; simpl; congruence. Qed.

(** Strings without white space are fixed by [trim]. *)
Lemma trimStart_solid s :
  Js.forallb (fun c => negb (Js.isSpace c)) s = true -> Js.trimStart s = s.
Proof.
  destruct s as [|c s]; simpl; [reflexivity|].
  intros [Hc _]%andb_prop. apply negb_true_iff in Hc. now rewrite Hc.
Qed.

Lemma trimEnd_solid s :
  Js.forallb (fun c => negb (Js.isSpace c)) s = true -> Js.trimEnd s = s.
Proof.
  induction s as [|c s IH]; simpl; [reflexivity|].
  intros [Hc Hs]%andb_prop. apply negb_true_iff in Hc.
  rewrite (IH Hs), Hc. now destruct s.
Qed.

Lemma trim_solid s :
  Js.forallb (fun c => negb (Js.isSpace c)) s = true -> Js.trim s = s.
Proof.
  intros H. unfold Js.trim. rewrite (trimStart_solid _ H). now apply trimEnd_solid.
Qed.

Lemma forallb_impl (p q : ascii -> bool) s :
  (forall c, p c = true -> q c = true) ->
  Js.forallb p s = true -> Js.forallb q s = true.
Proof.
  intros Hpq. induction s as [|c s IH]; simpl; [reflexivity|].
  intros [Hc Hs]%andb_prop. rewrite (Hpq _ Hc), (IH Hs). reflexivity.
Qed.

Lemma toLowerCase_fixed s :
  Js.forallb (fun c => Ascii.eqb (Js.lowerChar c) c) s = true ->
  Js.toLowerCase s = s.
Proof.
  induction s as [|c s IH]; simpl; [reflexivity|].
  intros [Hc Hs]%andb_prop. apply Ascii.eqb_eq in Hc. now rewrite Hc, (IH Hs).
Qed.

Lemma lowerHex_not_space c : Js.isLowerHex c = true -> negb (Js.isSpace c) = true.
Proof.
  destruct c as [[] [] [] [] [] [] [] []]; vm_compute; congruence.
Qed.

Lemma lowerHex_lower c :
  Js.isLowerHex c = true -> Ascii.eqb (Js.lowerChar c) c = true.
Proof.
  destruct c as [[] [] [] [] [] [] [] []]; vm_compute; congruence.
Qed.

Lemma isSpace_lowerChar c : Js.isSpace (Js.lowerChar c) = Js.isSpace c.
Proof. destruct c as [[] [] [] [] [] [] [] []]; reflexivity. Qed.

Lemma trimStart_toLowerCase s :
  Js.trimStart (Js.toLowerCase s) = Js.toLowerCase (Js.trimStart s).
Proof.
  induction s as [|c s IH]; simpl; [reflexivity|].
  rewrite isSpace_lowerChar. destruct (Js.isSpace c); [exact IH | reflexivity].
Qed.

Lemma trimEnd_toLowerCase s :
  Js.trimEnd (Js.toLowerCase s) = Js.toLowerCase (Js.trimEnd s).
Proof.
  induction s as [|c s IH]; simpl; [reflexivity|].
  rewrite IH, isSpace_lowerChar.
  destruct (Js.trimEnd s); simpl; [destruct (Js.isSpace c)|]; reflexivity.
Qed.

Lemma trim_toLowerCase s : Js.trim (Js.toLowerCase s) = Js.toLowerCase (Js.trim s).
Proof. unfold Js.trim. now rewrite trimStart_toLowerCase, trimEnd_toLowerCase. Qed.

Lemma trimEnd_idem s : Js.trimEnd (Js.trimEnd s) = Js.trimEnd s.
Proof.
  induction s as [|c s IH]; simpl; [reflexivity|].
  destruct (Js.trimEnd s) as [|d t] eqn:E.
  - destruct (Js.isSpace c) eqn:Ec; simpl; [reflexivity | now rewrite Ec].
  - simpl in *. now rewrite IH.
Qed.

(** What [trimStart] returns does not begin with white space. *)
Lemma trimStart_head s c t : Js.trimStart s = String c t -> Js.isSpace c = false.
Proof.
  induction s as [|d s IH]; simpl; [discriminate|].
  destruct (Js.isSpace d) eqn:Ed; [exact IH | congruence].
Qed.

Lemma trimEnd_head c t :
  Js.isSpace c = false -> exists t', Js.trimEnd (String c t) = String c t'.
Proof.
  intros Hc. simpl. rewrite Hc. destruct (Js.trimEnd t); eauto.
Qed.

Lemma trim_idem s : Js.trim (Js.trim s) = Js.trim s.
Proof.
  unfold Js.trim. destruct (Js.trimStart s) as [|c t] eqn:E; [reflexivity|].
  pose proof (trimStart_head _ _ _ E) as Hc.
  destruct (trimEnd_head c t Hc) as [t' Ht']. rewrite Ht'.
  cbn [Js.trimStart]. rewrite Hc, <- Ht'. apply trimEnd_idem.
Qed.

Lemma toLowerCase_idem s : Js.toLowerCase (Js.toLowerCase s) = Js.toLowerCase s.
Proof.
  induction s as [|c s IH]; simpl; [reflexivity|]. rewrite IH. f_equal.
  destruct c as [[] [] [] [] [] [] [] []]; reflexivity.
Qed.

(** [String(x).trim().toLowerCase()] is a normal form. *)
Lemma normal_idem s :
  Js.toLowerCase (Js.trim (Js.toLowerCase (Js.trim s))) = Js.toLowerCase (Js.trim s).
Proof. now rewrite trim_toLowerCase, trim_idem, toLowerCase_idem. Qed.

End StringFacts.

(** ** Rate limiter *)

Section RateLimiterFacts.

Import RateLimiter.

Lemma lookup_sweepStale nowMs table k :
  sweepStale nowMs table !! k =
  match table !! k with
  | Some row => if stale nowMs row then None else Some row
  | None => None
  end.
Proof.
  unfold sweepStale. destruct (table !! k) as [row|] eqn:E.
  - destruct (stale nowMs row) eqn:Es.
    + apply map_lookup_filter_None. right. intros row' E'. simpl.
      rewrite E in E'. injection E' as <-. congruence.
    + apply map_lookup_filter_Some. auto.
  - apply map_lookup_filter_None. left. exact E.
Qed.

(** What one call of [consumeRateLimit] returns and writes, by cases on the
    row its [SELECT] finds. *)
Lemma consumeRateLimit_cases sweep nowMs rateKey windowMs maxAttempts w :
  let k := Js.slice0 180 rateKey in
  let table := afterGc sweep nowMs (rate_limits w) in
  let safeWindowMs := Z.max (Js.numberOr windowMs 60000) 1000 in
  let safeMaxAttempts := Z.max (Js.numberOr maxAttempts 1) 1 in
  let fresh :=
    {| allowed := true; attempts := 1;
       remaining := Z.max (safeMaxAttempts - 1) 0; retryAfterMs := 0 |} in
  let opened :=
    {| window_start_ms := nowMs; rate_attempts := 1; rate_updated_at := nowMs |} in
  let r := fst (consumeRateLimit sweep nowMs rateKey windowMs maxAttempts w) in
  let table' :=
    rate_limits (snd (consumeRateLimit sweep nowMs rateKey windowMs maxAttempts w)) in
  match table !! k with
  | None => r = fresh /\ table' = <[k := opened]> table
  | Some row =>
      if nowMs - window_start_ms row <? safeWindowMs then
        if safeMaxAttempts <=? rate_attempts row then
          r = {| allowed := false; attempts := rate_attempts row; remaining := 0;
                 retryAfterMs :=
                   Z.max (safeWindowMs - (nowMs - window_start_ms row)) 1000 |}
          /\ table' = table
        else
          r = {| allowed := true; attempts := rate_attempts row + 1;
                 remaining := Z.max (safeMaxAttempts - (rate_attempts row + 1)) 0;
                 retryAfterMs := 0 |}
          /\ table' =
             <[k := {| window_start_ms := window_start_ms row;
                       rate_attempts := rate_attempts row + 1;
                       rate_updated_at := nowMs |}]> table
      else r = fresh /\ table' = <[k := opened]> table
  end.
Proof.
  cbv zeta.
  unfold consumeRateLimit, ensureRateLimitsTable, ensureSchema,
    maybeScheduleRateLimitGc, afterGc, bind, issue, modify, get, ret.
  destruct (rateLimitsTableReady (memo w)), sweep;
    cbn [fst snd rate_limits set_rate_limits set_statements set_memo];
    (destruct (_ !! Js.slice0 180 rateKey) as [row|] eqn:E; cbn [from_option];
     [ destruct (nowMs - window_start_ms row <? _); cbn [negb];
       [ destruct (_ <=? rate_attempts row);
         cbn [fst snd rate_limits set_rate_limits set_statements set_memo];
         [ auto | split; [reflexivity|] ]
       | cbn [fst snd rate_limits set_rate_limits set_statements set_memo]; auto ]
     | cbn [negb fst snd rate_limits set_rate_limits set_statements set_memo]; auto ]).
  all: apply map_eq; intros k'; rewrite lookup_alter, lookup_insert;
    destruct (decide (Js.slice0 180 rateKey = k')) as [<-|]; [now rewrite E | reflexivity].
Qed.

Lemma lookup_afterGc_kept sweep nowMs table k row :
  table !! k = Some row -> nowMs - DAY_MS <= rate_updated_at row ->
  afterGc sweep nowMs table !! k = Some row.
Proof.
  intros E Hfresh. unfold afterGc. destruct sweep; [|exact E].
  rewrite lookup_sweepStale, E. unfold stale.
  destruct (Z.ltb_spec (rate_updated_at row) (nowMs - DAY_MS)); [lia | reflexivity].
Qed.

Lemma lookup_afterGc_None sweep nowMs table k :
  table !! k = None -> afterGc sweep nowMs table !! k = None.
Proof.
  intros E. unfold afterGc. destruct sweep; [|exact E].
  now rewrite lookup_sweepStale, E.
Qed.

Lemma lookup_afterGc_Some sweep nowMs table k row :
  afterGc sweep nowMs table !! k = Some row -> table !! k = Some row.
Proof.
  unfold afterGc. destruct sweep; [|auto].
  rewrite lookup_sweepStale. destruct (table !! k) as [row'|]; [|discriminate].
  destruct (stale nowMs row'); [discriminate | auto].
Qed.

(** The rate limiter leaves the other tables alone. *)
Lemma reactions_consumeRateLimit sweep nowMs rateKey windowMs maxAttempts w :
  reactions (snd (consumeRateLimit sweep nowMs rateKey windowMs maxAttempts w))
  = reactions w.
Proof.
  unfold consumeRateLimit, ensureRateLimitsTable, ensureSchema,
    maybeScheduleRateLimitGc, bind, issue, modify, get, ret.
  destruct (rateLimitsTableReady (memo w)), sweep;
    cbn [fst snd rate_limits reactions set_rate_limits set_statements set_memo];
    destruct (_ !! Js.slice0 180 rateKey) as [row|]; cbn [from_option];
    try destruct (nowMs - window_start_ms row <? _); cbn [negb];
    try destruct (_ <=? rate_attempts row);
    reflexivity.
Qed.

Lemma page_views_consumeRateLimit sweep nowMs rateKey windowMs maxAttempts w :
  page_views (snd (consumeRateLimit sweep nowMs rateKey windowMs maxAttempts w))
  = page_views w.
Proof.
  unfold consumeRateLimit, ensureRateLimitsTable, ensureSchema,
    maybeScheduleRateLimitGc, bind, issue, modify, get, ret.
  destruct (rateLimitsTableReady (memo w)), sweep;
    cbn [fst snd rate_limits page_views set_rate_limits set_statements set_memo];
    destruct (_ !! Js.slice0 180 rateKey) as [row|]; cbn [from_option];
    try destruct (nowMs - window_start_ms row <? _); cbn [negb];
    try destruct (_ <=? rate_attempts row);
    reflexivity.
Qed.

End RateLimiterFacts.

Section RateLimiterWindow.

Import RateLimiter.

(** C1.  A key without a stored row, [maxAttempts = 3], [windowMs = 1000]:
    of four serial calls that all fall within the window opened by the
    first, the first three are allowed and the fourth is refused with
    [retryAfterMs = max(windowMs - (now - windowStartMs), 1000) > 0]; a call
    made once [windowMs] has elapsed since the window start opens a new
    window and is allowed with [attempts = 1].  The refused call leaves the
    stored window as the third call wrote it, started at the first call
    with 3 attempts; the late call resets it: the row of the key then starts
    at the time of that call and counts 1 attempt.  This holds whatever the
    random sweeps do. *)
Theorem consumeRateLimit_window_correct
    (w0 : World) (rateKey : string) (s1 s2 s3 s4 s5 : bool) (t1 t2 t3 t4 t5 : Z) :
  rate_limits w0 !! Js.slice0 180 rateKey = None ->
  t1 <= t2 -> t2 <= t3 -> t3 <= t4 -> t4 - t1 < 1000 -> 1000 <= t5 - t1 ->
  let c1 := consumeRateLimit s1 t1 rateKey 1000 3 w0 in
  let c2 := consumeRateLimit s2 t2 rateKey 1000 3 (snd c1) in
  let c3 := consumeRateLimit s3 t3 rateKey 1000 3 (snd c2) in
  let c4 := consumeRateLimit s4 t4 rateKey 1000 3 (snd c3) in
  let c5 := consumeRateLimit s5 t5 rateKey 1000 3 (snd c4) in
  allowed (fst c1) = true /\ allowed (fst c2) = true /\ allowed (fst c3) = true
  /\ allowed (fst c4) = false
  /\ retryAfterMs (fst c4) = Z.max (1000 - (t4 - t1)) 1000
  /\ 0 < retryAfterMs (fst c4)
  /\ allowed (fst c5) = true /\ attempts (fst c5) = 1
  /\ attempts (fst c1) = 1 /\ attempts (fst c2) = 2 /\ attempts (fst c3) = 3
  /\ rate_limits (snd c4) !! Js.slice0 180 rateKey
     = Some {| window_start_ms := t1; rate_attempts := 3; rate_updated_at := t3 |}
  /\ rate_limits (snd c5) !! Js.slice0 180 rateKey
     = Some {| window_start_ms := t5; rate_attempts := 1; rate_updated_at := t5 |}.
Proof.
  intros Hnone H12 H23 H34 Hin Hout c1 c2 c3 c4 c5.
  assert (Hday : DAY_MS = 86400000) by reflexivity.
  (* first call: no row, a window opens at t1 *)
  pose proof (consumeRateLimit_cases s1 t1 rateKey 1000 3 w0) as S1.
  cbv zeta in S1. rewrite (lookup_afterGc_None _ _ _ _ Hnone) in S1.
  fold c1 in S1. destruct S1 as [R1 T1].
  assert (L1 : rate_limits (snd c1) !! Js.slice0 180 rateKey =
               Some {| window_start_ms := t1; rate_attempts := 1;
                       rate_updated_at := t1 |})
    by (rewrite T1; apply lookup_insert_eq).
  (* second call *)
  pose proof (consumeRateLimit_cases s2 t2 rateKey 1000 3 (snd c1)) as S2.
  cbv zeta in S2.
  rewrite (lookup_afterGc_kept s2 t2 _ _ _ L1) in S2 by (simpl; lia).
  change (Z.max (Js.numberOr 1000 60000) 1000) with 1000 in S2.
  change (Z.max (Js.numberOr 3 1) 1) with 3 in S2.
  cbn [window_start_ms rate_attempts] in S2.
  destruct (Z.ltb_spec (t2 - t1) 1000) as [_|]; [|lia].
  change (3 <=? 1) with false in S2. fold c2 in S2. destruct S2 as [R2 T2].
  assert (L2 : rate_limits (snd c2) !! Js.slice0 180 rateKey =
               Some {| window_start_ms := t1; rate_attempts := 2;
                       rate_updated_at := t2 |})
    by (rewrite T2; apply lookup_insert_eq).
  (* third call *)
  pose proof (consumeRateLimit_cases s3 t3 rateKey 1000 3 (snd c2)) as S3.
  cbv zeta in S3.
  rewrite (lookup_afterGc_kept s3 t3 _ _ _ L2) in S3 by (simpl; lia).
  change (Z.max (Js.numberOr 1000 60000) 1000) with 1000 in S3.
  change (Z.max (Js.numberOr 3 1) 1) with 3 in S3.
  cbn [window_start_ms rate_attempts] in S3.
  destruct (Z.ltb_spec (t3 - t1) 1000) as [_|]; [|lia].
  change (3 <=? 2) with false in S3. fold c3 in S3. destruct S3 as [R3 T3].
  assert (L3 : rate_limits (snd c3) !! Js.slice0 180 rateKey =
               Some {| window_start_ms := t1; rate_attempts := 3;
                       rate_updated_at := t3 |})
    by (rewrite T3; apply lookup_insert_eq).
  (* fourth call: refused, nothing written *)
  pose proof (consumeRateLimit_cases s4 t4 rateKey 1000 3 (snd c3)) as S4.
  cbv zeta in S4.
  pose proof (lookup_afterGc_kept s4 t4 _ _ _ L3) as L3'.
  rewrite L3' in S4 by (simpl; lia).
  change (Z.max (Js.numberOr 1000 60000) 1000) with 1000 in S4.
  change (Z.max (Js.numberOr 3 1) 1) with 3 in S4.
  cbn [window_start_ms rate_attempts] in S4.
  destruct (Z.ltb_spec (t4 - t1) 1000) as [_|]; [|lia].
  change (3 <=? 3) with true in S4. fold c4 in S4. destruct S4 as [R4 T4].
  (* fifth call: the window has run out *)
  pose proof (consumeRateLimit_cases s5 t5 rateKey 1000 3 (snd c4)) as S5.
  cbv zeta in S5. fold c5 in S5.
  change (Z.max (Js.numberOr 1000 60000) 1000) with 1000 in S5.
  assert (L4 : rate_limits (snd c4) !! Js.slice0 180 rateKey =
               Some {| window_start_ms := t1; rate_attempts := 3;
                       rate_updated_at := t3 |})
    by (rewrite T4; apply L3'; simpl; lia).
  assert (R5 : allowed (fst c5) = true /\ attempts (fst c5) = 1
               /\ rate_limits (snd c5) !! Js.slice0 180 rateKey =
                  Some {| window_start_ms := t5; rate_attempts := 1;
                          rate_updated_at := t5 |}).
  { destruct (afterGc s5 t5 (rate_limits (snd c4)) !! Js.slice0 180 rateKey)
      as [row|] eqn:E5.
    - apply lookup_afterGc_Some in E5. rewrite L4 in E5.
      injection E5 as <-. cbn [window_start_ms] in S5.
      destruct (Z.ltb_spec (t5 - t1) 1000) as [|_]; [lia|].
      destruct S5 as [-> ->]. rewrite lookup_insert_eq. repeat split; reflexivity.
    - destruct S5 as [-> ->]. rewrite lookup_insert_eq. repeat split; reflexivity. }
  rewrite R1, R2, R3, R4. cbn [allowed attempts retryAfterMs].
  destruct R5 as (R5a & R5b & R5c).
  repeat split; try reflexivity; try assumption. lia.
Qed.

Lemma consumeRateLimit_window_witness :
  let c1 := consumeRateLimit false 5000 "login:1.2.3.4" 1000 3 emptyWorld in
  let c2 := consumeRateLimit true 5100 "login:1.2.3.4" 1000 3 (snd c1) in
  let c3 := consumeRateLimit false 5200 "login:1.2.3.4" 1000 3 (snd c2) in
  let c4 := consumeRateLimit false 5999 "login:1.2.3.4" 1000 3 (snd c3) in
  let c5 := consumeRateLimit true 6000 "login:1.2.3.4" 1000 3 (snd c4) in
  allowed (fst c1) = true /\ allowed (fst c2) = true /\ allowed (fst c3) = true
  /\ allowed (fst c4) = false
  /\ retryAfterMs (fst c4) = Z.max (1000 - (5999 - 5000)) 1000
  /\ 0 < retryAfterMs (fst c4)
  /\ allowed (fst c5) = true /\ attempts (fst c5) = 1
  /\ attempts (fst c1) = 1 /\ attempts (fst c2) = 2 /\ attempts (fst c3) = 3
  /\ rate_limits (snd c4) !! Js.slice0 180 "login:1.2.3.4"
     = Some {| window_start_ms := 5000; rate_attempts := 3; rate_updated_at := 5200 |}
  /\ rate_limits (snd c5) !! Js.slice0 180 "login:1.2.3.4"
     = Some {| window_start_ms := 6000; rate_attempts := 1; rate_updated_at := 6000 |}.
Proof.
  apply (consumeRateLimit_window_correct emptyWorld "login:1.2.3.4"
           false true false false true 5000 5100 5200 5999 6000);
    [reflexivity | lia | lia | lia | lia | lia].
Defined.

End RateLimiterWindow.


Section RateLimiterInvariant.

Import RateLimiter.

(** Every stored row counts at least one attempt. *)
Lemma attempts_positive_init w :
  rate_limits w = ∅ ->
  forall k row, rate_limits w !! k = Some row -> 1 <= rate_attempts row.
Proof. intros -> k row. rewrite lookup_empty. discriminate. Qed.

Lemma rate_limits_clearRateLimit rateKey w :
  rate_limits (snd (clearRateLimit rateKey w)) =
  if Js.truthy rateKey then delete (Js.slice0 180 rateKey) (rate_limits w)
  else rate_limits w.
Proof.
  unfold clearRateLimit, ensureRateLimitsTable, ensureSchema, bind, issue, modify, ret.
  destruct (Js.truthy rateKey); [|reflexivity].
  cbn [negb]. destruct (rateLimitsTableReady (memo w)); reflexivity.
Qed.

Lemma attempts_positive_step op w :
  (forall k row, rate_limits w !! k = Some row -> 1 <= rate_attempts row) ->
  forall k row, rate_limits (run op w) !! k = Some row -> 1 <= rate_attempts row.
Proof.
  intros Inv k row. destruct op as [sweep nowMs rateKey windowMs maxAttempts|rateKey];
    cbn [run].
  - pose proof (consumeRateLimit_cases sweep nowMs rateKey windowMs maxAttempts w) as C.
    cbv zeta in C.
    assert (Inv' : forall k row,
               afterGc sweep nowMs (rate_limits w) !! k = Some row ->
               1 <= rate_attempts row)
      by (intros k0 row0 E0; eapply Inv, lookup_afterGc_Some, E0).
    destruct (afterGc sweep nowMs (rate_limits w) !! Js.slice0 180 rateKey)
      as [old|] eqn:E.
    + destruct (nowMs - window_start_ms old <? _);
        [destruct (_ <=? rate_attempts old)|]; destruct C as [_ ->].
      * apply Inv'.
      * rewrite lookup_insert. case_decide as Hk.
        -- intros [= <-]. cbn. specialize (Inv' _ _ E). lia.
        -- apply Inv'.
      * rewrite lookup_insert. case_decide as Hk.
        -- intros [= <-]. cbn. lia.
        -- apply Inv'.
    + destruct C as [_ ->]. rewrite lookup_insert. case_decide as Hk.
      * intros [= <-]. cbn. lia.
      * apply Inv'.
  - rewrite rate_limits_clearRateLimit. destruct (Js.truthy rateKey); [|apply Inv].
    intros [_ E]%lookup_delete_Some. eapply Inv, E.
Qed.

(** C8.  In every state reached from an empty table by [consumeRateLimit] and
    [clearRateLimit] calls (sweeps included), a row whose window is open
    stores [attempts >= 1]; and the row a [consumeRateLimit] call leaves at
    its key is a freshly opened window with [attempts = 1], or the row it
    found with [attempts] raised by one to a positive value, or the row it
    found, untouched. *)
Theorem open_window_attempts_positive (w : World) :
  reachable w ->
  (forall k row nowMs windowMs,
     rate_limits w !! k = Some row ->
     nowMs - window_start_ms row < windowMs ->
     1 <= rate_attempts row)
  /\ (forall sweep nowMs rateKey windowMs maxAttempts row',
        rate_limits (run (Consume sweep nowMs rateKey windowMs maxAttempts) w)
          !! Js.slice0 180 rateKey = Some row' ->
        (rate_attempts row' = 1 /\ window_start_ms row' = nowMs)
        \/ exists row,
             rate_limits w !! Js.slice0 180 rateKey = Some row
             /\ (row' = row
                 \/ (rate_attempts row' = rate_attempts row + 1
                     /\ window_start_ms row' = window_start_ms row
                     /\ rate_attempts row < rate_attempts row'
                     /\ 0 < rate_attempts row'))).
Proof.
  intros Hreach.
  assert (Inv : forall k row, rate_limits w !! k = Some row -> 1 <= rate_attempts row).
  { induction Hreach as [w Hempty | w op _ IH].
    - now apply attempts_positive_init.
    - now apply attempts_positive_step. }
  split; [intros k row _ _ E _; eapply Inv, E|].
  intros sweep nowMs rateKey windowMs maxAttempts row'. cbn [run].
  pose proof (consumeRateLimit_cases sweep nowMs rateKey windowMs maxAttempts w) as C.
  cbv zeta in C.
  destruct (afterGc sweep nowMs (rate_limits w) !! Js.slice0 180 rateKey)
    as [old|] eqn:E.
  - pose proof (lookup_afterGc_Some _ _ _ _ _ E) as E0.
    destruct (nowMs - window_start_ms old <? _);
      [destruct (_ <=? rate_attempts old)|]; destruct C as [_ ->].
    + rewrite E. intros [= <-]. right. exists old. auto.
    + rewrite lookup_insert_eq. intros [= <-]. right. exists old.
      split; [exact E0|]. right. cbn. specialize (Inv _ _ E0). lia.
    + rewrite lookup_insert_eq. intros [= <-]. left. split; reflexivity.
  - destruct C as [_ ->]. rewrite lookup_insert_eq. intros [= <-]. left.
    split; reflexivity.
Qed.

Lemma open_window_attempts_positive_witness :
  let w := run (Consume false 5100 "k" 1000 3)
             (run (Consume false 5000 "k" 1000 3) emptyWorld) in
  rate_limits w !! "k" =
    Some {| window_start_ms := 5000; rate_attempts := 2; rate_updated_at := 5100 |}
  /\ 1 <= 2.
Proof.
  split; [vm_compute; reflexivity|].
  refine (proj1 (open_window_attempts_positive
                   (run (Consume false 5100 "k" 1000 3)
                      (run (Consume false 5000 "k" 1000 3) emptyWorld)) _)
                "k" {| window_start_ms := 5000; rate_attempts := 2;
                       rate_updated_at := 5100 |} 5200 1000 _ _).
  - apply reachable_step, reachable_step, reachable_init. reflexivity.
  - vm_compute; reflexivity.
  - simpl. lia.
Defined.

End RateLimiterInvariant.

Section RateLimiterKeys.

Import RateLimiter.

Lemma truthy_slice0 n s : Js.truthy (Js.slice0 (S n) s) = Js.truthy s.
Proof. destruct s; reflexivity. Qed.

Lemma distinct_same_prefix_truthy n k1 k2 :
  k1 <> k2 -> Js.slice0 (S n) k1 = Js.slice0 (S n) k2 -> Js.truthy k1 = true.
Proof.
  intros Hne Hpre. destruct k1 as [|c k1]; [|reflexivity].
  destruct k2 as [|d k2]; [congruence | discriminate].
Qed.

Lemma consumeRateLimit_slice sweep nowMs rateKey windowMs maxAttempts w :
  consumeRateLimit sweep nowMs rateKey windowMs maxAttempts w =
  consumeRateLimit sweep nowMs (Js.slice0 180 rateKey) windowMs maxAttempts w.
Proof. unfold consumeRateLimit. now rewrite slice0_idem. Qed.

Lemma clearRateLimit_slice rateKey w :
  clearRateLimit rateKey w = clearRateLimit (Js.slice0 180 rateKey) w.
Proof. unfold clearRateLimit. now rewrite truthy_slice0, slice0_idem. Qed.

(** C10.  [consumeRateLimit] and [clearRateLimit] act on the key cut to its
    first 180 characters: a call with [rateKey] is the call with the cut key.
    Two distinct keys with the same first 180 characters therefore run the
    same [consumeRateLimit] on every state (one row, one counter; rows at
    other keys are as the sweep left them), and [clearRateLimit] on either
    deletes the row they share. *)
Theorem rateKey_first_180_chars :
  (forall sweep nowMs rateKey windowMs maxAttempts w,
     consumeRateLimit sweep nowMs rateKey windowMs maxAttempts w =
     consumeRateLimit sweep nowMs (Js.slice0 180 rateKey) windowMs maxAttempts w)
  /\ (forall rateKey w,
        clearRateLimit rateKey w = clearRateLimit (Js.slice0 180 rateKey) w)
  /\ (forall k1 k2 : string,
        k1 <> k2 -> Js.slice0 180 k1 = Js.slice0 180 k2 ->
        (forall sweep nowMs windowMs maxAttempts w,
           consumeRateLimit sweep nowMs k1 windowMs maxAttempts w =
           consumeRateLimit sweep nowMs k2 windowMs maxAttempts w
           /\ forall k', k' <> Js.slice0 180 k1 ->
                rate_limits (snd (consumeRateLimit sweep nowMs k1 windowMs maxAttempts w))
                  !! k' = afterGc sweep nowMs (rate_limits w) !! k')
        /\ (forall w,
              clearRateLimit k1 w = clearRateLimit k2 w
              /\ rate_limits (snd (clearRateLimit k1 w)) =
                 delete (Js.slice0 180 k1) (rate_limits w)
              /\ rate_limits (snd (clearRateLimit k2 w)) !! Js.slice0 180 k1 = None)).
Proof.
  split; [exact consumeRateLimit_slice|]. split; [exact clearRateLimit_slice|].
  intros k1 k2 Hne Hpre. split.
  - intros sweep nowMs windowMs maxAttempts w. split.
    + now rewrite consumeRateLimit_slice, Hpre, <- consumeRateLimit_slice.
    + intros k' Hk'.
      pose proof (consumeRateLimit_cases sweep nowMs k1 windowMs maxAttempts w) as C.
      cbv zeta in C.
      destruct (afterGc sweep nowMs (rate_limits w) !! Js.slice0 180 k1) as [old|];
        [destruct (nowMs - window_start_ms old <? _);
           [destruct (_ <=? rate_attempts old)|]|];
        destruct C as [_ ->]; try reflexivity; now apply lookup_insert_ne.
  - intros w. split; [|split].
    + now rewrite clearRateLimit_slice, Hpre, <- clearRateLimit_slice.
    + rewrite rate_limits_clearRateLimit.
      now rewrite (distinct_same_prefix_truthy 179 k1 k2 Hne Hpre).
    + rewrite rate_limits_clearRateLimit.
      rewrite (distinct_same_prefix_truthy 179 k2 k1) by congruence.
      rewrite Hpre. apply lookup_delete_eq.
Qed.

Lemma rateKey_first_180_chars_witness :
  let prefix := string_of_list_ascii (repeat "a"%char 180) in
  let k1 := prefix ++ "x" in
  let k2 := prefix ++ "y" in
  let w1 := snd (consumeRateLimit false 5000 k1 1000 3 emptyWorld) in
  k1 <> k2 /\ Js.slice0 180 k1 = Js.slice0 180 k2
  /\ consumeRateLimit false 5100 k1 1000 3 w1 = consumeRateLimit false 5100 k2 1000 3 w1
  /\ attempts (fst (consumeRateLimit false 5100 k2 1000 3 w1)) = 2
  /\ rate_limits w1 !! prefix =
     Some {| window_start_ms := 5000; rate_attempts := 1; rate_updated_at := 5000 |}
  /\ rate_limits (snd (clearRateLimit k2 w1)) !! Js.slice0 180 k1 = None.
Proof.
  intros prefix k1 k2 w1.
  assert (Hne : k1 <> k2) by (vm_compute; discriminate).
  assert (Hpre : Js.slice0 180 k1 = Js.slice0 180 k2) by (vm_compute; reflexivity).
  destruct rateKey_first_180_chars as [_ [_ Shared]].
  destruct (Shared k1 k2 Hne Hpre) as [Hconsume Hclear].
  split; [exact Hne|]. split; [exact Hpre|].
  split; [apply Hconsume|].
  split; [vm_compute; reflexivity|].
  split; [vm_compute; reflexivity|].
  apply Hclear.
Defined.

End RateLimiterKeys.

(** ** Reaction snapshot order *)

Section SnapshotOrder.

Import Reactions.

#[local] Instance inOrder_total : Total inOrder.
Proof.
  intros a b. unfold inOrder, compareRanked.
  destruct (Z.eqb_spec (rankedCount a) (rankedCount b)),
           (Z.eqb_spec (rankedCount b) (rankedCount a)); cbn [negb]; lia.
Qed.

#[local] Instance inOrder_trans : Transitive inOrder.
Proof.
  intros a b c. unfold inOrder, compareRanked.
  destruct (Z.eqb_spec (rankedCount a) (rankedCount b)),
           (Z.eqb_spec (rankedCount b) (rankedCount c)),
           (Z.eqb_spec (rankedCount a) (rankedCount c)); cbn [negb]; lia.
Qed.

(** The array handed to [sort]. *)
Lemma ranked_presets (countsByKey : gmap string Z) (selected : gset string) :
  let ranked :=
    imap (fun index preset =>
            {| preset := preset; orderIndex := Z.of_nat index;
               rankedCount := Z.max (default 0 (countsByKey !! key preset)) 0;
               rankedSelected := bool_decide (key preset ∈ selected) |})
         REACTION_PRESETS in
  map (fun item => key (preset item)) ranked = map key REACTION_PRESETS
  /\ NoDup (map orderIndex ranked)
  /\ Forall (fun item =>
               orderIndex item = Z.of_nat (declaredIndex (key (preset item)))
               /\ rankedCount item =
                  Z.max (default 0 (countsByKey !! key (preset item))) 0) ranked.
Proof.
  cbv zeta. split; [reflexivity|]. split.
  - cbn. repeat (apply NoDup_cons; split;
                 [rewrite ?elem_of_cons, elem_of_nil; lia|]).
    apply NoDup_nil_2.
  - cbn. repeat (apply Forall_cons; split; [split; reflexivity|]).
    apply Forall_nil_2.
Qed.

(** Sorted by the comparator, with pairwise distinct indices: sorted
    strictly. *)
Lemma sorted_strict (l : list Ranked) :
  StronglySorted inOrder l -> NoDup (map orderIndex l) ->
  StronglySorted
    (fun a b =>
       rankedCount b < rankedCount a
       \/ (rankedCount a = rankedCount b /\ orderIndex a < orderIndex b)) l.
Proof.
  induction 1 as [|a l Hsorted IH Hall]; intros Hnodup; constructor.
  - apply IH. now inversion Hnodup.
  - apply NoDup_cons in Hnodup as [Hnotin _].
    rewrite Forall_forall in Hall. rewrite Forall_forall. intros b Hb.
    assert (orderIndex a <> orderIndex b).
    { intros Heq. apply Hnotin. rewrite Heq. now apply list_elem_of_fmap_2. }
    specialize (Hall b Hb). unfold inOrder, compareRanked in Hall.
    destruct (Z.eqb_spec (rankedCount a) (rankedCount b)); cbn [negb] in Hall; lia.
Qed.

Lemma StronglySorted_map {A B} (R : relation A) (S : relation B) (f : A -> B)
    (P : A -> Prop) (l : list A) :
  (forall a b, P a -> P b -> R a b -> S (f a) (f b)) ->
  Forall P l -> StronglySorted R l -> StronglySorted S (map f l).
Proof.
  intros HRS HP Hsorted. revert HP.
  induction Hsorted as [|a l Hs IH Hall]; intros HP; cbn; constructor.
  - apply IH. now apply Forall_cons in HP as [_ HP].
  - apply Forall_cons in HP as [Pa Pl].
    rewrite Forall_forall in Hall. rewrite Forall_forall in Pl. rewrite Forall_forall.
    intros b' [b [-> Hb]]%list_elem_of_fmap. apply HRS; auto.
Qed.

(** C5.  For every assignment of counts the snapshot lists every preset once,
    each with its count (negative counts shown as 0), ordered by count
    descending and, among equal counts, by the position of the preset in
    [REACTION_PRESETS]; counts rocket 5, dragon 3, lion 1 give rocket, dragon,
    lion and then the other presets in declared order. *)
Theorem snapshot_items_order (countsByKey : gmap string Z) (selectedKeys : list string) :
  let shown := items (buildReactionSnapshot countsByKey selectedKeys) in
  map itemKey shown ≡ₚ map key REACTION_PRESETS
  /\ Forall (fun item =>
               count item = Z.max (default 0 (countsByKey !! itemKey item)) 0) shown
  /\ StronglySorted ranksBefore shown
  /\ map itemKey
       (items (buildReactionSnapshot
                 (<["rocket" := 5]> (<["dragon" := 3]> (<["lion" := 1]> ∅)))
                 selectedKeys))
     = ["rocket"; "dragon"; "lion"; "hummingbird"; "deer"; "eagle"; "wolf";
        "unicorn"; "phoenix"; "orca"; "fire"; "spark"; "mindblown"; "respect"].
Proof.
  cbv zeta. unfold buildReactionSnapshot. cbn [items].
  set (selected := list_to_set _ : gset string).
  destruct (ranked_presets countsByKey selected) as [Hkeys [Hnodup Hfields]].
  cbv zeta in Hkeys, Hnodup, Hfields.
  set (ranked := imap _ REACTION_PRESETS) in *.
  assert (Hperm : sort ranked ≡ₚ ranked) by apply merge_sort_Permutation.
  assert (Hfields' : Forall (fun item =>
             orderIndex item = Z.of_nat (declaredIndex (key (preset item)))
             /\ rankedCount item =
                Z.max (default 0 (countsByKey !! key (preset item))) 0) (sort ranked))
    by (now rewrite Hperm).
  split; [|split; [|split]].
  - rewrite map_map. cbn [itemKey]. rewrite <- Hkeys.
    apply Permutation_map, Hperm.
  - rewrite Forall_forall in Hfields'. rewrite Forall_forall.
    intros item' [item [-> Hin]]%list_elem_of_fmap. cbn. now apply Hfields'.
  - eapply StronglySorted_map; [|exact Hfields'|].
    2:{ apply sorted_strict.
        - apply StronglySorted_merge_sort; apply _.
        - now rewrite Hperm. }
    intros a b [Ha _] [Hb _] Hab. unfold ranksBefore. cbn [count itemKey]. lia.
  - subst ranked selected. vm_compute. reflexivity.
Qed.

End SnapshotOrder.

(** ** Comment paging *)

Section CommentPaging.

Import Comments CommentStore.

Lemma listPostComments_fields siteId postSlug page pageSize w :
  let safePageSize := Z.min (Z.max (Js.numberOr pageSize COMMENTS_PAGE_SIZE) 1) 80 in
  let matching := filter (fun row => onPost siteId postSlug row = true) (comments w) in
  let result := fst (listPostComments siteId postSlug page pageSize w) in
  total result = Z.of_nat (length matching)
  /\ Comments.pageSize result = safePageSize
  /\ totalPages result = Z.max 1 (Js.ceilDiv (total result) safePageSize)
  /\ Comments.page result = Z.min (Z.max (Js.numberOr page 1) 1) (totalPages result)
  /\ (length (pageComments result) <= Z.to_nat safePageSize)%nat.
Proof.
  cbv zeta.
  unfold listPostComments, ensureCommentsTable, ensureSchema, bind, issue, modify, get, ret.
  destruct (commentsTableReady (memo w));
    cbn [fst snd comments set_statements set_memo total Comments.pageSize totalPages
         Comments.page pageComments];
    (split; [lia|]); (split; [reflexivity|]); (split; [reflexivity|]);
    (split; [reflexivity|]); rewrite length_map, length_take; lia.
Qed.

(** The value of [listPostComments]. *)
Lemma listPostComments_value siteId postSlug page pageSize w :
  let safePageSize := Z.min (Z.max (Js.numberOr pageSize COMMENTS_PAGE_SIZE) 1) 80 in
  let matching := filter (fun row => onPost siteId postSlug row = true) (comments w) in
  let total := Z.of_nat (length matching) in
  let totalPages := Z.max 1 (Js.ceilDiv total safePageSize) in
  let boundedPage := Z.min (Z.max (Js.numberOr page 1) 1) totalPages in
  fst (listPostComments siteId postSlug page pageSize w)
  = {| pageComments :=
         map toComment
           (take (Z.to_nat safePageSize)
              (drop (Z.to_nat ((boundedPage - 1) * safePageSize))
                 (merge_sort newerFirst matching)));
       total := total; Comments.page := boundedPage; totalPages := totalPages;
       Comments.pageSize := safePageSize |}
  /\ comments (snd (listPostComments siteId postSlug page pageSize w)) = comments w.
Proof.
  cbv zeta.
  unfold listPostComments, ensureCommentsTable, ensureSchema, bind, issue, modify, get, ret.
  destruct (commentsTableReady (memo w));
    cbn [fst snd comments set_statements set_memo];
    rewrite !(Z.max_l (Z.of_nat _) 0) by lia; split; reflexivity.
Qed.

Lemma ceilDiv_covers (a b : Z) : 0 < b -> a <= Js.ceilDiv a b * b.
Proof.
  intros Hb. unfold Js.ceilDiv.
  pose proof (Z.mul_div_le (- a) b Hb). nia.
Qed.

Lemma ceilDiv_least (a b : Z) : 0 < b -> (Js.ceilDiv a b - 1) * b < a.
Proof.
  intros Hb. unfold Js.ceilDiv.
  pose proof (Z.mul_succ_div_gt (- a) b Hb). nia.
Qed.

(** C9.  [listPostComments] has a result on every input, there is no error
    path, and the page it returns is the requested one clamped into
    [[1, totalPages]]: [page = min(max(requested, 1), totalPages)], where
    [total] is the number of comments stored for the post and [totalPages]
    the number of pages of [pageSize] they fill, 1 when there are none.  An
    out-of-range request is answered as the request for the clamped page
    is.  With [page = 9999] and no more comments than fit on one page, the
    result is page 1 of 1 and holds all comments of the post, newest
    first. *)
Theorem listPostComments_page_clamped
    (siteId : Z) (postSlug : string) (page pageSize : Z) (w : World) :
  let stored := filter (fun row => onPost siteId postSlug row = true) (comments w) in
  let result := fst (listPostComments siteId postSlug page pageSize w) in
  let far := fst (listPostComments siteId postSlug 9999 pageSize w) in
  total result = Z.of_nat (length stored)
  /\ 1 <= Comments.pageSize result <= 80
  /\ 1 <= totalPages result
  /\ (totalPages result - 1) * Comments.pageSize result < Z.max (total result) 1
     <= totalPages result * Comments.pageSize result
  /\ Comments.page result = Z.min (Z.max page 1) (totalPages result)
  /\ 1 <= Comments.page result <= totalPages result
  /\ result = fst (listPostComments siteId postSlug (Comments.page result) pageSize w)
  /\ (total result = 0 -> totalPages result = 1)
  /\ (total far <= Comments.pageSize far ->
      totalPages far = 1 /\ Comments.page far = 1
      /\ pageComments far = map toComment (merge_sort newerFirst stored)).
Proof.
  cbv zeta.
  set (stored := filter (fun row => onPost siteId postSlug row = true) (comments w)).
  set (n := Z.min (Z.max (Js.numberOr pageSize COMMENTS_PAGE_SIZE) 1) 80).
  set (pages := Z.max 1 (Js.ceilDiv (Z.of_nat (length stored)) n)).
  assert (Hn : 1 <= n <= 80) by (subst n; lia).
  pose proof (ceilDiv_covers (Z.of_nat (length stored)) n ltac:(lia)) as Hcovers.
  pose proof (ceilDiv_least (Z.of_nat (length stored)) n ltac:(lia)) as Hleast.
  assert (Hclamp : forall p, Z.min (Z.max (Js.numberOr p 1) 1) pages
                             = Z.min (Z.max p 1) pages).
  { intros p. unfold Js.numberOr. destruct (Z.eqb_spec p 0); [subst; reflexivity | reflexivity]. }
  destruct (listPostComments_value siteId postSlug page pageSize w) as [Hresult _].
  cbv zeta in Hresult. fold stored n pages in Hresult. rewrite Hclamp in Hresult.
  destruct (listPostComments_value siteId postSlug (Z.min (Z.max page 1) pages)
              pageSize w) as [Hagain _].
  cbv zeta in Hagain. fold stored n pages in Hagain. rewrite Hclamp in Hagain.
  replace (Z.min (Z.max (Z.min (Z.max page 1) pages) 1) pages)
    with (Z.min (Z.max page 1) pages) in Hagain by lia.
  destruct (listPostComments_value siteId postSlug 9999 pageSize w) as [Hfar _].
  cbv zeta in Hfar. fold stored n pages in Hfar. rewrite Hclamp in Hfar.
  rewrite Hresult, Hfar.
  cbn [total Comments.pageSize totalPages Comments.page pageComments].
  split; [reflexivity|]. split; [exact Hn|]. split; [subst pages; lia|].
  split; [subst pages; nia|]. split; [reflexivity|]. split; [subst pages; lia|].
  split; [now rewrite Hagain|]. split.
  - intros H0. subst pages. rewrite H0. reflexivity.
  - intros Hone.
    assert (Hpages : pages = 1) by (subst pages; nia).
    rewrite Hpages. split; [reflexivity|]. split; [reflexivity|].
    change ((Z.min (Z.max 9999 1) 1 - 1) * n) with 0.
    change (Z.to_nat 0) with 0%nat. rewrite drop_0.
    rewrite take_ge; [reflexivity|].
    rewrite (Permutation_length (merge_sort_Permutation newerFirst stored)). lia.
Qed.

(** Two comments on the post, one on another: page 9999 is page 1 of 1 and
    holds the two, the newer first. *)
Lemma listPostComments_page_clamped_witness :
  let row id slug text at_ :=
    {| comment_id := id; comment_site_id := 1; comment_post_slug := slug;
       author_name := "ann"; author_site_slug := EmptyString; content := text;
       comment_created_at := at_ |} in
  let w :=
    set_comments
      [row 1 "hello-world" "first" "2026-01-01T00:00:00.000Z";
       row 2 "other" "elsewhere" "2026-01-02T00:00:00.000Z";
       row 3 "hello-world" "second" "2026-01-03T00:00:00.000Z"] emptyWorld in
  let far := fst (listPostComments 1 "hello-world" 9999 20 w) in
  total far = 2 /\ totalPages far = 1 /\ Comments.page far = 1
  /\ map Comments.id (pageComments far) = [3; 1].
Proof.
  intros row w far.
  pose proof (listPostComments_page_clamped 1 "hello-world" 9999 20 w) as H.
  cbv zeta in H. fold far in H.
  destruct H as (Htotal & _ & _ & _ & _ & _ & _ & _ & Hfar).
  destruct Hfar as (Hpages & Hpage & Hlisted); [vm_compute; discriminate|].
  split; [rewrite Htotal; reflexivity|]. split; [exact Hpages|].
  split; [exact Hpage|]. rewrite Hlisted. vm_compute. reflexivity.
Defined.

End CommentPaging.

(** ** Reaction toggle *)

Section ReactionToggle.

Import Reactions.

Lemma preset_map_lookup_None k :
  REACTION_PRESET_MAP !! k = None <-> k ∉ map key REACTION_PRESETS.
Proof.
  unfold REACTION_PRESET_MAP, Js.fromEntries.
  rewrite <- not_elem_of_list_to_map, fmap_reverse, elem_of_reverse.
  change ((map (fun item => (key item, item)) REACTION_PRESETS).*1)
    with (map key REACTION_PRESETS). reflexivity.
Qed.

Lemma sanitizeReactionKey_preset k :
  k ∈ map key REACTION_PRESETS ->
  Reactions.sanitizeReactionKey k = k /\ Js.truthy k = true.
Proof.
  cbn. rewrite !elem_of_cons, elem_of_nil.
  intros H; repeat (destruct H as [->|H]; [split; reflexivity|]); contradiction.
Qed.

Lemma sanitizeReactionKey_unknown k :
  Js.toLowerCase (Js.trim k) ∉ map key REACTION_PRESETS ->
  Reactions.sanitizeReactionKey k = EmptyString.
Proof.
  intros H%preset_map_lookup_None. unfold Reactions.sanitizeReactionKey. now rewrite H.
Qed.

Lemma sanitizeActorToken_valid token :
  Js.forallb Js.isLowerHex token && Js.lengthIn 20 64 token = true ->
  Reactor.sanitizeActorToken token = token /\ Js.truthy token = true.
Proof.
  intros [Hhex Hlen]%andb_prop. unfold Reactor.sanitizeActorToken.
  rewrite trim_solid by (eapply forallb_impl; [apply lowerHex_not_space | exact Hhex]).
  rewrite toLowerCase_fixed by (eapply forallb_impl; [apply lowerHex_lower | exact Hhex]).
  rewrite Hhex, Hlen. unfold Js.lengthIn in Hlen.
  apply andb_prop in Hlen as [Hlo%Nat.leb_le Hhi%Nat.leb_le].
  assert (Htruthy : Js.truthy token = true)
    by (destruct token; [simpl in Hlo; lia | reflexivity]).
  rewrite Htruthy. cbn [negb andb]. split; [now apply slice0_short | reflexivity].
Qed.

(** The statements of the schema bootstrap of [reactions] still to be sent. *)
Lemma togglePostReaction_rejected createdAt siteId postSlug reactionKey actorToken w :
  Js.truthy (Reactions.sanitizeReactionKey reactionKey) = false
  \/ Js.truthy (Reactor.sanitizeActorToken actorToken) = false ->
  togglePostReaction createdAt siteId postSlug reactionKey actorToken w =
  (false, snd (ensureReactionsTable w)).
Proof.
  intros H. unfold togglePostReaction, bind.
  destruct (ensureReactionsTable w) as [[] w'].
  destruct H as [-> | ->]; cbn [negb orb snd]; [reflexivity|].
  now rewrite orb_true_r.
Qed.

(** C7, as amended.  A reaction key outside the preset vocabulary (after
    trimming and lowercasing) makes [togglePostReaction] answer [false]
    without sending a [SELECT], [INSERT] or [DELETE]: the [reactions] table
    is as before, and the only statements that reach the store are those of
    the one-time schema bootstrap, which runs ahead of the check; once the
    schema is marked ready the call changes nothing at all.
    [POST /api/reactions] answers such a key in a readable body with status
    400 (or 429 when the rate limiter refuses) and leaves the state as the
    rate limiter, which runs ahead of the validation, left it: it never
    gets to [togglePostReaction]. *)
Theorem togglePostReaction_unknown_key
    (createdAt : string) (siteId : Z) (postSlug reactionKey actorToken : string)
    (w : World) :
  Js.toLowerCase (Js.trim reactionKey) ∉ map key REACTION_PRESETS ->
  let result := togglePostReaction createdAt siteId postSlug reactionKey actorToken w in
  (fst result = false
   /\ reactions (snd result) = reactions w
   /\ reactions_seq (snd result) = reactions_seq w
   /\ statements (snd result) =
      (statements w ++
         (if reactionsTableReady (memo w) then []
          else [CreateTable "reactions"; CreateIndex "idx_reactions_site_post";
                CreateIndex "idx_reactions_actor"]))%list
   /\ (reactionsTableReady (memo w) = true -> snd result = w))
  /\ forall aesGcmDecrypt sweepRate nowMs entropy sweepNotifications queuedAt env
            request site,
       let response :=
         Api.postApiReactions aesGcmDecrypt sweepRate nowMs entropy createdAt
           sweepNotifications queuedAt env request site
           (Parsed {| Api.bodyPostSlug := postSlug;
                      Api.bodyReactionKey := reactionKey |}) w in
       let limited :=
         RateLimiter.consumeRateLimit sweepRate nowMs (Api.reactionRateKey request site)
           Api.REACTION_RATE_WINDOW_MS Api.REACTION_RATE_MAX_ATTEMPTS w in
       snd response = snd limited
       /\ reactions (snd response) = reactions w
       /\ (Api.status (fst response) = 429 \/ Api.status (fst response) = 400)
       /\ (RateLimiter.allowed (fst limited) = true ->
           Js.truthy (Js.toLowerCase (Js.trim postSlug)) = true ->
           fst response = Api.failed 400 "Invalid reaction key").
Proof.
  intros Hunknown. cbv zeta. split.
  - rewrite togglePostReaction_rejected
      by (left; now rewrite (sanitizeReactionKey_unknown _ Hunknown)).
    unfold ensureReactionsTable, ensureSchema.
    destruct (reactionsTableReady (memo w)); cbn.
    + rewrite app_nil_r. auto.
    + repeat split; try reflexivity. discriminate.
  - intros aesGcmDecrypt sweepRate nowMs entropy sweepNotifications queuedAt env
      request site.
    unfold Api.postApiReactions, bind. cbn [Api.bodyPostSlug Api.bodyReactionKey].
    rewrite (sanitizeReactionKey_unknown _ Hunknown).
    pose proof (reactions_consumeRateLimit sweepRate nowMs
                  (Api.reactionRateKey request site) Api.REACTION_RATE_WINDOW_MS
                  Api.REACTION_RATE_MAX_ATTEMPTS w) as Hrows.
    destruct (RateLimiter.consumeRateLimit _ _ _ _ _ w) as [reactionRate w1].
    cbn [fst snd] in *.
    destruct (RateLimiter.allowed reactionRate); cbn [negb].
    + destruct (Js.truthy (Js.toLowerCase (Js.trim postSlug))); cbn;
        repeat split; auto; discriminate.
    + cbn. repeat split; auto; discriminate.
Qed.

Lemma togglePostReaction_unknown_key_witness :
  let result := togglePostReaction "2026-01-01T00:00:00.000Z" 42 "intro" " Thumbs-Up "
                  "0123456789abcdef0123" emptyWorld in
  fst result = false /\ reactions (snd result) = []
  /\ statements (snd result) =
     [CreateTable "reactions"; CreateIndex "idx_reactions_site_post";
      CreateIndex "idx_reactions_actor"].
Proof.
  cbv zeta.
  destruct (togglePostReaction_unknown_key "2026-01-01T00:00:00.000Z" 42 "intro"
              " Thumbs-Up " "0123456789abcdef0123" emptyWorld)
    as ((Hfalse & Hrows & _ & Hlog & _) & _).
  - apply preset_map_lookup_None. vm_compute. reflexivity.
  - split; [exact Hfalse|]. split; [exact Hrows | exact Hlog].
Defined.

(** C7, as stated, fails: the key is not rejected before any store access.
    On a cold start [togglePostReaction] sends the three statements of the
    schema bootstrap before it looks at the key, and [POST /api/reactions]
    has the rate limiter read and write [rate_limits] before it validates
    the body. *)
Lemma togglePostReaction_unknown_key_reaches_store :
  let result := togglePostReaction "2026-01-01T00:00:00.000Z" 42 "intro" "thumbs-up"
                  "0123456789abcdef0123" emptyWorld in
  let response :=
    Api.postApiReactions (fun _ _ _ => None) false 1000 [] "2026-01-01T00:00:00.000Z"
      false "2026-01-01T00:00:00.001Z"
      {| SESSION_SECRET := "s3cret"; BASE_DOMAIN := EmptyString |}
      {| cf_connecting_ip := "203.0.113.7"; user_agent := "Mozilla/5.0";
         cookie := EmptyString |}
      {| site_id := 42; site_slug := "alice" |}
      (Parsed {| Api.bodyPostSlug := "intro"; Api.bodyReactionKey := "thumbs-up" |})
      emptyWorld in
  (Js.toLowerCase (Js.trim "thumbs-up") ∉ map key REACTION_PRESETS)
  /\ statements emptyWorld = []
  /\ fst result = false
  /\ statements (snd result) =
     [CreateTable "reactions"; CreateIndex "idx_reactions_site_post";
      CreateIndex "idx_reactions_actor"]
  /\ fst response = Api.failed 400 "Invalid reaction key"
  /\ statements (snd response) =
     [CreateTable "rate_limits"; CreateIndex "idx_rate_limits_updated";
      SelectRateLimit "203.0.113.7:alice:reactions";
      UpsertRateLimit "203.0.113.7:alice:reactions"]
  /\ rate_limits (snd response) !! "203.0.113.7:alice:reactions"
     = Some {| window_start_ms := 1000; rate_attempts := 1; rate_updated_at := 1000 |}
  /\ rate_limits emptyWorld !! "203.0.113.7:alice:reactions" = None.
Proof.
  cbv zeta. split; [apply preset_map_lookup_None; vm_compute; reflexivity|].
  repeat split; vm_compute; reflexivity.
Qed.

End ReactionToggle.

Section ReactionToggleSteps.

Import Reactions.

Lemma filter_none (rows : list ReactionRow) (p : ReactionRow -> bool) :
  Forall (fun row => p row = false) rows ->
  filter (fun row => p row = true) rows = []
  /\ filter (fun row => p row = false) rows = rows.
Proof.
  induction 1 as [|row rows Hrow _ [IHt IHf]]; [split; reflexivity|].
  rewrite !filter_cons. rewrite IHt, IHf.
  destruct (decide (p row = true)); [congruence|].
  destruct (decide (p row = false)); [split; reflexivity | contradiction].
Qed.

(** What one call of [togglePostReaction] with a known key and a well-formed
    token returns and writes. *)
Lemma togglePostReaction_cases createdAt siteId postSlug reactionKey actorToken w :
  Js.truthy (Reactions.sanitizeReactionKey reactionKey) = true ->
  Js.truthy (Reactor.sanitizeActorToken actorToken) = true ->
  let matches :=
    isReaction siteId postSlug (Reactions.sanitizeReactionKey reactionKey)
      (Reactor.sanitizeActorToken actorToken) in
  let result := togglePostReaction createdAt siteId postSlug reactionKey actorToken w in
  match head (filter (fun row => matches row = true) (reactions w)) with
  | Some _ =>
      fst result = false
      /\ reactions (snd result) = filter (fun row => matches row = false) (reactions w)
  | None =>
      fst result = true
      /\ reactions (snd result) =
         (reactions w ++
            [{| reaction_id := nextRowId (reactions_seq w) (map reaction_id (reactions w));
                reaction_site_id := siteId; reaction_post_slug := postSlug;
                reaction_key := Reactions.sanitizeReactionKey reactionKey;
                actor_token := Reactor.sanitizeActorToken actorToken;
                reaction_created_at := createdAt |}])%list
  end.
Proof.
  intros Hkey Htoken. cbv zeta.
  unfold togglePostReaction, ensureReactionsTable, ensureSchema, bind, issue, modify,
    get, ret.
  rewrite Hkey, Htoken.
  destruct (reactionsTableReady (memo w));
    cbn [negb orb fst snd reactions reactions_seq set_statements set_memo set_reactions];
    destruct (head _); cbn [fst snd reactions set_reactions]; split; reflexivity.
Qed.

Lemma isReaction_refl siteId postSlug reactionKey actorToken id createdAt :
  isReaction siteId postSlug reactionKey actorToken
    {| reaction_id := id; reaction_site_id := siteId; reaction_post_slug := postSlug;
       reaction_key := reactionKey; actor_token := actorToken;
       reaction_created_at := createdAt |} = true.
Proof.
  unfold isReaction, onPost. cbn. now rewrite Z.eqb_refl, !String.eqb_refl.
Qed.

(** The snapshot reads nothing but the [reactions] table. *)
Lemma listPostReactionSnapshot_reads_reactions siteId postSlug viewer w1 w2 :
  reactions w1 = reactions w2 ->
  fst (listPostReactionSnapshot siteId postSlug viewer w1) =
  fst (listPostReactionSnapshot siteId postSlug viewer w2).
Proof.
  intros Hrows.
  unfold listPostReactionSnapshot, ensureReactionsTable, ensureSchema, bind, issue,
    modify, get, ret.
  destruct (reactionsTableReady (memo w1)), (reactionsTableReady (memo w2));
    cbn [fst snd reactions set_statements set_memo];
    destruct (Js.truthy (Reactor.sanitizeActorToken viewer));
    cbn [fst snd reactions set_statements set_memo]; rewrite Hrows; reflexivity.
Qed.

End ReactionToggleSteps.

(** ** Actor identity *)

Section ActorIdentity.

Import Reactor.

Lemma hexDigit_lowerHex n : Js.isLowerHex (Sha256.hexDigit n) = true.
Proof.
  unfold Sha256.hexDigit. generalize (Z.to_nat n) as i. intros i.
  do 16 (destruct i as [|i]; [reflexivity|]). destruct i; reflexivity.
Qed.

Lemma bytesToHex_lowerHex bytes :
  Js.forallb Js.isLowerHex (Sha256.bytesToHex bytes) = true.
Proof.
  induction bytes as [|b bytes IH]; cbn [Sha256.bytesToHex Js.forallb]; [reflexivity|].
  now rewrite !hexDigit_lowerHex, IH.
Qed.

Lemma bytesToHex_length bytes :
  String.length (Sha256.bytesToHex bytes) = (2 * length bytes)%nat.
Proof.
  induction bytes as [|b bytes IH]; cbn [Sha256.bytesToHex String.length length];
    [reflexivity|]. rewrite IH. lia.
Qed.

Lemma digest_length msg : length (Sha256.digest msg) = 32%nat.
Proof.
  unfold Sha256.digest.
  destruct (Sha256.blocks _ _ _) as [[[[[[[a b] c] d] e] f] g] h]. reflexivity.
Qed.

(** A SHA-256 digest in hexadecimal is a well-formed actor token. *)
Lemma sanitizeActorToken_sha256Hex value :
  sanitizeActorToken (Sha256.sha256Hex value) = Sha256.sha256Hex value
  /\ Js.truthy (Sha256.sha256Hex value) = true.
Proof.
  apply sanitizeActorToken_valid. unfold Sha256.sha256Hex, Js.lengthIn.
  now rewrite bytesToHex_lowerHex, bytesToHex_length, digest_length.
Qed.

(** With a client address, the address token is the digest: no randomness. *)
Lemma deriveIpActorToken_with_ip entropy request env :
  Js.truthy (Js.trim (cf_connecting_ip request)) = true ->
  deriveIpActorToken entropy request env =
  match getSessionSecret env with
  | None => None
  | Some secret =>
      Some (Sha256.sha256Hex
              (Js.trim (cf_connecting_ip request) ++ "|" ++ Js.trim (user_agent request)
               ++ "|" ++ secret ++ "|reactor-ip-v1"))
  end.
Proof.
  intros Hip. unfold deriveIpActorToken. rewrite Hip. cbn [negb].
  destruct (getSessionSecret env) as [secret|]; [|reflexivity].
  destruct (sanitizeActorToken_sha256Hex
              (Js.trim (cf_connecting_ip request) ++ "|" ++ Js.trim (user_agent request)
               ++ "|" ++ secret ++ "|reactor-ip-v1")) as [-> Htruthy].
  unfold Js.orElse. now rewrite Htruthy.
Qed.

(** C4, as amended.  With a well-formed cookie token, [resolveReactorToken]
    never asks for the cookie to be set, and two requests with that cookie
    token, the same user agent and the same (present) client address resolve
    to the same token, whatever the random source yields.  The address is
    mixed into the token, so the token is not kept across addresses. *)
Theorem resolveReactorToken_stable_for_address
    (entropy1 entropy2 : list Z) (request1 request2 : Request) (env : Env) :
  let existing request :=
    sanitizeActorToken
      (default EmptyString (parseCookies (cookie request) !! REACTOR_COOKIE)) in
  Js.truthy (existing request1) = true ->
  existing request1 = existing request2 ->
  Js.trim (user_agent request1) = Js.trim (user_agent request2) ->
  Js.trim (cf_connecting_ip request1) = Js.trim (cf_connecting_ip request2) ->
  Js.truthy (Js.trim (cf_connecting_ip request1)) = true ->
  resolveReactorToken entropy1 request1 env = resolveReactorToken entropy2 request2 env
  /\ forall resolved,
       resolveReactorToken entropy1 request1 env = Some resolved ->
       shouldSetCookie resolved = false.
Proof.
  cbv zeta. intros Hvalid Hcookie Hua Hip Hpresent.
  unfold resolveReactorToken.
  rewrite !deriveIpActorToken_with_ip by congruence.
  rewrite <- Hcookie, <- Hua, <- Hip, Hvalid.
  destruct (getSessionSecret env) as [secret|]; [|split; [reflexivity | discriminate]].
  split; [reflexivity|].
  intros resolved. destruct (String.eqb _ _); intros [= <-]; reflexivity.
Qed.

Lemma resolveReactorToken_stable_for_address_witness :
  let env := {| SESSION_SECRET := "s3cret"; BASE_DOMAIN := "bdfz.net" |} in
  let request :=
    {| cf_connecting_ip := "203.0.113.7"; user_agent := "Mozilla/5.0";
       cookie := "theme=dark; stublogs_reactor=0123456789abcdef0123" |} in
  resolveReactorToken [] request env = resolveReactorToken [7; 7; 7] request env
  /\ forall resolved,
       resolveReactorToken [] request env = Some resolved ->
       shouldSetCookie resolved = false.
Proof.
  cbv zeta.
  apply (resolveReactorToken_stable_for_address [] [7; 7; 7]);
    try reflexivity; vm_compute; reflexivity.
Defined.

(** C4, as stated, fails: one cookie token, one user agent, two client
    addresses, two tokens. *)
Lemma resolveReactorToken_varies_with_address :
  let env := {| SESSION_SECRET := "s3cret"; BASE_DOMAIN := "bdfz.net" |} in
  let request ip :=
    {| cf_connecting_ip := ip; user_agent := "Mozilla/5.0";
       cookie := "stublogs_reactor=0123456789abcdef0123" |} in
  sanitizeActorToken "0123456789abcdef0123" = "0123456789abcdef0123"
  /\ token <$> resolveReactorToken [] (request "203.0.113.7") env =
     Some "bc3bad05bf9a04bc51886f8f5d575193e7b0982c509a22ca91639dcc82dad003"
  /\ token <$> resolveReactorToken [] (request "198.51.100.9") env =
     Some "ad1e8d78a2b50f4b4cb9457af2c87076b8ac53a3cb7b4e8d69629687f108ca9d"
  /\ token <$> resolveReactorToken [] (request "203.0.113.7") env
     <> token <$> resolveReactorToken [] (request "198.51.100.9") env.
Proof.
  cbv zeta. split; [vm_compute; reflexivity|].
  assert (H1 : token <$> resolveReactorToken []
                 {| cf_connecting_ip := "203.0.113.7"; user_agent := "Mozilla/5.0";
                    cookie := "stublogs_reactor=0123456789abcdef0123" |}
                 {| SESSION_SECRET := "s3cret"; BASE_DOMAIN := "bdfz.net" |} =
               Some "bc3bad05bf9a04bc51886f8f5d575193e7b0982c509a22ca91639dcc82dad003")
    by (vm_compute; reflexivity).
  assert (H2 : token <$> resolveReactorToken []
                 {| cf_connecting_ip := "198.51.100.9"; user_agent := "Mozilla/5.0";
                    cookie := "stublogs_reactor=0123456789abcdef0123" |}
                 {| SESSION_SECRET := "s3cret"; BASE_DOMAIN := "bdfz.net" |} =
               Some "ad1e8d78a2b50f4b4cb9457af2c87076b8ac53a3cb7b4e8d69629687f108ca9d")
    by (vm_compute; reflexivity).
  split; [exact H1|]. split; [exact H2|]. rewrite H1, H2. discriminate.
Qed.

End ActorIdentity.

(** ** View counter under throttling *)

Section ViewThrottle.

Import Views.

Lemma unique_singleton k : Js.unique [k] = [k].
Proof. reflexivity. Qed.

(** Reading the count of one key that is in normal form. *)
Lemma listPageViewCounts_one siteId resourceType resourceKey w :
  normalizeViewResourceType resourceType = resourceType ->
  normalizeViewResourceKey resourceType resourceKey = resourceKey ->
  Js.truthy resourceKey = true ->
  let result := listPageViewCounts siteId resourceType [resourceKey] w in
  page_views (snd result) = page_views w
  /\ fst result !! resourceKey =
     (fun row => Z.max (view_count row) 0)
       <$> page_views w !! (siteId, resourceType, resourceKey).
Proof.
  intros Htype Hkey Htruthy. cbv zeta.
  unfold listPageViewCounts, ensureViewsTable, ensureSchema, bind, issue, modify, get, ret.
  rewrite Htype. cbn [map]. rewrite Hkey, filter_cons, filter_nil.
  destruct (decide (Js.truthy resourceKey = true)); [|contradiction].
  rewrite unique_singleton.
  destruct (viewsTableReady (memo w));
    cbn [fst snd page_views set_statements set_memo omap list_omap];
    (destruct (page_views w !! (siteId, resourceType, resourceKey)) as [row|];
     cbn [foldl fst snd fmap option_fmap option_map];
     [rewrite Htruthy; cbn [negb]; split; [reflexivity | apply lookup_insert_eq]
     | split; [reflexivity | apply lookup_empty]]).
Qed.

Lemma consumeRateLimit_reads_rate_limits sweep nowMs rateKey windowMs maxAttempts w1 w2 :
  rate_limits w1 = rate_limits w2 ->
  fst (RateLimiter.consumeRateLimit sweep nowMs rateKey windowMs maxAttempts w1) =
  fst (RateLimiter.consumeRateLimit sweep nowMs rateKey windowMs maxAttempts w2).
Proof.
  intros Htable.
  pose proof (consumeRateLimit_cases sweep nowMs rateKey windowMs maxAttempts w1) as C1.
  pose proof (consumeRateLimit_cases sweep nowMs rateKey windowMs maxAttempts w2) as C2.
  cbv zeta in C1, C2. rewrite Htable in C1.
  destruct (RateLimiter.afterGc sweep nowMs (rate_limits w2) !! Js.slice0 180 rateKey)
    as [row|];
    [destruct (nowMs - window_start_ms row <? _);
       [destruct (_ <=? rate_attempts row)|]|];
    destruct C1 as [-> _], C2 as [-> _]; reflexivity.
Qed.

Lemma normalizeViewResourceType_kinds value :
  normalizeViewResourceType value = "home" \/ normalizeViewResourceType value = "post".
Proof. unfold normalizeViewResourceType. destruct (String.eqb _ "home"); auto. Qed.

Lemma getPostMeta_finds siteId postSlug post w :
  post ∈ posts w -> post_site_id post = siteId -> post_slug post = postSlug ->
  published post = 1 ->
  is_Some (fst (getPostMeta siteId postSlug false w)).
Proof.
  intros Hin Hsite Hslug Hpublished.
  unfold getPostMeta, bind, issue, modify, get. cbn [fst snd posts set_statements].
  destruct (filter _ (posts w)) as [|found rest] eqn:E; [|cbn; eauto].
  exfalso. assert (Hfound : post ∈ filter
    (fun row => (post_site_id row =? siteId) && String.eqb (post_slug row) postSlug
                && (false || (published row =? 1)) = true) (posts w)).
  { apply list_elem_of_filter. split; [|exact Hin].
    now rewrite Hsite, Hslug, Hpublished, Z.eqb_refl, String.eqb_refl. }
  rewrite E in Hfound. now apply elem_of_nil in Hfound.
Qed.

(** C6.  When the rate limiter refuses a view increment, [POST /api/view]
    still answers with status 200 and the count stored for the resource
    (0 without a row), and the [page_views] table is unchanged.  A request
    reaches the limiter with a resource key, for a post with the published
    post of that slug; post slugs are at most 80 characters long.  A stored
    count is shown as it is when it is not negative. *)
Theorem postApiView_throttled
    (sweep : bool) (nowMs : Z) (nowIso : string) (request : Request) (site : Site)
    (payload : ViewBody) (w : World) :
  let resourceType := requestedType payload in
  let resourceKey := requestedKey payload in
  Forall (fun post => (String.length (post_slug post) <= 80)%nat) (posts w) ->
  Js.truthy resourceKey = true ->
  (resourceType = "post" ->
   exists post, post ∈ posts w /\ post_site_id post = site_id site
                /\ post_slug post = resourceKey /\ published post = 1) ->
  RateLimiter.allowed
    (fst (RateLimiter.consumeRateLimit sweep nowMs
            (viewRateKey request site resourceType resourceKey)
            VIEW_RATE_WINDOW_MS VIEW_RATE_MAX_ATTEMPTS w)) = false ->
  let stored :=
    from_option view_count 0 (page_views w !! (site_id site, resourceType, resourceKey)) in
  let result := postApiView sweep nowMs nowIso request site (Parsed payload) w in
  status (fst result) = 200
  /\ body (fst result) = Throttled (Z.max stored 0)
  /\ (0 <= stored -> body (fst result) = Throttled stored)
  /\ page_views (snd result) = page_views w.
Proof.
  cbv zeta. intros Hslugs Htruthy Hpost Hrefused.
  (* the resource type and key are in normal form *)
  assert (Hkinds : requestedType payload = "home" \/ requestedType payload = "post")
    by apply normalizeViewResourceType_kinds.
  assert (Htype : normalizeViewResourceType (requestedType payload)
                  = requestedType payload)
    by (destruct Hkinds as [-> | ->]; reflexivity).
  assert (Hkey : normalizeViewResourceKey (requestedType payload) (requestedKey payload)
                 = requestedKey payload).
  { unfold normalizeViewResourceKey, requestedKey in *.
    destruct (String.eqb (requestedType payload) "home") eqn:Ehome; [reflexivity|].
    rewrite normal_idem, Htruthy. cbn [negb].
    destruct (Nat.ltb_spec 120 (String.length (Js.toLowerCase (Js.trim
                (Js.orElse (bodyResourceKey payload) (bodyPostSlug payload))))))
      as [Hlong|]; [|reflexivity].
    exfalso. destruct Hpost as (post & Hin & _ & Hslug & _).
    { destruct Hkinds as [E | E]; [rewrite E in Ehome; discriminate | exact E]. }
    rewrite Forall_forall in Hslugs. specialize (Hslugs _ Hin).
    rewrite Hslug in Hslugs. lia. }
  unfold postApiView. rewrite Htruthy. cbn [negb]. unfold bind.
  (* the post check passes and leaves the tables alone *)
  assert (Hcheck : exists post w1,
            (if String.eqb (requestedType payload) "post"
             then getPostMeta (site_id site) (requestedKey payload) false
             else ret None) w = (post, w1)
            /\ String.eqb (requestedType payload) "post"
                 && negb (bool_decide (is_Some post)) = false
            /\ rate_limits w1 = rate_limits w /\ page_views w1 = page_views w).
  { destruct (String.eqb_spec (requestedType payload) "post") as [Epost|_].
    - destruct (Hpost Epost) as (post & Hin & Hsite & Hslug & Hpublished).
      pose proof (getPostMeta_finds _ _ _ _ Hin Hsite Hslug Hpublished) as Hfound.
      destruct (getPostMeta (site_id site) (requestedKey payload) false w)
        as [found w1] eqn:E.
      exists found, w1. split; [reflexivity|]. cbn [fst] in Hfound.
      rewrite (bool_decide_eq_true_2 _ Hfound). split; [reflexivity|].
      unfold getPostMeta, bind, issue, modify, get in E. injection E as _ <-.
      split; reflexivity.
    - exists None, w. repeat split; reflexivity. }
  destruct Hcheck as (post & w1 & Epost & Efound & Hrates & Hviews1).
  rewrite Epost, Efound.
  rewrite <- (consumeRateLimit_reads_rate_limits _ _ _ _ _ w1 w Hrates) in Hrefused.
  pose proof (page_views_consumeRateLimit sweep nowMs
                (viewRateKey request site (requestedType payload) (requestedKey payload))
                VIEW_RATE_WINDOW_MS VIEW_RATE_MAX_ATTEMPTS w1) as Hviews2.
  destruct (RateLimiter.consumeRateLimit _ _ _ _ _ w1) as [viewRate w2].
  cbn [fst snd] in Hrefused, Hviews2. rewrite Hrefused. cbn [negb].
  destruct (listPageViewCounts_one (site_id site) _ _ w2 Htype Hkey Htruthy)
    as [Hsame Hcount].
  cbv zeta in Hsame, Hcount.
  destruct (listPageViewCounts _ _ _ w2) as [viewMap w3].
  cbn [fst snd] in Hsame, Hcount |- *. unfold ret. cbn [fst snd status body].
  rewrite Hcount, Hsame, Hviews2, Hviews1.
  destruct (page_views w !! (site_id site, requestedType payload, requestedKey payload))
    as [row|];
    cbn [fmap option_fmap option_map from_option]; unfold default; cbn [from_option id].
  - repeat split; try reflexivity; [f_equal; lia | intros; f_equal; lia].
  - repeat split; reflexivity.
Qed.

Lemma postApiView_throttled_witness :
  let request := {| cf_connecting_ip := "203.0.113.7"; user_agent := "Mozilla/5.0";
                    cookie := EmptyString |} in
  let site := {| site_id := 42; site_slug := "alice" |} in
  let payload := {| bodyResourceType := "post"; bodyType := EmptyString;
                    bodyResourceKey := " Intro "; bodyPostSlug := EmptyString |} in
  let w0 :=
    {| rate_limits := ∅; reactions := []; reactions_seq := 0; page_views := ∅;
       comments := [];
       posts := [{| post_site_id := 42; post_slug := "intro"; title := "Intro";
                    published := 1 |}];
       site_notifications := []; site_notifications_seq := 0;
       site_telegram_settings := ∅; memo := memo emptyWorld; statements := [];
       relay_calls := [] |} in
  let w1 := snd (postApiView false 1000 "t1" request site (Parsed payload) w0) in
  let w2 := snd (postApiView false 1001 "t2" request site (Parsed payload) w1) in
  let result := postApiView false 1002 "t3" request site (Parsed payload) w2 in
  status (fst result) = 200
  /\ body (fst result) = Throttled 2
  /\ page_views (snd result) = page_views w2.
Proof.
  intros request site payload w0 w1 w2 result.
  destruct (postApiView_throttled false 1002 "t3" request site payload w2)
    as (Hstatus & _ & Hbody & Hviews).
  - repeat constructor.
  - vm_compute. reflexivity.
  - intros _. eexists. split; [apply list_elem_of_here|]. repeat split.
  - vm_compute. reflexivity.
  - split; [exact Hstatus|]. split; [|exact Hviews].
    apply Hbody. vm_compute. discriminate.
Defined.

End ViewThrottle.

(** ** Notification pipeline *)

Section NotificationGating.

Import Notify.

Variable aesGcmDecrypt : list Z -> list Z -> list Z -> option string.

Lemma truthy_not_empty s : Js.truthy s = true <-> s <> EmptyString.
Proof. destruct s; cbn; split; congruence. Qed.

Lemma sanitizeNotifyEventType_kinds value :
  sanitizeNotifyEventType value = EmptyString
  \/ sanitizeNotifyEventType value = "comment"
  \/ sanitizeNotifyEventType value = "reaction".
Proof.
  unfold sanitizeNotifyEventType.
  destruct (String.eqb _ "comment"); [auto|]. destruct (String.eqb _ "reaction"); auto.
Qed.

Lemma sanitizeNotifyEventType_idem value :
  sanitizeNotifyEventType (sanitizeNotifyEventType value) = sanitizeNotifyEventType value.
Proof.
  destruct (sanitizeNotifyEventType_kinds value) as [-> | [-> | ->]]; reflexivity.
Qed.

(** Ids handed out by the store exceed every id in the table. *)
Lemma nextRowId_above seq ids : Forall (fun id => id < nextRowId seq ids) ids.
Proof.
  unfold nextRowId. induction ids as [|id ids IH]; constructor; cbn [foldr].
  - lia.
  - eapply Forall_impl; [exact IH|]. cbn. intros; lia.
Qed.

(** [createSiteNotification] on an event that [queueSiteNotificationEvent]
    has normalized and let through appends one unread row. *)
Lemma createSiteNotification_appends nowIso siteId payload w :
  let event := normalizeEvent nowIso payload in
  Js.truthy (eventType event) = true -> Js.truthy (postSlug event) = true ->
  let w' := snd (createSiteNotification nowIso siteId event w) in
  (exists row,
     site_notifications w' = (site_notifications w ++ [row])%list
     /\ notification_id row =
        nextRowId (site_notifications_seq w) (map notification_id (site_notifications w))
     /\ notification_site_id row = siteId
     /\ event_type row = eventType event
     /\ notification_post_slug row = Js.slice0 120 (postSlug event)
     /\ read_at row = None)
  /\ site_telegram_settings w' = site_telegram_settings w
  /\ relay_calls w' = relay_calls w.
Proof.
  cbv zeta. intros Htype Hslug.
  unfold createSiteNotification, ensureNotificationTables, ensureSchema, bind, issue,
    modify, get, ret.
  cbn [eventType postSlug normalizeEvent] in *.
  rewrite sanitizeNotifyEventType_idem, normal_idem, Htype.
  rewrite (slice0_truthy 119 _ Hslug). cbn [negb].
  destruct (notificationTablesReady (memo w));
    cbn [fst snd site_notifications site_notifications_seq site_telegram_settings
         relay_calls set_site_notifications set_statements set_memo];
    (split; [eexists; split; [reflexivity|]; repeat split|split; reflexivity]).
Qed.

(** The retention sweep keeps the rows in order and never drops a row whose
    id is the largest of the table. *)
Lemma maybeScheduleNotificationsGc_keeps sweep siteId w :
  let w' := snd (maybeScheduleNotificationsGc sweep siteId w) in
  (site_notifications w' = site_notifications w
   \/ exists cutoff,
        cutoff ∈ site_notifications w
        /\ site_notifications w' =
           filter (fun row =>
                     ~ (notification_site_id row = siteId
                        /\ notification_id row < notification_id cutoff))
                  (site_notifications w))
  /\ site_telegram_settings w' = site_telegram_settings w
  /\ relay_calls w' = relay_calls w.
Proof.
  cbv zeta. unfold maybeScheduleNotificationsGc, bind, issue, modify, get, ret.
  destruct sweep; cbn [negb]; [|auto].
  cbn [fst snd site_notifications set_statements].
  destruct (merge_sort newerFirst _ !! 799%nat) as [cutoff|] eqn:E;
    cbn [from_option]; [|cbn; auto].
  destruct (notification_id cutoff =? 0);
    cbn [fst snd site_notifications site_telegram_settings relay_calls
         set_site_notifications set_statements]; [auto|].
  split; [|split; reflexivity]. right. exists cutoff. split; [|reflexivity].
  apply list_elem_of_lookup_2 in E. rewrite merge_sort_Permutation in E.
  now apply list_elem_of_filter in E as [_ E].
Qed.

Lemma getSiteNotifySettings_reads env siteId w :
  let result := getSiteNotifySettings aesGcmDecrypt env siteId true w in
  fst result =
    match site_telegram_settings w !! siteId with
    | None => defaultSiteNotifySettings
    | Some row =>
        {| settingsEnabled := enabled row =? 1;
           notifyComments := negb (notify_comments row =? 0);
           notifyReactions := negb (notify_reactions row =? 0);
           telegramChatId := sanitizeTelegramChatId (telegram_chat_id row);
           hasBotToken := Js.truthy (telegram_bot_token_enc row);
           telegramBotToken :=
             sanitizeTelegramBotToken
               (default EmptyString
                  (decryptSensitiveValue aesGcmDecrypt (telegram_bot_token_enc row) env));
           updatedAt := settings_updated_at row |}
    end
  /\ site_notifications (snd result) = site_notifications w
  /\ relay_calls (snd result) = relay_calls w.
Proof.
  cbv zeta. unfold getSiteNotifySettings, ensureNotificationTables, ensureSchema, bind,
    issue, modify, get, ret.
  destruct (notificationTablesReady (memo w));
    cbn [fst snd site_notifications site_telegram_settings relay_calls set_statements
         set_memo];
    (destruct (site_telegram_settings w !! siteId) as [row|];
     cbn [fst snd site_notifications relay_calls set_statements set_memo];
     [|auto]; split; [|auto]; f_equal; cbn [andb];
     destruct (telegram_bot_token_enc row); reflexivity).
Qed.

(** Three guards in a row let the call through when none of them holds. *)
Lemma gated_send (off noComments noReactions : bool) (send : M unit) (w : World) :
  snd ((if off then ret tt
        else if noComments then ret tt
        else if noReactions then ret tt
        else send) w)
  = if negb off && negb noComments && negb noReactions then snd (send w) else w.
Proof. destruct off, noComments, noReactions; reflexivity. Qed.

(** Whether the relay call is made, by cases on the stored settings. *)
Lemma relay_decision env siteId kind w :
  kind = "comment" \/ kind = "reaction" ->
  let settings := fst (getSiteNotifySettings aesGcmDecrypt env siteId true w) in
  let gate :=
    negb (negb (settingsEnabled settings) || negb (Js.truthy (telegramChatId settings))
          || negb (Js.truthy (telegramBotToken settings)))
    && negb (String.eqb kind "comment" && negb (notifyComments settings))
    && negb (String.eqb kind "reaction" && negb (notifyReactions settings)) in
  (gate = true <-> relayDue aesGcmDecrypt env siteId kind w)
  /\ (forall row, site_telegram_settings w !! siteId = Some row ->
      kind = "reaction" -> notify_reactions row = 0 -> gate = false).
Proof.
  intros Hkind. cbv zeta.
  destruct (getSiteNotifySettings_reads env siteId w) as [-> _].
  destruct (site_telegram_settings w !! siteId) as [row|] eqn:Erow.
  2:{ cbn. split; [|discriminate]. split; [discriminate|].
      intros (row & _ & Hrow & _). rewrite Erow in Hrow. discriminate. }
  cbn [settingsEnabled telegramChatId telegramBotToken notifyComments notifyReactions].
  split.
  - split.
    + intros Hgate. apply andb_prop in Hgate as [Hgate Hreaction].
      apply andb_prop in Hgate as [Hgate Hcomment].
      apply negb_true_iff in Hgate.
      apply orb_false_elim in Hgate as [Hgate Htoken].
      apply orb_false_elim in Hgate as [Henabled Hchat].
      apply negb_false_iff in Henabled, Hchat, Htoken.
      apply Z.eqb_eq in Henabled. apply truthy_not_empty in Hchat.
      destruct (decryptSensitiveValue aesGcmDecrypt (telegram_bot_token_enc row) env)
        as [botToken|] eqn:Edec; [|discriminate Htoken].
      cbn [default from_option id] in Htoken. apply truthy_not_empty in Htoken.
      exists row, botToken. repeat split; auto.
      * intros ->. cbn in Hcomment. apply negb_true_iff, negb_false_iff in Hcomment.
        apply negb_true_iff in Hcomment. now apply Z.eqb_neq.
      * intros ->. cbn in Hreaction. apply negb_true_iff, negb_false_iff in Hreaction.
        apply negb_true_iff in Hreaction. now apply Z.eqb_neq.
    + intros (row' & botToken & Hrow & Henabled & Hchat & Hdec & Htoken & Hc & Hr).
      rewrite Erow in Hrow. injection Hrow as <-.
      rewrite Hdec. cbn [default from_option id].
      apply Z.eqb_eq in Henabled. apply truthy_not_empty in Hchat, Htoken.
      rewrite Henabled, Hchat, Htoken. cbn [negb orb andb].
      destruct Hkind as [-> | ->]; cbn.
      * specialize (Hc eq_refl). apply Z.eqb_neq in Hc. now rewrite Hc.
      * specialize (Hr eq_refl). apply Z.eqb_neq in Hr. now rewrite Hr.
  - intros row' [= <-] -> Hoff. rewrite Hoff. cbn. now rewrite andb_false_r.
Qed.

(** C3.  For an event with a known type and a post slug,
    [queueSiteNotificationEvent] always ends with a new unread row of the
    site at the end of [site_notifications], whatever the Telegram settings
    are; it makes one relay call when the settings row enables the relay,
    holds a chat id and a bot token that decrypts, and has the toggle of the
    event's kind on, and no relay call otherwise.  A reaction event with
    [notify_reactions = 0] gives the row and no call. *)
Theorem queueSiteNotificationEvent_gating
    (sweep : bool) (nowIso : string) (env : Env) (site : Site) (payload : Event)
    (w : World) :
  let event := normalizeEvent nowIso payload in
  eventType event <> EmptyString -> postSlug event <> EmptyString ->
  let w' :=
    snd (queueSiteNotificationEvent aesGcmDecrypt sweep nowIso env site payload w) in
  (exists row earlier,
     site_notifications w' = (earlier ++ [row])%list
     /\ (sweep = false -> earlier = site_notifications w)
     /\ Forall (fun old => notification_id old < notification_id row)
               (site_notifications w)
     /\ notification_site_id row = site_id site
     /\ event_type row = eventType event
     /\ read_at row = None)
  /\ (relayDue aesGcmDecrypt env (site_id site) (eventType event) w ->
      exists call,
        relay_calls w' = (relay_calls w ++ [call])%list
        /\ relay_text call =
           buildSiteNotificationMessage nowIso event site
             (Js.toLowerCase (Js.orElse (BASE_DOMAIN env) "bdfz.net")))
  /\ (~ relayDue aesGcmDecrypt env (site_id site) (eventType event) w ->
      relay_calls w' = relay_calls w)
  /\ (eventType event = "reaction" ->
      (forall row, site_telegram_settings w !! site_id site = Some row ->
                   notify_reactions row = 0) ->
      (exists row, row ∈ site_notifications w' /\ row ∉ site_notifications w)
      /\ relay_calls w' = relay_calls w).
Proof.
  cbv zeta. intros Htype%truthy_not_empty Hslug%truthy_not_empty.
  assert (Hkind : eventType (normalizeEvent nowIso payload) = "comment"
                  \/ eventType (normalizeEvent nowIso payload) = "reaction").
  { cbn [eventType normalizeEvent] in *.
    destruct (sanitizeNotifyEventType_kinds (eventType payload)) as [E | E]; [|exact E].
    rewrite E in Htype. discriminate. }
  unfold queueSiteNotificationEvent. rewrite Htype, Hslug. cbn [negb orb].
  unfold bind.
  (* the row is written *)
  destruct (createSiteNotification_appends nowIso (site_id site) payload w Htype Hslug)
    as ((row & Hrows1 & Hid & Hsite & Hevent & _ & Hunread) & Hsettings1 & Hrelay1).
  destruct (createSiteNotification nowIso (site_id site) _ w) as [created w1].
  cbn [snd] in Hrows1, Hsettings1, Hrelay1.
  (* the retention sweep *)
  destruct (maybeScheduleNotificationsGc_keeps sweep (site_id site) w1)
    as (Hrows2 & Hsettings2 & Hrelay2).
  assert (Hsweep : sweep = false -> site_notifications
            (snd (maybeScheduleNotificationsGc sweep (site_id site) w1))
            = site_notifications w1) by (intros ->; reflexivity).
  destruct (maybeScheduleNotificationsGc sweep (site_id site) w1) as [[] w2].
  cbn [snd] in Hrows2, Hsettings2, Hrelay2, Hsweep.
  pose proof (nextRowId_above (site_notifications_seq w)
                (map notification_id (site_notifications w))) as Habove.
  rewrite <- Hid, Forall_fmap in Habove.
  assert (Hlast : exists earlier,
             site_notifications w2 = (earlier ++ [row])%list
             /\ (sweep = false -> earlier = site_notifications w)).
  { destruct Hrows2 as [Hkeep | (cutoff & Hin & Hkeep)].
    - exists (site_notifications w). rewrite Hkeep, Hrows1. auto.
    - rewrite Hkeep, Hrows1, filter_app, filter_cons, filter_nil.
      assert (Hle : notification_id cutoff <= notification_id row).
      { rewrite Hrows1, elem_of_app, list_elem_of_singleton in Hin.
        destruct Hin as [Hin | ->]; [|lia].
        rewrite Forall_forall in Habove. specialize (Habove _ Hin). cbn in Habove. lia. }
      destruct (decide _) as [_ | Hdrop]; [|exfalso; apply Hdrop; lia].
      eexists. split; [reflexivity|].
      intros Hoff. specialize (Hsweep Hoff). rewrite Hkeep, Hrows1 in Hsweep.
      rewrite filter_app, filter_cons, filter_nil in Hsweep.
      destruct (decide _) as [_ | Hdrop] in Hsweep; [|exfalso; apply Hdrop; lia].
      now apply app_inv_tail in Hsweep. }
  (* the settings are read and the relay is decided *)
  destruct (relay_decision env (site_id site) _ w2 Hkind) as [Hgate Hoff].
  cbv zeta in Hgate, Hoff.
  destruct (getSiteNotifySettings_reads env (site_id site) w2) as (_ & Hrows3 & Hrelay3).
  destruct (getSiteNotifySettings aesGcmDecrypt env (site_id site) true w2)
    as [settings w3].
  cbn [fst snd] in Hgate, Hoff, Hrows3, Hrelay3.
  assert (Hdue : relayDue aesGcmDecrypt env (site_id site)
                   (eventType (normalizeEvent nowIso payload)) w2
                 <-> relayDue aesGcmDecrypt env (site_id site)
                       (eventType (normalizeEvent nowIso payload)) w).
  { unfold relayDue. now rewrite Hsettings2, Hsettings1. }
  rewrite Hdue in Hgate. rewrite Hsettings2, Hsettings1 in Hoff.
  rewrite gated_send.
  match type of Hgate with
  | ?g = true <-> _ => destruct g eqn:Egate
  end.
  - (* the relay call is made *)
    unfold sendTelegramViaCustomBot, modify.
    cbn [snd site_notifications relay_calls set_relay_calls].
    rewrite Hrows3, Hrelay3, Hrelay2, Hrelay1.
    assert (Hdue' : relayDue aesGcmDecrypt env (site_id site)
                      (eventType (normalizeEvent nowIso payload)) w)
      by (now apply Hgate).
    split; [|split; [|split]].
    + destruct Hlast as (earlier & Hrows & Hearlier).
      exists row, earlier. repeat split; auto.
    + intros _. eexists. split; reflexivity.
    + intros Hnot. contradiction.
    + intros Hreaction Hzero. exfalso.
      destruct Hdue' as (srow & _ & Hsrow & _ & _ & _ & _ & _ & Hr).
      apply (Hr Hreaction), (Hzero _ Hsrow).
  - (* no relay call *)
    rewrite Hrows3, Hrelay3, Hrelay2, Hrelay1.
    assert (Hnot : ~ relayDue aesGcmDecrypt env (site_id site)
                     (eventType (normalizeEvent nowIso payload)) w)
      by (intros Hd; apply Hgate in Hd; discriminate).
    destruct Hlast as (earlier & Hrows' & Hearlier).
    split; [|split; [|split]].
    + exists row, earlier. repeat split; auto.
    + intros Hd. contradiction.
    + intros _. reflexivity.
    + intros _ _. split; [|reflexivity]. exists row. split.
      * rewrite Hrows', elem_of_app, list_elem_of_singleton. auto.
      * intros Hold. rewrite Forall_forall in Habove. specialize (Habove _ Hold).
        cbn in Habove. lia.
Qed.

End NotificationGating.

Lemma queueSiteNotificationEvent_gating_witness :
  let decrypt := fun _ _ _ : list Z => Some "123456789:ABCDEFGHIJKLMNOPQRSTUVWXYZabcdef" in
  let env := {| SESSION_SECRET := "s3cret"; BASE_DOMAIN := EmptyString |} in
  let site := {| site_id := 42; site_slug := "alice" |} in
  let payload :=
    {| Notify.eventType := "reaction"; Notify.postSlug := "intro";
       Notify.postTitle := "Intro"; Notify.actorName := EmptyString;
       Notify.actorSiteSlug := EmptyString; Notify.contentPreview := EmptyString;
       Notify.reactionKey := "fire"; Notify.reactionLabel := "fire";
       Notify.targetPath := "/intro#reactions"; Notify.createdAt := EmptyString |} in
  let settings reactionsOn :=
    {| enabled := 1; notify_comments := 0; notify_reactions := reactionsOn;
       telegram_chat_id := "-1001234567"; telegram_bot_token_enc := "v1$00aa$ff";
       settings_updated_at := "2026-01-01T00:00:00.000Z" |} in
  let world reactionsOn :=
    {| rate_limits := ∅; reactions := []; reactions_seq := 0; page_views := ∅;
       comments := []; posts := []; site_notifications := [];
     site_notifications_seq := 0;
       site_telegram_settings := {[ 42 := settings reactionsOn ]};
       memo := memo emptyWorld; statements := []; relay_calls := [] |} in
  let off := snd (Notify.queueSiteNotificationEvent decrypt false "2026-01-02T00:00:00.000Z"
                    env site payload (world 0)) in
  let on := snd (Notify.queueSiteNotificationEvent decrypt false "2026-01-02T00:00:00.000Z"
                   env site payload (world 1)) in
  ((exists row, row ∈ site_notifications off /\ row ∉ site_notifications (world 0))
   /\ relay_calls off = [])
  /\ exists call, relay_calls on = [call].
Proof.
  intros decrypt env site payload settings world off on. split.
  - apply (queueSiteNotificationEvent_gating decrypt false "2026-01-02T00:00:00.000Z"
             env site payload (world 0)).
    + vm_compute. discriminate.
    + vm_compute. discriminate.
    + vm_compute. reflexivity.
    + intros row. change (site_telegram_settings (world 0) !! site_id site)
        with (Some (settings 0)). intros [= <-]. reflexivity.
  - destruct (queueSiteNotificationEvent_gating decrypt false "2026-01-02T00:00:00.000Z"
                env site payload (world 1)) as (_ & Hdue & _).
    + vm_compute. discriminate.
    + vm_compute. discriminate.
    + destruct Hdue as (call & Hcalls & _).
      * exists (settings 1), "123456789:ABCDEFGHIJKLMNOPQRSTUVWXYZabcdef".
        repeat split; try (vm_compute; reflexivity); try (vm_compute; discriminate).
      * exists call. exact Hcalls.
Defined.

(** ** A reaction, end to end *)

Section Scenario.

(** Site [alice] (id 42) has comment notifications off and reaction
    notifications on.  A visitor toggles ["fire"] on post ["intro"] twice:
    the first call activates the reaction, writes one notification row and
    makes one relay call; the second deactivates it and adds neither. *)
Example reaction_toggled_twice_end_to_end :
  let decrypt := fun _ _ _ : list Z => Some "123456789:ABCDEFGHIJKLMNOPQRSTUVWXYZabcdef" in
  let env := {| SESSION_SECRET := "s3cret"; BASE_DOMAIN := EmptyString |} in
  let site := {| site_id := 42; site_slug := "alice" |} in
  let request := {| cf_connecting_ip := "203.0.113.7"; user_agent := "Mozilla/5.0";
                    cookie := EmptyString |} in
  let payload := {| Api.bodyPostSlug := "intro"; Api.bodyReactionKey := "fire" |} in
  let w0 :=
    {| rate_limits := ∅; reactions := []; reactions_seq := 0; page_views := ∅;
       comments := [];
       posts := [{| post_site_id := 42; post_slug := "intro"; title := "Intro";
                    published := 1 |}];
       site_notifications := []; site_notifications_seq := 0;
       site_telegram_settings :=
         {[ 42 := {| enabled := 1; notify_comments := 0; notify_reactions := 1;
                     telegram_chat_id := "-1001234567";
                     telegram_bot_token_enc := "v1$00aa$ff";
                     settings_updated_at := "2026-01-01T00:00:00.000Z" |} ]};
       memo := memo emptyWorld; statements := []; relay_calls := [] |} in
  let active response :=
    match Api.body response with
    | Api.Reacted _ _ active _ => Some active
    | Api.Failed _ => None
    end in
  let first :=
    Api.postApiReactions decrypt false 1000 [] "2026-01-02T00:00:00.000Z" false
      "2026-01-02T00:00:00.001Z" env request site (Parsed payload) w0 in
  let second :=
    Api.postApiReactions decrypt false 1200 [] "2026-01-02T00:00:00.200Z" false
      "2026-01-02T00:00:00.201Z" env request site (Parsed payload) (snd first) in
  active (fst first) = Some true
  /\ length (site_notifications (snd first)) = 1%nat
  /\ length (relay_calls (snd first)) = 1%nat
  /\ active (fst second) = Some false
  /\ site_notifications (snd second) = site_notifications (snd first)
  /\ relay_calls (snd second) = relay_calls (snd first)
  /\ reactions (snd second) = [].
Proof. vm_compute. repeat split; reflexivity. Qed.

End Scenario.

Section RateLimiterQuota.

Import RateLimiter.

Lemma traverse_cons {A B} (f : A -> M B) a rest w :
  traverse f (a :: rest) w =
  (fst (f a w) :: fst (traverse f rest (snd (f a w))),
   snd (traverse f rest (snd (f a w)))).
Proof.
  cbn [traverse]. unfold bind, ret. destruct (f a w) as [b w1]. cbn [fst snd].
  now destruct (traverse f rest w1).
Qed.

(** Calls inside an open window: the call that finds [a] attempts is allowed
    when [a] is below the limit. *)
Lemma consumeRateLimit_in_window rateKey windowMs maxAttempts t1
    (later : list (bool * Z)) :
  let k := Js.slice0 180 rateKey in
  let safeWindowMs := Z.max (Js.numberOr windowMs 60000) 1000 in
  let safeMaxAttempts := Z.max (Js.numberOr maxAttempts 1) 1 in
  safeWindowMs <= DAY_MS ->
  Forall (fun call => t1 <= snd call < t1 + safeWindowMs) later ->
  forall w a updated,
    rate_limits w !! k =
      Some {| window_start_ms := t1; rate_attempts := a; rate_updated_at := updated |} ->
    t1 <= updated -> a <= safeMaxAttempts ->
    map (fun r => (allowed r, attempts r))
      (fst (traverse (fun call =>
                        consumeRateLimit (fst call) (snd call) rateKey windowMs maxAttempts)
                     later w))
    = map (fun i => (a + Z.of_nat i <? safeMaxAttempts,
                     Z.min (a + Z.of_nat i + 1) safeMaxAttempts))
          (seq 0 (length later)).
Proof.
  cbv zeta. intros Hday Hin. induction Hin as [|[sweep now] later [Hlo Hhi] _ IH];
    intros w a updated Hrow Hupdated Ha; [reflexivity|].
  cbn [fst snd] in Hlo, Hhi. rewrite traverse_cons. cbn [fst snd length seq map].
  pose proof (consumeRateLimit_cases sweep now rateKey windowMs maxAttempts w) as C.
  cbv zeta in C.
  rewrite (lookup_afterGc_kept sweep now _ _ _ Hrow) in C by (cbn; lia).
  cbn [window_start_ms rate_attempts] in C.
  destruct (Z.ltb_spec (now - t1) (Z.max (Js.numberOr windowMs 60000) 1000)) as [_|];
    [|lia].
  rewrite <- seq_shift, map_map.
  set (limit := Z.max (Js.numberOr maxAttempts 1) 1) in *.
  destruct (Z.leb_spec limit a) as [Hfull|Hroom]; destruct C as [-> Htable];
    cbn [allowed attempts]; f_equal.
  - f_equal; [symmetry; apply Z.ltb_ge|]; lia.
  - rewrite (IH _ a updated); [| |lia|lia].
    + apply map_ext. intros i. f_equal; [|lia].
      transitivity false; [apply Z.ltb_ge | symmetry; apply Z.ltb_ge]; lia.
    + rewrite Htable. apply lookup_afterGc_kept; [exact Hrow | cbn; lia].
  - f_equal; [symmetry; apply Z.ltb_lt|]; lia.
  - rewrite (IH _ (a + 1) now); [| |lia|lia].
    + apply map_ext. intros i. f_equal; f_equal; lia.
    + rewrite Htable. apply lookup_insert_eq.
Qed.
(** X1.  Whatever the limits, a window admits exactly [maxAttempts] calls:
    when no window is open for the key at the first call and the later calls
    fall inside the window the first one opens (at most a day long, so that
    no sweep can reach the row), the call number [i] (from 0) is allowed
    exactly when [i < maxAttempts] and reports [min(i + 1, maxAttempts)]
    attempts. *)
Theorem consumeRateLimit_quota
    (w : World) (rateKey : string) (windowMs maxAttempts : Z) (sweep1 : bool) (t1 : Z)
    (later : list (bool * Z)) :
  let safeWindowMs := Z.max (Js.numberOr windowMs 60000) 1000 in
  let safeMaxAttempts := Z.max (Js.numberOr maxAttempts 1) 1 in
  safeWindowMs <= DAY_MS ->
  (forall row, rate_limits w !! Js.slice0 180 rateKey = Some row ->
               safeWindowMs <= t1 - window_start_ms row) ->
  Forall (fun call => t1 <= snd call < t1 + safeWindowMs) later ->
  map (fun r => (allowed r, attempts r))
    (fst (traverse (fun call =>
                      consumeRateLimit (fst call) (snd call) rateKey windowMs maxAttempts)
                   ((sweep1, t1) :: later) w))
  = map (fun i => (Z.of_nat i <? safeMaxAttempts, Z.min (Z.of_nat i + 1) safeMaxAttempts))
        (seq 0 (S (length later))).
Proof.
  cbv zeta. intros Hday Hclosed Hin. rewrite traverse_cons.
  cbn [fst snd seq map]. rewrite <- seq_shift, map_map.
  pose proof (consumeRateLimit_cases sweep1 t1 rateKey windowMs maxAttempts w) as C.
  cbv zeta in C.
  assert (Hfresh :
    fst (consumeRateLimit sweep1 t1 rateKey windowMs maxAttempts w) =
      {| allowed := true; attempts := 1;
         remaining := Z.max (Z.max (Js.numberOr maxAttempts 1) 1 - 1) 0;
         retryAfterMs := 0 |}
    /\ rate_limits (snd (consumeRateLimit sweep1 t1 rateKey windowMs maxAttempts w))
         !! Js.slice0 180 rateKey =
       Some {| window_start_ms := t1; rate_attempts := 1; rate_updated_at := t1 |}).
  { destruct (afterGc sweep1 t1 (rate_limits w) !! Js.slice0 180 rateKey)
      as [row|] eqn:E.
    - apply lookup_afterGc_Some in E. specialize (Hclosed _ E).
      destruct (Z.ltb_spec (t1 - window_start_ms row)
                  (Z.max (Js.numberOr windowMs 60000) 1000)); [lia|].
      destruct C as [-> ->]. split; [reflexivity | apply lookup_insert_eq].
    - destruct C as [-> ->]. split; [reflexivity | apply lookup_insert_eq]. }
  destruct Hfresh as [-> Hrow]. cbn [allowed attempts]. f_equal.
  - f_equal; [symmetry; apply Z.ltb_lt|]; lia.
  - rewrite (consumeRateLimit_in_window rateKey windowMs maxAttempts t1 later Hday Hin
               _ 1 t1 Hrow); [|lia|lia].
    apply map_ext. intros i. f_equal; f_equal; lia.
Qed.

Lemma consumeRateLimit_quota_witness :
  map (fun r => (allowed r, attempts r))
    (fst (traverse (fun call =>
                      consumeRateLimit (fst call) (snd call) "203.0.113.7:alice:view" 10000 2)
                   [(false, 5000); (true, 5001); (false, 9000); (false, 14999)]
                   emptyWorld))
  = [(true, 1); (true, 2); (false, 2); (false, 2)].
Proof.
  apply (consumeRateLimit_quota emptyWorld "203.0.113.7:alice:view" 10000 2 false 5000
           [(true, 5001); (false, 9000); (false, 14999)]).
  - vm_compute. discriminate.
  - intros row Hrow. vm_compute in Hrow. discriminate.
  - repeat constructor; cbn; lia.
Defined.

(** X2.  [clearRateLimit] on a non-empty key forgets the window: the next
    [consumeRateLimit] on the key is allowed with [attempts = 1], whatever
    the table held, and the rows of other keys are left alone.  On the empty
    key [clearRateLimit] does nothing at all. *)
Theorem clearRateLimit_resets
    (w : World) (rateKey : string) (sweep : bool) (nowMs windowMs maxAttempts : Z) :
  (Js.truthy rateKey = true ->
   let cleared := snd (clearRateLimit rateKey w) in
   let next := fst (consumeRateLimit sweep nowMs rateKey windowMs maxAttempts cleared) in
   rate_limits cleared !! Js.slice0 180 rateKey = None
   /\ (forall other, other <> Js.slice0 180 rateKey ->
                     rate_limits cleared !! other = rate_limits w !! other)
   /\ allowed next = true /\ attempts next = 1 /\ retryAfterMs next = 0)
  /\ (rateKey = EmptyString -> clearRateLimit rateKey w = (tt, w)).
Proof.
  split; [|intros ->; reflexivity].
  intros Htruthy. cbv zeta.
  pose proof (rate_limits_clearRateLimit rateKey w) as Hcleared. rewrite Htruthy in Hcleared.
  assert (Hnone : rate_limits (snd (clearRateLimit rateKey w)) !! Js.slice0 180 rateKey
                  = None) by (rewrite Hcleared; apply lookup_delete_eq).
  split; [exact Hnone|]. split.
  - intros other Hother. rewrite Hcleared. now apply lookup_delete_ne.
  - pose proof (consumeRateLimit_cases sweep nowMs rateKey windowMs maxAttempts
                  (snd (clearRateLimit rateKey w))) as C.
    cbv zeta in C. rewrite (lookup_afterGc_None _ _ _ _ Hnone) in C.
    destruct C as [-> _]. repeat split.
Qed.

Lemma clearRateLimit_resets_witness :
  let spent :=
    snd (traverse (fun now => consumeRateLimit false now "203.0.113.7:alice" 900000 5)
           [1000; 1001; 1002; 1003; 1004; 1005] emptyWorld) in
  allowed (fst (consumeRateLimit false 1006 "203.0.113.7:alice" 900000 5 spent)) = false
  /\ allowed (fst (consumeRateLimit false 1006 "203.0.113.7:alice" 900000 5
                    (snd (clearRateLimit "203.0.113.7:alice" spent)))) = true.
Proof.
  intros spent. split; [vm_compute; reflexivity|].
  apply (clearRateLimit_resets spent "203.0.113.7:alice" false 1006 900000 5).
  reflexivity.
Defined.

(** X3.  What a call reports: an allowed call has [attempts <= maxAttempts],
    [remaining = maxAttempts - attempts] and [retryAfterMs = 0]; a refused
    call has [remaining = 0], [attempts >= maxAttempts], a wait of at least a
    second (so a [Retry-After] header of at least 1), at most the window
    when the clock has not gone back behind the window start, and writes
    nothing: the table is what the sweep left. *)
Theorem consumeRateLimit_report
    (w : World) (rateKey : string) (sweep : bool) (nowMs windowMs maxAttempts : Z) :
  let safeWindowMs := Z.max (Js.numberOr windowMs 60000) 1000 in
  let safeMaxAttempts := Z.max (Js.numberOr maxAttempts 1) 1 in
  let result := consumeRateLimit sweep nowMs rateKey windowMs maxAttempts w in
  (allowed (fst result) = true ->
   attempts (fst result) <= safeMaxAttempts
   /\ remaining (fst result) = safeMaxAttempts - attempts (fst result)
   /\ retryAfterMs (fst result) = 0)
  /\ (allowed (fst result) = false ->
      remaining (fst result) = 0
      /\ safeMaxAttempts <= attempts (fst result)
      /\ 1000 <= retryAfterMs (fst result)
      /\ 1 <= Js.ceilDiv (retryAfterMs (fst result)) 1000
      /\ rate_limits (snd result) = afterGc sweep nowMs (rate_limits w)
      /\ exists row,
           rate_limits (snd result) !! Js.slice0 180 rateKey = Some row
           /\ attempts (fst result) = rate_attempts row
           /\ (window_start_ms row <= nowMs -> retryAfterMs (fst result) <= safeWindowMs)).
Proof.
  cbv zeta.
  pose proof (consumeRateLimit_cases sweep nowMs rateKey windowMs maxAttempts w) as C.
  cbv zeta in C.
  assert (Hceil : forall x, 1000 <= x -> 1 <= Js.ceilDiv x 1000).
  { intros x Hx. unfold Js.ceilDiv.
    assert ((- x) / 1000 <= -1) by (apply Z.div_le_upper_bound; lia). lia. }
  destruct (afterGc sweep nowMs (rate_limits w) !! Js.slice0 180 rateKey)
    as [row|] eqn:E;
    [destruct (nowMs - window_start_ms row <? _);
       [destruct (Z.leb_spec (Z.max (Js.numberOr maxAttempts 1) 1) (rate_attempts row))|]|];
    destruct C as [-> Htable]; cbn [allowed attempts remaining retryAfterMs];
    (split; [intros Hallowed | intros Hrefused]); try discriminate;
    try (repeat split; lia).
  repeat split; try lia.
  - apply Hceil. lia.
  - exact Htable.
  - exists row. rewrite Htable. repeat split; [exact E | lia].
Qed.

Lemma consumeRateLimit_report_witness :
  let spent :=
    snd (traverse (fun now => consumeRateLimit false now "k" 10000 2) [1000; 1001]
           emptyWorld) in
  let result := consumeRateLimit false 4000 "k" 10000 2 spent in
  remaining (fst result) = 0 /\ retryAfterMs (fst result) = 7000
  /\ rate_limits (snd result) = rate_limits spent.
Proof.
  intros spent result.
  destruct (consumeRateLimit_report spent "k" false 4000 10000 2) as [_ Hrefused].
  destruct Hrefused as (Hremaining & _ & _ & _ & Htable & _); [vm_compute; reflexivity|].
  split; [exact Hremaining|]. split; [vm_compute; reflexivity | exact Htable].
Defined.

End RateLimiterQuota.


(** ** View counter: counting and reading back *)

Section ViewCounter.

Import Views.

(** What one call of [incrementPageViewCount] returns and writes. *)
Lemma incrementPageViewCount_cases now siteId resourceType resourceKey w :
  let normalizedType := normalizeViewResourceType resourceType in
  let normalizedKey := normalizeViewResourceKey normalizedType resourceKey in
  let pk := (siteId, normalizedType, normalizedKey) in
  let stored := from_option view_count 0 (page_views w !! pk) in
  let result := incrementPageViewCount now siteId resourceType resourceKey w in
  rate_limits (snd result) = rate_limits w
  /\ posts (snd result) = posts w
  /\ if Js.truthy normalizedKey then
       fst result = Z.max (stored + 1) 0
       /\ page_views (snd result) =
          <[pk := {| view_count := stored + 1; view_updated_at := now |}]> (page_views w)
     else fst result = 0 /\ snd result = snd (ensureViewsTable w).
Proof.
  cbv zeta.
  unfold incrementPageViewCount, ensureViewsTable, ensureSchema, bind, issue, modify,
    get, ret.
  destruct (Js.truthy (normalizeViewResourceKey _ resourceKey));
    destruct (viewsTableReady (memo w));
    cbn [negb fst snd page_views rate_limits posts set_statements set_memo set_page_views];
    (split; [reflexivity|]); (split; [reflexivity|]); try (split; reflexivity);
    (destruct (page_views w !! _) as [old|]; cbn [from_option];
     rewrite lookup_insert_eq; cbn [from_option view_count]; split; reflexivity).
Qed.

(** X4.  The counter of a resource counts: when the stored count is [c]
    (0 without a row), serial calls of [incrementPageViewCount] on the
    resource return [c + 1], [c + 2], ... and leave [c + n] in the store. *)
Theorem incrementPageViewCount_counts
    (siteId : Z) (resourceType resourceKey : string) (nows : list string) (w : World) :
  let normalizedType := normalizeViewResourceType resourceType in
  let normalizedKey := normalizeViewResourceKey normalizedType resourceKey in
  let pk := (siteId, normalizedType, normalizedKey) in
  let stored := from_option view_count 0 (page_views w !! pk) in
  let result :=
    traverse (fun now => incrementPageViewCount now siteId resourceType resourceKey)
      nows w in
  Js.truthy normalizedKey = true ->
  0 <= stored ->
  fst result = map (fun i => stored + 1 + Z.of_nat i) (seq 0 (length nows))
  /\ from_option view_count 0 (page_views (snd result) !! pk)
     = stored + Z.of_nat (length nows).
Proof.
  cbv zeta. intros Htruthy. revert w.
  induction nows as [|now nows IH]; intros w Hstored.
  - cbn. split; [reflexivity | lia].
  - rewrite traverse_cons. cbn [fst snd length seq map].
    destruct (incrementPageViewCount_cases now siteId resourceType resourceKey w)
      as (_ & _ & C).
    cbv zeta in C. rewrite Htruthy in C. destruct C as [-> Htable].
    specialize (IH (snd (incrementPageViewCount now siteId resourceType resourceKey w))).
    rewrite Htable, lookup_insert_eq in IH. cbn [from_option view_count] in IH.
    destruct IH as [-> ->]; [lia|]. split; [|lia].
    f_equal; [lia|]. rewrite <- seq_shift, map_map. apply map_ext. intros i. lia.
Qed.

Lemma incrementPageViewCount_counts_witness :
  fst (traverse (fun now => incrementPageViewCount now 42 "POST" " Hello-World ")
         ["t1"; "t2"; "t3"] emptyWorld)
  = [1; 2; 3].
Proof.
  apply (incrementPageViewCount_counts 42 "POST" " Hello-World " ["t1"; "t2"; "t3"]
           emptyWorld).
  - vm_compute. reflexivity.
  - vm_compute. discriminate.
Defined.

(** The [for] loop of [listPageViewCounts] over the rows of the keys
    asked for. *)
Lemma viewMap_lookup {R} (found : string -> option R) (count : R -> Z)
    (keys : list string) (viewMap : gmap string Z) (k : string) :
  Forall (fun key => Js.truthy key = true) keys ->
  foldl (fun viewMap row =>
           if negb (Js.truthy (fst row)) then viewMap
           else <[fst row := Z.max (snd row) 0]> viewMap)
        viewMap
        (omap (fun key => match found key with
                          | Some row => Some (key, count row)
                          | None => None
                          end) keys) !! k
  = match (if bool_decide (k ∈ keys) then found k else None) with
    | Some row => Some (Z.max (count row) 0)
    | None => viewMap !! k
    end.
Proof.
  intros Hkeys. revert viewMap.
  induction Hkeys as [|key keys Hkey _ IH]; intros viewMap.
  - cbn. rewrite bool_decide_eq_false_2; [reflexivity | apply not_elem_of_nil].
  - cbn [omap list_omap].
    destruct (found key) as [row|] eqn:Efound.
    + cbn [foldl fst snd]. rewrite Hkey. cbn [negb]. rewrite IH.
      destruct (decide (k = key)) as [->|Hne].
      * rewrite (bool_decide_eq_true_2 (key ∈ key :: keys)) by apply list_elem_of_here.
        rewrite Efound. destruct (bool_decide (key ∈ keys)).
        -- reflexivity.
        -- apply lookup_insert_eq.
      * rewrite lookup_insert_ne by congruence.
        rewrite (bool_decide_ext (k ∈ key :: keys) (k ∈ keys)); [reflexivity|].
        rewrite elem_of_cons. tauto.
    + rewrite IH. destruct (decide (k = key)) as [->|Hne].
      * rewrite (bool_decide_eq_true_2 (key ∈ key :: keys)) by apply list_elem_of_here.
        rewrite Efound. destruct (bool_decide (key ∈ keys)); reflexivity.
      * rewrite (bool_decide_ext (k ∈ key :: keys) (k ∈ keys)); [reflexivity|].
        rewrite elem_of_cons. tauto.
Qed.

Lemma elem_of_unique (l : list string) (k : string) : k ∈ Js.unique l <-> k ∈ l.
Proof. unfold Js.unique. now rewrite elem_of_reverse, elem_of_remove_dups, elem_of_reverse. Qed.

(** X5.  [listPageViewCounts] reads and never writes: the map it returns
    holds, for exactly the requested keys (in normal form, blank ones
    dropped) that have a row for this site and resource type, the stored
    count (0 for a negative one), and the [page_views] table is unchanged. *)
Theorem listPageViewCounts_lookup
    (siteId : Z) (resourceType : string) (resourceKeys : list string) (w : World)
    (k : string) :
  let normalizedType := normalizeViewResourceType resourceType in
  let result := listPageViewCounts siteId resourceType resourceKeys w in
  page_views (snd result) = page_views w
  /\ fst result !! k =
     if bool_decide (Js.truthy k = true
                     /\ k ∈ map (normalizeViewResourceKey normalizedType) resourceKeys)
     then (fun row => Z.max (view_count row) 0)
            <$> page_views w !! (siteId, normalizedType, k)
     else None.
Proof.
  cbv zeta. unfold listPageViewCounts.
  set (normalizedType := normalizeViewResourceType resourceType).
  set (wanted := filter (fun k => Js.truthy k = true)
                   (map (normalizeViewResourceKey normalizedType) resourceKeys)).
  assert (Hwanted : forall key, key ∈ Js.unique wanted <->
            Js.truthy key = true
            /\ key ∈ map (normalizeViewResourceKey normalizedType) resourceKeys).
  { intros key. rewrite elem_of_unique. unfold wanted. now rewrite list_elem_of_filter. }
  assert (Htruthy : Forall (fun key => Js.truthy key = true) (Js.unique wanted)).
  { apply Forall_forall. intros key Hkey. now apply Hwanted in Hkey. }
  rewrite <- (bool_decide_ext _ _ (Hwanted k)).
  unfold ensureViewsTable, ensureSchema, bind, issue, modify, get, ret.
  destruct (Js.unique wanted) as [|key keys] eqn:Ekeys.
  { destruct (viewsTableReady (memo w)); cbn [fst snd page_views set_statements set_memo];
      (split; [reflexivity|]);
      rewrite bool_decide_eq_false_2 by apply not_elem_of_nil; apply lookup_empty. }
  destruct (viewsTableReady (memo w));
    cbn [fst snd page_views set_statements set_memo]; (split; [reflexivity|]);
    rewrite (viewMap_lookup
               (fun key => page_views w !! (siteId, normalizedType, key)) view_count);
    try exact Htruthy.
  all: try (destruct (bool_decide (k ∈ key :: keys));
            [destruct (page_views w !! (siteId, normalizedType, k)); reflexivity
            | apply lookup_empty]).
Qed.

(** X6.  A counted view can be read back, and counts one resource only:
    after [incrementPageViewCount] on a resource with a key, the map of
    [listPageViewCounts] for the same key holds the count the increment
    returned, and the row of every other site, type or key is as before.
    With a blank key the increment returns 0 and the table is unchanged. *)
Theorem incrementPageViewCount_read_back
    (now : string) (siteId : Z) (resourceType resourceKey : string) (w : World) :
  let normalizedType := normalizeViewResourceType resourceType in
  let normalizedKey := normalizeViewResourceKey normalizedType resourceKey in
  let counted := incrementPageViewCount now siteId resourceType resourceKey w in
  (Js.truthy normalizedKey = true ->
   fst (listPageViewCounts siteId resourceType [resourceKey] (snd counted))
     !! normalizedKey = Some (fst counted)
   /\ forall other, other <> (siteId, normalizedType, normalizedKey) ->
        page_views (snd counted) !! other = page_views w !! other)
  /\ (Js.truthy normalizedKey = false ->
      fst counted = 0 /\ page_views (snd counted) = page_views w).
Proof.
  cbv zeta.
  destruct (incrementPageViewCount_cases now siteId resourceType resourceKey w)
    as (_ & _ & C).
  cbv zeta in C. split; intros Htruthy; rewrite Htruthy in C.
  - destruct C as [-> Htable]. split.
    + unfold listPageViewCounts. cbn [map]. rewrite filter_cons, filter_nil.
      destruct (decide (Js.truthy _ = true)); [|contradiction].
      rewrite unique_singleton.
      unfold ensureViewsTable, ensureSchema, bind, issue, modify, get, ret.
      destruct (viewsTableReady (memo (snd (incrementPageViewCount _ _ _ _ w))));
        cbn [fst snd page_views set_statements set_memo omap list_omap];
        rewrite Htable, lookup_insert_eq; cbn [foldl fst snd view_count];
        rewrite Htruthy; cbn [negb]; apply lookup_insert_eq.
    + intros other Hother. rewrite Htable. now apply lookup_insert_ne.
  - destruct C as [-> ->]. split; [reflexivity|].
    unfold ensureViewsTable, ensureSchema. now destruct (viewsTableReady (memo w)).
Qed.

Lemma incrementPageViewCount_read_back_witness :
  let counted := incrementPageViewCount "t" 42 "home" EmptyString emptyWorld in
  fst (listPageViewCounts 42 "home" [EmptyString] (snd counted)) !! "__home__"
  = Some (fst counted)
  /\ fst (incrementPageViewCount "t" 42 "post" "   " emptyWorld) = 0.
Proof.
  intros counted. split.
  - apply (incrementPageViewCount_read_back "t" 42 "home" EmptyString emptyWorld).
    reflexivity.
  - apply (incrementPageViewCount_read_back "t" 42 "post" "   " emptyWorld).
    reflexivity.
Defined.

Lemma filter_all_false {A} (p : A -> bool) (l : list A) :
  Forall (fun x => p x = false) l -> filter (fun x => p x = true) l = [].
Proof.
  induction 1 as [|x l Hx _ IH]; [reflexivity|].
  rewrite filter_cons, IH. destruct (decide (p x = true)); [congruence | reflexivity].
Qed.



(** X8.  A view that the checks and the rate limiter let through is
    counted exactly once: [POST /api/view] answers 200 with the resource
    and its new count, one more than the stored one, and the only row of
    [page_views] that changes is the row of the resource. *)
Theorem postApiView_counted
    (sweep : bool) (nowMs : Z) (nowIso : string) (request : Request) (site : Site)
    (payload : ViewBody) (w : World) :
  let resourceType := requestedType payload in
  let resourceKey := requestedKey payload in
  let pk := (site_id site, resourceType,
             normalizeViewResourceKey resourceType resourceKey) in
  let stored := from_option view_count 0 (page_views w !! pk) in
  let result := postApiView sweep nowMs nowIso request site (Parsed payload) w in
  Js.truthy resourceKey = true ->
  (resourceType = "post" ->
   exists post, post ∈ posts w /\ post_site_id post = site_id site
                /\ post_slug post = resourceKey /\ published post = 1) ->
  RateLimiter.allowed
    (fst (RateLimiter.consumeRateLimit sweep nowMs
            (viewRateKey request site resourceType resourceKey)
            VIEW_RATE_WINDOW_MS VIEW_RATE_MAX_ATTEMPTS w)) = true ->
  fst result =
    {| status := 200;
       body := Counted resourceType resourceKey (Z.max (stored + 1) 0) |}
  /\ page_views (snd result) =
     <[pk := {| view_count := stored + 1; view_updated_at := nowIso |}]> (page_views w).
Proof.
  cbv zeta. intros Htruthy Hpost Hallowed.
  assert (Hkinds : requestedType payload = "home" \/ requestedType payload = "post")
    by apply normalizeViewResourceType_kinds.
  assert (Htype : normalizeViewResourceType (requestedType payload)
                  = requestedType payload)
    by (destruct Hkinds as [-> | ->]; reflexivity).
  assert (Hkey : Js.truthy (normalizeViewResourceKey (requestedType payload)
                              (requestedKey payload)) = true).
  { unfold normalizeViewResourceKey, requestedKey in *.
    destruct (String.eqb (requestedType payload) "home"); [reflexivity|].
    rewrite normal_idem, Htruthy. cbn [negb].
    destruct (120 <? _)%nat; [|exact Htruthy]. now apply (slice0_truthy 119). }
  unfold postApiView. rewrite Htruthy. cbn [negb]. unfold bind.
  assert (Hcheck : exists post w1,
            (if String.eqb (requestedType payload) "post"
             then getPostMeta (site_id site) (requestedKey payload) false
             else ret None) w = (post, w1)
            /\ String.eqb (requestedType payload) "post"
                 && negb (bool_decide (is_Some post)) = false
            /\ rate_limits w1 = rate_limits w /\ page_views w1 = page_views w).
  { destruct (String.eqb_spec (requestedType payload) "post") as [Epost|_].
    - destruct (Hpost Epost) as (post & Hin & Hsite & Hslug & Hpublished).
      pose proof (getPostMeta_finds _ _ _ _ Hin Hsite Hslug Hpublished) as Hfound.
      destruct (getPostMeta (site_id site) (requestedKey payload) false w)
        as [found w1] eqn:E.
      exists found, w1. split; [reflexivity|]. cbn [fst] in Hfound.
      rewrite (bool_decide_eq_true_2 _ Hfound). split; [reflexivity|].
      unfold getPostMeta, bind, issue, modify, get in E. injection E as _ <-.
      split; reflexivity.
    - exists None, w. repeat split; reflexivity. }
  destruct Hcheck as (post & w1 & Epost & Efound & Hrates & Hviews1).
  rewrite Epost, Efound.
  rewrite <- (consumeRateLimit_reads_rate_limits _ _ _ _ _ w1 w Hrates) in Hallowed.
  pose proof (page_views_consumeRateLimit sweep nowMs
                (viewRateKey request site (requestedType payload) (requestedKey payload))
                VIEW_RATE_WINDOW_MS VIEW_RATE_MAX_ATTEMPTS w1) as Hviews2.
  destruct (RateLimiter.consumeRateLimit _ _ _ _ _ w1) as [viewRate w2].
  cbn [fst snd] in Hallowed, Hviews2. rewrite Hallowed. cbn [negb].
  destruct (incrementPageViewCount_cases nowIso (site_id site) (requestedType payload)
              (requestedKey payload) w2) as (_ & _ & C).
  cbv zeta in C. rewrite Htype, Hkey in C. destruct C as [Hcount Htable].
  destruct (incrementPageViewCount _ _ _ _ w2) as [count w3].
  cbn [fst snd] in Hcount, Htable |- *. unfold ret. cbn [fst snd].
  rewrite Htable, Hcount, Hviews2, Hviews1. split; reflexivity.
Qed.

Lemma postApiView_counted_witness :
  let request := {| cf_connecting_ip := "203.0.113.7"; user_agent := "Mozilla/5.0";
                    cookie := EmptyString |} in
  let site := {| site_id := 42; site_slug := "alice" |} in
  let payload := {| bodyResourceType := EmptyString; bodyType := EmptyString;
                    bodyResourceKey := EmptyString; bodyPostSlug := " Intro " |} in
  let w :=
    {| rate_limits := ∅; reactions := []; reactions_seq := 0;
       page_views := {[ (42, "post", "intro") :=
                          {| view_count := 6; view_updated_at := "t0" |} ]};
       comments := [];
       posts := [{| post_site_id := 42; post_slug := "intro"; title := "Intro";
                    published := 1 |}];
       site_notifications := []; site_notifications_seq := 0;
       site_telegram_settings := ∅; memo := memo emptyWorld; statements := [];
       relay_calls := [] |} in
  fst (postApiView false 1000 "t" request site (Parsed payload) w)
  = {| status := 200; body := Counted "post" "intro" 7 |}.
Proof.
  intros request site payload w.
  apply (postApiView_counted false 1000 "t" request site payload w).
  - reflexivity.
  - intros _. eexists. split; [apply list_elem_of_here|]. repeat split.
  - vm_compute. reflexivity.
Defined.

End ViewCounter.

(** ** Reactions: the table and what a snapshot shows of it *)

Section ReactionTableFacts.

Import Reactions ReactionTable.

Lemma sanitizeReactionKey_out k :
  Js.truthy (Reactions.sanitizeReactionKey k) = true ->
  Reactions.sanitizeReactionKey k ∈ map key REACTION_PRESETS.
Proof.
  unfold Reactions.sanitizeReactionKey.
  destruct (REACTION_PRESET_MAP !! _) as [found|] eqn:E; [|discriminate].
  intros _. destruct (decide (Js.toLowerCase (Js.trim k) ∈ map key REACTION_PRESETS))
    as [Hin|Hout]; [exact Hin|].
  apply preset_map_lookup_None in Hout. congruence.
Qed.

Lemma sanitizeActorToken_out value :
  Js.truthy (Reactor.sanitizeActorToken value) = true ->
  Js.forallb Js.isLowerHex (Reactor.sanitizeActorToken value)
    && Js.lengthIn 20 64 (Reactor.sanitizeActorToken value) = true.
Proof.
  unfold Reactor.sanitizeActorToken.
  destruct (Js.truthy (Js.toLowerCase (Js.trim value))); cbn [negb]; [|discriminate].
  destruct (Js.forallb Js.isLowerHex _ && Js.lengthIn 20 64 _) eqn:E; cbn [negb];
    [|discriminate].
  intros _. rewrite slice0_short; [exact E|].
  apply andb_prop in E as [_ Hlen]. unfold Js.lengthIn in Hlen.
  apply andb_prop in Hlen as [_ Hhi%Nat.leb_le]. exact Hhi.
Qed.

Lemma isReaction_identity siteId postSlug reactionKey actorToken row :
  isReaction siteId postSlug reactionKey actorToken row = true
  <-> reactionIdentity row = (siteId, postSlug, reactionKey, actorToken).
Proof.
  unfold isReaction, onPost, reactionIdentity.
  rewrite !andb_true_iff, Z.eqb_eq, !String.eqb_eq. split.
  - intros [[[-> ->] ->] ->]. reflexivity.
  - intros [= -> -> -> ->]. auto.
Qed.

Lemma filter_all_true {A} (p : A -> bool) (l : list A) :
  Forall (fun x => p x = true) l -> filter (fun x => p x = true) l = l.
Proof.
  induction 1 as [|x l Hx _ IH]; [reflexivity|].
  rewrite filter_cons, IH. destruct (decide (p x = true)); [reflexivity | contradiction].
Qed.

Lemma head_filter_None {A} (p : A -> bool) (l : list A) :
  head (filter (fun x => p x = true) l) = None -> Forall (fun x => p x = false) l.
Proof.
  intros Hhead. apply Forall_forall. intros x Hx.
  destruct (p x) eqn:E; [|reflexivity].
  assert (Hin : x ∈ filter (fun x => p x = true) l) by (apply list_elem_of_filter; auto).
  destruct (filter _ l); [now apply elem_of_nil in Hin | discriminate].
Qed.

(** Whatever the call, the rows after it hold preset keys and tokens in
    normal form when the rows before it did. *)
Lemma togglePostReaction_stored createdAt siteId postSlug reactionKey actorToken w :
  let stored row :=
    reaction_key row ∈ map key REACTION_PRESETS
    /\ Js.forallb Js.isLowerHex (actor_token row)
         && Js.lengthIn 20 64 (actor_token row) = true in
  Forall stored (reactions w) ->
  Forall stored
    (reactions (snd (togglePostReaction createdAt siteId postSlug reactionKey
                       actorToken w))).
Proof.
  cbv zeta. intros Hrows.
  destruct (Js.truthy (Reactions.sanitizeReactionKey reactionKey)) eqn:Hkey.
  2:{ rewrite togglePostReaction_rejected by auto. cbn [snd].
      unfold ensureReactionsTable, ensureSchema.
      now destruct (reactionsTableReady (memo w)). }
  destruct (Js.truthy (Reactor.sanitizeActorToken actorToken)) eqn:Htoken.
  2:{ rewrite togglePostReaction_rejected by auto. cbn [snd].
      unfold ensureReactionsTable, ensureSchema.
      now destruct (reactionsTableReady (memo w)). }
  pose proof (togglePostReaction_cases createdAt siteId postSlug reactionKey actorToken
                w Hkey Htoken) as C.
  cbv zeta in C.
  destruct (head (filter _ (reactions w))) as [found|]; destruct C as [_ ->].
  - apply Forall_forall. intros row [_ Hin]%list_elem_of_filter.
    rewrite Forall_forall in Hrows. now apply Hrows.
  - apply Forall_app. split; [exact Hrows|]. apply Forall_singleton. cbn. split.
    + now apply sanitizeReactionKey_out.
    + now apply sanitizeActorToken_out.
Qed.

(** X9.  [togglePostReaction] keeps the [reactions] table as the schema
    wants it, whatever it is called with: ids stay pairwise distinct, no two
    rows share site, post, key and actor (the [INSERT] is only sent when no
    such row exists, so the [UNIQUE] constraint never stops it), and every
    stored key is a preset key, every stored token a token in normal form. *)
Theorem togglePostReaction_keeps_table
    (createdAt : string) (siteId : Z) (postSlug reactionKey actorToken : string)
    (w : World) :
  wellFormed (reactions w) ->
  wellFormed
    (reactions (snd (togglePostReaction createdAt siteId postSlug reactionKey
                       actorToken w))).
Proof.
  intros (Hids & Hunique & Hrows).
  destruct (Js.truthy (Reactions.sanitizeReactionKey reactionKey)) eqn:Hkey.
  2:{ rewrite togglePostReaction_rejected by auto. cbn [snd].
      unfold ensureReactionsTable, ensureSchema.
      destruct (reactionsTableReady (memo w)); repeat split; assumption. }
  destruct (Js.truthy (Reactor.sanitizeActorToken actorToken)) eqn:Htoken.
  2:{ rewrite togglePostReaction_rejected by auto. cbn [snd].
      unfold ensureReactionsTable, ensureSchema.
      destruct (reactionsTableReady (memo w)); repeat split; assumption. }
  pose proof (togglePostReaction_cases createdAt siteId postSlug reactionKey actorToken
                w Hkey Htoken) as C.
  cbv zeta in C.
  destruct (head (filter _ (reactions w))) as [found|] eqn:Ehead; destruct C as [_ ->].
  - repeat split.
    + eapply sublist_NoDup; [exact Hids | apply (fmap_sublist reaction_id), sublist_filter].
    + eapply sublist_NoDup; [exact Hunique|].
      apply (fmap_sublist reactionIdentity), sublist_filter.
    + apply Forall_forall. intros row [_ Hin]%list_elem_of_filter.
      rewrite Forall_forall in Hrows. now apply Hrows.
  - apply head_filter_None in Ehead. rewrite Forall_forall in Ehead.
    unfold wellFormed. rewrite !map_app. cbn [map]. repeat split.
    + apply NoDup_app. split; [exact Hids|]. split; [|apply NoDup_singleton].
      intros id Hid Hnew%list_elem_of_singleton.
      pose proof (nextRowId_above (reactions_seq w) (map reaction_id (reactions w)))
        as Habove.
      rewrite Forall_forall in Habove. specialize (Habove id Hid). cbn in Hnew. lia.
    + apply NoDup_app. split; [exact Hunique|]. split; [|apply NoDup_singleton].
      intros identity Hold Hnew%list_elem_of_singleton.
      apply list_elem_of_fmap in Hold as [row [Hrow Hin]].
      specialize (Ehead row Hin). rewrite Hnew in Hrow.
      assert (isReaction siteId postSlug (Reactions.sanitizeReactionKey reactionKey)
                (Reactor.sanitizeActorToken actorToken) row = true)
        by (apply isReaction_identity; rewrite <- Hrow; reflexivity).
      congruence.
    + apply Forall_app. split; [exact Hrows|]. apply Forall_singleton. cbn. split.
      * now apply sanitizeReactionKey_out.
      * now apply sanitizeActorToken_out.
Qed.

Lemma togglePostReaction_keeps_table_witness :
  wellFormed
    (reactions
       (snd (togglePostReaction "t2" 42 "intro" " Lion " "0123456789ABCDEF0123"
               (snd (togglePostReaction "t1" 42 "intro" "dragon" "0123456789abcdef0123"
                       emptyWorld))))).
Proof.
  apply togglePostReaction_keeps_table, togglePostReaction_keeps_table.
  repeat split; constructor.
Defined.

End ReactionTableFacts.
Section ReactionSnapshotFacts.

Import Reactions ReactionTable.

(** The snapshot a table gives: the value of [listPostReactionSnapshot]. *)
Lemma listPostReactionSnapshot_value siteId postSlug viewer w :
  let rows := filter (fun row => onPost siteId postSlug row = true) (reactions w) in
  let token := Reactor.sanitizeActorToken viewer in
  fst (listPostReactionSnapshot siteId postSlug viewer w) =
  buildReactionSnapshot (countsOfRows (groupByKey rows))
    (if Js.truthy token then
       filter (fun k => Js.truthy k = true)
         (map Reactions.sanitizeReactionKey
            (map reaction_key
               (filter (fun row => onPost siteId postSlug row
                                   && String.eqb (actor_token row) token = true)
                       (reactions w))))
     else []).
Proof.
  cbv zeta.
  unfold listPostReactionSnapshot, ensureReactionsTable, ensureSchema, bind, issue,
    modify, get, ret.
  destruct (reactionsTableReady (memo w));
    cbn [fst snd reactions set_statements set_memo];
    destruct (Js.truthy (Reactor.sanitizeActorToken viewer)); reflexivity.
Qed.

(** The [for] loop that fills [countsMap], on grouped rows with preset
    keys. *)
Lemma countsMap_lookup (cnt : string -> Z) (ks : list string)
    (countsMap : gmap string Z) (k : string) :
  Forall (fun k => k ∈ map key REACTION_PRESETS) ks ->
  foldl (fun countsMap row =>
           let key := Reactions.sanitizeReactionKey (fst row) in
           if negb (Js.truthy key) then countsMap
           else <[key := Z.max (snd row) 0]> countsMap)
        countsMap (map (fun k => (k, cnt k)) ks) !! k
  = if bool_decide (k ∈ ks) then Some (Z.max (cnt k) 0) else countsMap !! k.
Proof.
  intros Hks. revert countsMap.
  induction Hks as [|k0 ks Hk0 _ IH]; intros countsMap.
  - cbn. rewrite bool_decide_eq_false_2; [reflexivity | apply not_elem_of_nil].
  - destruct (sanitizeReactionKey_preset _ Hk0) as [Hsame Htruthy].
    cbn [map foldl fst snd]. cbv zeta. rewrite Hsame, Htruthy. cbn [negb]. rewrite IH.
    destruct (decide (k = k0)) as [->|Hne].
    + rewrite (bool_decide_eq_true_2 (k0 ∈ k0 :: ks)) by apply list_elem_of_here.
      destruct (bool_decide (k0 ∈ ks)); [reflexivity | apply lookup_insert_eq].
    + rewrite lookup_insert_ne by congruence.
      rewrite (bool_decide_ext (k ∈ k0 :: ks) (k ∈ ks)); [reflexivity|].
      rewrite elem_of_cons. tauto.
Qed.

Lemma filter_length_zero {A} (P : A -> Prop) `{forall x, Decision (P x)} (l : list A) :
  (forall x, x ∈ l -> ~ P x) -> length (filter P l) = 0%nat.
Proof.
  intros Hnone. destruct (filter P l) as [|x rest] eqn:E; [reflexivity|].
  assert (Hx : x ∈ filter P l) by (rewrite E; apply list_elem_of_here).
  apply list_elem_of_filter in Hx as [HP Hin]. now destruct (Hnone x Hin).
Qed.

(** The count the map holds for a preset key: the number of rows. *)
Lemma countsOfRows_rows (rows : list ReactionRow) (k : string) :
  Forall (fun row => reaction_key row ∈ map key REACTION_PRESETS) rows ->
  Z.max (default 0 (countsOfRows (groupByKey rows) !! k)) 0
  = Z.of_nat (length (filter (fun row => reaction_key row = k) rows)).
Proof.
  intros Hrows. unfold countsOfRows, groupByKey.
  rewrite (countsMap_lookup
             (fun k => Z.of_nat (length (filter (fun row => reaction_key row = k) rows)))).
  - destruct (bool_decide_reflect (k ∈ remove_dups (map reaction_key rows)))
      as [Hin|Hout]; unfold default; cbn [from_option id]; [lia|].
    rewrite lookup_empty. cbn [from_option id].
    rewrite filter_length_zero; [reflexivity|].
    intros row Hrow Hk. apply Hout. rewrite elem_of_remove_dups.
    apply list_elem_of_fmap. eauto.
  - apply Forall_forall. intros k' Hk'. rewrite elem_of_remove_dups in Hk'.
    apply list_elem_of_fmap in Hk' as [row [-> Hrow]].
    rewrite Forall_forall in Hrows. now apply Hrows.
Qed.

(** The array handed to [sort], by what it holds. *)
Lemma elem_of_ranked (countsByKey : gmap string Z) (selected : gset string)
    (item : Ranked) :
  item ∈ sort (imap (fun index preset =>
                       {| preset := preset; orderIndex := Z.of_nat index;
                          rankedCount := Z.max (default 0 (countsByKey !! key preset)) 0;
                          rankedSelected := bool_decide (key preset ∈ selected) |})
                    REACTION_PRESETS)
  <-> preset item ∈ REACTION_PRESETS
      /\ orderIndex item = Z.of_nat (declaredIndex (key (preset item)))
      /\ rankedCount item = Z.max (default 0 (countsByKey !! key (preset item))) 0
      /\ rankedSelected item = bool_decide (key (preset item) ∈ selected).
Proof.
  unfold sort. rewrite merge_sort_Permutation. cbn [imap REACTION_PRESETS].
  rewrite ?elem_of_cons, elem_of_nil. split.
  - intros H.
    repeat (destruct H as [->|H];
            [split; [cbn [preset]; repeat ((left; reflexivity) || right)
                    | repeat split; reflexivity]|]).
    contradiction.
  - destruct item as [p index c s]. cbn [preset orderIndex rankedCount rankedSelected].
    intros (H & -> & -> & ->).
    unfold REACTION_PRESETS in H. rewrite ?elem_of_cons, elem_of_nil in H.
    repeat (destruct H as [->|H]; [repeat ((left; reflexivity) || right)|]).
    contradiction.
Qed.

Lemma shownCount_build (countsByKey : gmap string Z) (selected : list string)
    (k : string) :
  k ∈ map key REACTION_PRESETS ->
  shownCount k (buildReactionSnapshot countsByKey selected)
  = Z.max (default 0 (countsByKey !! k)) 0.
Proof.
  intros Hk. unfold shownCount, buildReactionSnapshot. cbn [items].
  set (chosen := list_to_set _ : gset string).
  set (ranked := sort _).
  apply list_elem_of_fmap in Hk as [p [-> Hp]].
  destruct (list_find (fun item => itemKey item = key p) _) as [[i found]|] eqn:E.
  - apply list_find_Some in E as (Hfound & Hkey & _).
    apply list_elem_of_lookup_2, list_elem_of_fmap in Hfound as [item [-> Hitem]].
    apply elem_of_ranked in Hitem as (_ & _ & Hcount & _).
    cbn [itemKey] in Hkey. cbn. now rewrite Hcount, Hkey.
  - exfalso. apply list_find_None in E. rewrite Forall_forall in E.
    apply (E {| itemKey := key p; itemIcon := icon p; itemLabel := label p;
                count := Z.max (default 0 (countsByKey !! key p)) 0;
                selected := bool_decide (key p ∈ chosen) |}); [|reflexivity].
    apply list_elem_of_fmap.
    exists {| preset := p; orderIndex := Z.of_nat (declaredIndex (key p));
              rankedCount := Z.max (default 0 (countsByKey !! key p)) 0;
              rankedSelected := bool_decide (key p ∈ chosen) |}.
    split; [reflexivity|]. apply elem_of_ranked. cbn. auto.
Qed.

Lemma foldl_sum {A} (f : A -> Z) (l : list A) (a : Z) :
  foldl (fun sum item => sum + f item) a l = a + foldr Z.add 0 (map f l).
Proof.
  revert a. induction l as [|x l IH]; intros a; cbn [foldl foldr map]; [lia|].
  rewrite IH. lia.
Qed.

Lemma sum_Permutation (l1 l2 : list Z) :
  l1 ≡ₚ l2 -> foldr Z.add 0 l1 = foldr Z.add 0 l2.
Proof. induction 1; cbn [foldr]; lia. Qed.

Lemma total_build (countsByKey : gmap string Z) (selected : list string) :
  total (buildReactionSnapshot countsByKey selected)
  = foldr Z.add 0
      (map (fun k => Z.max (default 0 (countsByKey !! k)) 0) (map key REACTION_PRESETS)).
Proof.
  unfold buildReactionSnapshot. cbn [total].
  rewrite foldl_sum, Z.add_0_l, !map_map. unfold sort.
  erewrite sum_Permutation by (apply Permutation_map, merge_sort_Permutation).
  reflexivity.
Qed.

Lemma presets_NoDup : NoDup (map key REACTION_PRESETS).
Proof. apply (bool_decide_unpack _). vm_compute. reflexivity. Qed.

(** Every row is counted under one key. *)
Lemma sum_by_key (ks : list string) (rows : list ReactionRow) :
  NoDup ks -> Forall (fun row => reaction_key row ∈ ks) rows ->
  foldr Z.add 0
    (map (fun k => Z.of_nat (length (filter (fun row => reaction_key row = k) rows))) ks)
  = Z.of_nat (length rows).
Proof.
  intros Hks Hrows. induction Hrows as [|row rows Hrow _ IH].
  - induction ks as [|k ks IHks]; [reflexivity|]. cbn [map foldr].
    rewrite IHks; [reflexivity | now inversion Hks].
  - cbn [length]. rewrite Nat2Z.inj_succ, <- IH. clear IH.
    induction Hks as [|k ks Hnotin Hks IHks]; [now apply elem_of_nil in Hrow|].
    cbn [map foldr]. rewrite filter_cons.
    destruct (decide (reaction_key row = k)) as [Hk|Hk].
    + cbn [length]. rewrite Nat2Z.inj_succ.
      assert (Hrest : forall l : list ReactionRow,
                map (fun k' => Z.of_nat
                       (length (filter (fun row' => reaction_key row' = k') (row :: l)))) ks
                = map (fun k' => Z.of_nat
                         (length (filter (fun row' => reaction_key row' = k') l))) ks).
      { intros l. apply map_ext_in. intros k' Hk'%list_elem_of_In. rewrite filter_cons.
        destruct (decide (reaction_key row = k')); [congruence | reflexivity]. }
      rewrite Hrest. lia.
    + apply elem_of_cons in Hrow as [Hrow|Hrow]; [contradiction|].
      rewrite (IHks Hrow). lia.
Qed.

Lemma selectedKeys_build (countsByKey : gmap string Z) (selected : list string)
    (k : string) :
  k ∈ selectedKeys (buildReactionSnapshot countsByKey selected)
  <-> k ∈ map key REACTION_PRESETS
      /\ k ∈ filter (fun k => Js.truthy k = true)
               (map Reactions.sanitizeReactionKey selected).
Proof.
  unfold buildReactionSnapshot. cbn [selectedKeys].
  set (chosen := list_to_set _ : gset string).
  assert (Hchosen : forall k, k ∈ chosen <->
            k ∈ filter (fun k => Js.truthy k = true)
                  (map Reactions.sanitizeReactionKey selected))
    by (intros; apply elem_of_list_to_set).
  rewrite <- Hchosen. split.
  - intros [item [-> Hitem]]%list_elem_of_fmap.
    apply list_elem_of_filter in Hitem as [Hselected Hitem].
    apply list_elem_of_fmap in Hitem as [ranked [-> Hranked]].
    apply elem_of_ranked in Hranked as (Hpreset & _ & _ & Hflag).
    cbn [itemKey Reactions.selected] in *. split.
    + apply list_elem_of_fmap. eauto.
    + rewrite Hflag in Hselected. now apply bool_decide_eq_true_1 in Hselected.
  - intros [[p [-> Hp]]%list_elem_of_fmap Hin].
    apply list_elem_of_fmap.
    exists {| itemKey := key p; itemIcon := icon p; itemLabel := label p;
              count := Z.max (default 0 (countsByKey !! key p)) 0;
              Reactions.selected := bool_decide (key p ∈ chosen) |}.
    split; [reflexivity|]. apply list_elem_of_filter. split.
    + cbn. now apply bool_decide_eq_true_2.
    + apply list_elem_of_fmap.
      exists {| preset := p; orderIndex := Z.of_nat (declaredIndex (key p));
                rankedCount := Z.max (default 0 (countsByKey !! key p)) 0;
                rankedSelected := bool_decide (key p ∈ chosen) |}.
      split; [reflexivity|]. apply elem_of_ranked. cbn. auto.
Qed.

(** The keys a viewer is shown as selected: those of the viewer's rows. *)
Lemma selected_of_rows (rows : list ReactionRow) (k : string) :
  Forall (fun row => reaction_key row ∈ map key REACTION_PRESETS) rows ->
  k ∈ map key REACTION_PRESETS
  /\ k ∈ filter (fun k => Js.truthy k = true)
          (map Reactions.sanitizeReactionKey
             (filter (fun k => Js.truthy k = true)
                (map Reactions.sanitizeReactionKey (map reaction_key rows))))
  <-> exists row, row ∈ rows /\ reaction_key row = k.
Proof.
  intros Hrows. rewrite Forall_forall in Hrows. split.
  - intros [_ Hin]. apply list_elem_of_filter in Hin as [_ Hin].
    apply list_elem_of_fmap in Hin as [k1 [-> Hin]].
    apply list_elem_of_filter in Hin as [_ Hin].
    apply list_elem_of_fmap in Hin as [k0 [-> Hin]].
    apply list_elem_of_fmap in Hin as [row [-> Hin]].
    exists row. split; [exact Hin|].
    destruct (sanitizeReactionKey_preset _ (Hrows row Hin)) as [-> _].
    now destruct (sanitizeReactionKey_preset _ (Hrows row Hin)) as [-> _].
  - intros [row [Hin <-]].
    destruct (sanitizeReactionKey_preset _ (Hrows row Hin)) as [Hsame Htruthy].
    split; [now apply Hrows|].
    apply list_elem_of_filter. split; [exact Htruthy|].
    apply list_elem_of_fmap. exists (reaction_key row). split; [now rewrite Hsame|].
    apply list_elem_of_filter. split; [exact Htruthy|].
    apply list_elem_of_fmap. exists (reaction_key row). split; [now rewrite Hsame|].
    apply list_elem_of_fmap. eauto.
Qed.

Lemma snapshot_count siteId postSlug viewer w k :
  let rows := filter (fun row => onPost siteId postSlug row = true) (reactions w) in
  Forall (fun row => reaction_key row ∈ map key REACTION_PRESETS) rows ->
  k ∈ map key REACTION_PRESETS ->
  shownCount k (fst (listPostReactionSnapshot siteId postSlug viewer w))
  = Z.of_nat (length (filter (fun row => reaction_key row = k) rows)).
Proof.
  cbv zeta. intros Hrows Hk. rewrite listPostReactionSnapshot_value. cbv zeta.
  rewrite shownCount_build by exact Hk. now apply countsOfRows_rows.
Qed.

Lemma snapshot_total siteId postSlug viewer w :
  let rows := filter (fun row => onPost siteId postSlug row = true) (reactions w) in
  Forall (fun row => reaction_key row ∈ map key REACTION_PRESETS) rows ->
  total (fst (listPostReactionSnapshot siteId postSlug viewer w))
  = Z.of_nat (length rows).
Proof.
  cbv zeta. intros Hrows. rewrite listPostReactionSnapshot_value. cbv zeta.
  rewrite total_build.
  rewrite <- (sum_by_key (map key REACTION_PRESETS) _ presets_NoDup Hrows).
  f_equal. apply map_ext. intros k. now apply countsOfRows_rows.
Qed.

Lemma snapshot_selected siteId postSlug viewer w k :
  let rows := filter (fun row => onPost siteId postSlug row = true) (reactions w) in
  let token := Reactor.sanitizeActorToken viewer in
  Forall (fun row => reaction_key row ∈ map key REACTION_PRESETS) rows ->
  k ∈ selectedKeys (fst (listPostReactionSnapshot siteId postSlug viewer w)) <->
  Js.truthy token = true
  /\ exists row, row ∈ rows /\ actor_token row = token /\ reaction_key row = k.
Proof.
  cbv zeta. intros Hrows. rewrite listPostReactionSnapshot_value. cbv zeta.
  rewrite selectedKeys_build.
  destruct (Js.truthy (Reactor.sanitizeActorToken viewer)).
  - rewrite selected_of_rows.
    + split.
      * intros [row [[Hmatch Hin]%list_elem_of_filter Hkey]].
        apply andb_prop in Hmatch as [Hpost Htoken%String.eqb_eq].
        split; [reflexivity|]. exists row. split; [|auto].
        apply list_elem_of_filter. auto.
      * intros [_ [row [[Hpost Hin]%list_elem_of_filter [Htoken Hkey]]]].
        exists row. split; [|exact Hkey]. apply list_elem_of_filter.
        split; [|exact Hin]. apply andb_true_intro. split; [exact Hpost|].
        now apply String.eqb_eq.
    + rewrite Forall_forall in Hrows. apply Forall_forall.
      intros row [Hmatch Hin]%list_elem_of_filter.
      apply andb_prop in Hmatch as [Hpost _]. apply Hrows.
      apply list_elem_of_filter. auto.
  - cbn [map]. rewrite filter_nil. split.
    + intros [_ Hin]. now apply elem_of_nil in Hin.
    + intros [Hfalse _]. discriminate.
Qed.

(** X10.  A snapshot shows the table: when the rows of the post hold preset
    keys, [listPostReactionSnapshot] shows for every preset the number of
    rows with its key, as total the number of rows of the post, and as the
    viewer's selected keys exactly the keys of the rows stored under the
    viewer's token (none for a viewer without a well-formed token). *)
Theorem listPostReactionSnapshot_shows_rows
    (siteId : Z) (postSlug viewer : string) (w : World) :
  let rows := filter (fun row => onPost siteId postSlug row = true) (reactions w) in
  let token := Reactor.sanitizeActorToken viewer in
  let snapshot := fst (listPostReactionSnapshot siteId postSlug viewer w) in
  Forall (fun row => reaction_key row ∈ map key REACTION_PRESETS) rows ->
  (forall k, k ∈ map key REACTION_PRESETS ->
     shownCount k snapshot
     = Z.of_nat (length (filter (fun row => reaction_key row = k) rows)))
  /\ total snapshot = Z.of_nat (length rows)
  /\ (forall k, k ∈ selectedKeys snapshot <->
        Js.truthy token = true
        /\ exists row, row ∈ rows /\ actor_token row = token /\ reaction_key row = k).
Proof.
  cbv zeta. intros Hrows. split; [|split].
  - intros k Hk. now apply snapshot_count.
  - now apply snapshot_total.
  - intros k. now apply snapshot_selected.
Qed.

Lemma listPostReactionSnapshot_shows_rows_witness :
  let w := snd (togglePostReaction "t3" 42 "intro" "lion" "abcdefabcdefabcdefab00"
             (snd (togglePostReaction "t2" 42 "other" "lion" "0123456789abcdef0123"
                (snd (togglePostReaction "t1" 42 "intro" "lion" "0123456789abcdef0123"
                        emptyWorld))))) in
  let snapshot := fst (listPostReactionSnapshot 42 "intro" "0123456789abcdef0123" w) in
  shownCount "lion" snapshot = 2 /\ total snapshot = 2.
Proof.
  intros w snapshot.
  destruct (listPostReactionSnapshot_shows_rows 42 "intro" "0123456789abcdef0123" w)
    as (Hcount & Htotal & _).
  - vm_compute. repeat constructor.
  - split; [|exact Htotal]. apply Hcount. repeat constructor.
Defined.

End ReactionSnapshotFacts.
Section ReactionToggleEffect.

Import Reactions ReactionTable.

Lemma drop_one (m : ReactionRow -> bool) (P : ReactionRow -> Prop)
    `{forall row, Decision (P row)} (identity : Z * string * string * string)
    (rows : list ReactionRow) :
  (forall row, m row = true <-> reactionIdentity row = identity) ->
  NoDup (map reactionIdentity rows) ->
  (exists found, found ∈ rows /\ m found = true /\ P found) ->
  (length (filter P (filter (fun row => m row = false) rows)) + 1)%nat
  = length (filter P rows).
Proof.
  intros Hm. induction rows as [|r rest IH]; intros Hunique (found & Hin & Hfound & HP).
  { now apply elem_of_nil in Hin. }
  cbn [map] in Hunique. apply NoDup_cons in Hunique as [Hnotin Hunique].
  rewrite (filter_cons (fun row => m row = false)), (filter_cons P r rest).
  destruct (m r) eqn:Em.
  - destruct (decide (true = false)); [discriminate|].
    assert (Hrest : Forall (fun row => m row = false) rest).
    { apply Forall_forall. intros row Hrow. destruct (m row) eqn:Erow; [|reflexivity].
      exfalso. apply Hnotin. apply Hm in Em. apply Hm in Erow. rewrite Em, <- Erow.
      now apply list_elem_of_fmap_2. }
    destruct (filter_none _ _ Hrest) as [_ ->].
    assert (HPr : P r).
    { apply elem_of_cons in Hin as [<-|Hin]; [exact HP|].
      rewrite Forall_forall in Hrest. rewrite (Hrest _ Hin) in Hfound. discriminate. }
    destruct (decide (P r)); [|contradiction]. cbn [length]. lia.
  - destruct (decide (false = false)); [|contradiction].
    rewrite filter_cons.
    assert (Hin' : found ∈ rest).
    { apply elem_of_cons in Hin as [->|Hin]; [congruence | exact Hin]. }
    specialize (IH Hunique (ex_intro _ found (conj Hin' (conj Hfound HP)))).
    destruct (decide (P r)); cbn [length]; lia.
Qed.

Lemma drop_others (m : ReactionRow -> bool) (P : ReactionRow -> Prop)
    `{forall row, Decision (P row)} (rows : list ReactionRow) :
  (forall row, row ∈ rows -> m row = true -> ~ P row) ->
  filter P (filter (fun row => m row = false) rows) = filter P rows.
Proof.
  induction rows as [|r rest IH]; intros Hother; [reflexivity|].
  rewrite (filter_cons (fun row => m row = false)), (filter_cons P r rest).
  assert (IH' : filter P (filter (fun row => m row = false) rest) = filter P rest).
  { apply IH. intros row Hrow. apply Hother. now apply list_elem_of_further. }
  destruct (m r) eqn:Em.
  - destruct (decide (true = false)); [discriminate|].
    destruct (decide (P r)) as [HP|_]; [|exact IH'].
    destruct (Hother r (list_elem_of_here _ _) Em HP).
  - destruct (decide (false = false)); [|contradiction].
    rewrite filter_cons, IH'. reflexivity.
Qed.

Lemma wellFormed_presets (P : ReactionRow -> Prop) `{forall row, Decision (P row)}
    (rows : list ReactionRow) :
  wellFormed rows ->
  Forall (fun row => reaction_key row ∈ map key REACTION_PRESETS) (filter P rows).
Proof.
  intros (_ & _ & Hrows). rewrite Forall_forall in Hrows. apply Forall_forall.
  intros row [_ Hin]%list_elem_of_filter. now apply Hrows.
Qed.

(** The rows of a post with a given key, before and after a toggle. *)
Lemma togglePostReaction_rows createdAt siteId postSlug reactionKey actorToken w
    (P : ReactionRow -> Prop) `{forall row, Decision (P row)} :
  let k := Reactions.sanitizeReactionKey reactionKey in
  let token := Reactor.sanitizeActorToken actorToken in
  let result := togglePostReaction createdAt siteId postSlug reactionKey actorToken w in
  NoDup (map reactionIdentity (reactions w)) ->
  Js.truthy k = true -> Js.truthy token = true ->
  ((forall row, isReaction siteId postSlug k token row = true -> P row) ->
   Z.of_nat (length (filter P (reactions (snd result))))
   = Z.of_nat (length (filter P (reactions w))) + (if fst result then 1 else -1))
  /\ ((forall row, isReaction siteId postSlug k token row = true -> ~ P row) ->
      filter P (reactions (snd result)) = filter P (reactions w))
  /\ (fst result = true <->
      Forall (fun row => isReaction siteId postSlug k token row = false) (reactions w))
  /\ (fst result = true <->
      exists row, row ∈ reactions (snd result)
                  /\ isReaction siteId postSlug k token row = true).
Proof.
  cbv zeta. intros Hunique Hkey Htoken.
  pose proof (togglePostReaction_cases createdAt siteId postSlug reactionKey actorToken
                w Hkey Htoken) as C.
  cbv zeta in C.
  set (m := isReaction siteId postSlug (Reactions.sanitizeReactionKey reactionKey)
              (Reactor.sanitizeActorToken actorToken)) in *.
  destruct (head (filter (fun row => m row = true) (reactions w))) as [found|] eqn:Ehead;
    destruct C as [-> ->].
  - assert (Hfound : found ∈ reactions w /\ m found = true).
    { assert (Hin : found ∈ filter (fun row => m row = true) (reactions w))
        by (destruct (filter _ (reactions w));
            [discriminate | injection Ehead as ->; apply list_elem_of_here]).
      apply list_elem_of_filter in Hin. tauto. }
    destruct Hfound as [Hin Hmatch]. split; [|split; [|split]].
    + intros HP.
      rewrite <- (drop_one m P (siteId, postSlug,
                                Reactions.sanitizeReactionKey reactionKey,
                                Reactor.sanitizeActorToken actorToken) (reactions w)).
      * lia.
      * intros row. apply isReaction_identity.
      * exact Hunique.
      * exists found. auto.
    + intros HP. apply drop_others. intros row _ Hrow. now apply HP.
    + split; [discriminate|]. intros Hnone. rewrite Forall_forall in Hnone.
      rewrite (Hnone _ Hin) in Hmatch. discriminate.
    + split; [discriminate|]. intros [row [[Hkept _]%list_elem_of_filter Hrow]].
      congruence.
  - apply head_filter_None in Ehead. split; [|split; [|split]].
    + intros HP. rewrite filter_app, length_app, filter_cons, filter_nil.
      destruct (decide (P _)) as [_|Hnot]; [cbn [length]; lia|].
      destruct Hnot. apply HP. apply isReaction_refl.
    + intros HP. rewrite filter_app, filter_cons, filter_nil.
      destruct (decide (P _)) as [Hyes|_]; [|apply app_nil_r].
      destruct (HP _ (isReaction_refl _ _ _ _ _ _) Hyes).
    + split; [intros _; exact Ehead | reflexivity].
    + split; [|reflexivity]. intros _. eexists. split.
      * apply elem_of_app. right. apply list_elem_of_here.
      * apply isReaction_refl.
Qed.

(** X11.  A toggle moves the count of its key by exactly one.  On a table
    as the schema wants it, a [togglePostReaction] with a preset key and a
    well-formed token that answers [true] raises the count the snapshot of
    the post shows for the key, and the total, by one, and the actor's
    snapshot then lists the key as selected; one that answers [false] lowers
    both by one and the key is no longer selected.  The answer is [true]
    exactly when the key was not selected before, and the counts of the
    other keys stay as they were. *)
Theorem togglePostReaction_changes_snapshot
    (createdAt : string) (siteId : Z) (postSlug reactionKey actorToken : string)
    (w : World) :
  let k := Reactions.sanitizeReactionKey reactionKey in
  let result := togglePostReaction createdAt siteId postSlug reactionKey actorToken w in
  let before := fst (listPostReactionSnapshot siteId postSlug actorToken w) in
  let after := fst (listPostReactionSnapshot siteId postSlug actorToken (snd result)) in
  wellFormed (reactions w) ->
  Js.truthy k = true ->
  Js.truthy (Reactor.sanitizeActorToken actorToken) = true ->
  shownCount k after = shownCount k before + (if fst result then 1 else -1)
  /\ total after = total before + (if fst result then 1 else -1)
  /\ (k ∈ selectedKeys after <-> fst result = true)
  /\ (k ∈ selectedKeys before <-> fst result = false)
  /\ (forall k', k' ∈ map key REACTION_PRESETS -> k' <> k ->
        shownCount k' after = shownCount k' before).
Proof.
  cbv zeta. intros Hwell Hkey Htoken.
  pose proof (sanitizeReactionKey_out _ Hkey) as Hpreset.
  assert (Hbefore : Forall (fun row => reaction_key row ∈ map key REACTION_PRESETS)
            (filter (fun row => onPost siteId postSlug row = true) (reactions w)))
    by (now apply wellFormed_presets).
  assert (Hafter : Forall (fun row => reaction_key row ∈ map key REACTION_PRESETS)
            (filter (fun row => onPost siteId postSlug row = true)
               (reactions (snd (togglePostReaction createdAt siteId postSlug
                                  reactionKey actorToken w))))).
  { destruct Hwell as (_ & _ & Hstored).
    pose proof (togglePostReaction_stored createdAt siteId postSlug reactionKey
                  actorToken w Hstored) as Hstored'.
    cbv zeta in Hstored'. rewrite Forall_forall in Hstored'. apply Forall_forall.
    intros row [_ Hin]%list_elem_of_filter. now apply Hstored'. }
  assert (Hmatch : forall row,
            isReaction siteId postSlug (Reactions.sanitizeReactionKey reactionKey)
              (Reactor.sanitizeActorToken actorToken) row = true
            <-> onPost siteId postSlug row = true
                /\ reaction_key row = Reactions.sanitizeReactionKey reactionKey
                /\ actor_token row = Reactor.sanitizeActorToken actorToken).
  { intros row. unfold isReaction. rewrite !andb_true_iff, !String.eqb_eq. tauto. }
  destruct Hwell as (_ & Hunique & _).
  split; [|split; [|split; [|split]]].
  - rewrite !snapshot_count by assumption. rewrite !list_filter_filter.
    apply (togglePostReaction_rows createdAt siteId postSlug reactionKey actorToken w
             _ Hunique Hkey Htoken).
    intros row Hrow%Hmatch. tauto.
  - rewrite !snapshot_total by assumption.
    apply (togglePostReaction_rows createdAt siteId postSlug reactionKey actorToken w
             _ Hunique Hkey Htoken).
    intros row Hrow%Hmatch. tauto.
  - rewrite snapshot_selected by assumption. cbv zeta.
    destruct (togglePostReaction_rows createdAt siteId postSlug reactionKey actorToken w
                (fun _ => True) Hunique Hkey Htoken) as (_ & _ & _ & ->).
    split.
    + intros [_ [row [[Hpost Hin]%list_elem_of_filter [Hactor Hrow]]]].
      exists row. split; [exact Hin|]. apply Hmatch. auto.
    + intros [row [Hin Hrow%Hmatch]]. split; [exact Htoken|]. exists row.
      split; [apply list_elem_of_filter|]; tauto.
  - rewrite snapshot_selected by assumption. cbv zeta.
    destruct (togglePostReaction_rows createdAt siteId postSlug reactionKey actorToken w
                (fun _ => True) Hunique Hkey Htoken) as (_ & _ & Hnone & _).
    split.
    + intros [_ [row [[Hpost Hin]%list_elem_of_filter [Hactor Hrow]]]].
      destruct (fst (togglePostReaction _ _ _ _ _ w)); [|reflexivity].
      destruct Hnone as [Hnone _]. specialize (Hnone eq_refl).
      rewrite Forall_forall in Hnone. specialize (Hnone row Hin).
      assert (isReaction siteId postSlug (Reactions.sanitizeReactionKey reactionKey)
                (Reactor.sanitizeActorToken actorToken) row = true)
        by (apply Hmatch; auto).
      congruence.
    + intros Hresult. split; [exact Htoken|].
      destruct (decide (Exists (fun row =>
                  isReaction siteId postSlug (Reactions.sanitizeReactionKey reactionKey)
                    (Reactor.sanitizeActorToken actorToken) row = true) (reactions w)))
        as [Hsome|Hnot].
      * apply Exists_exists in Hsome as [row [Hin Hrow%Hmatch]].
        exists row. split; [apply list_elem_of_filter|]; tauto.
      * exfalso. destruct Hnone as [_ Hnone]. rewrite Hnone in Hresult; [discriminate|].
        apply Forall_forall. intros row Hin.
        destruct (isReaction _ _ _ _ row) eqn:E; [|reflexivity].
        destruct Hnot. apply Exists_exists. exists row.
        split; [exact Hin | exact E].
  - intros k' Hk' Hne. rewrite !snapshot_count by assumption.
    rewrite !list_filter_filter. f_equal. f_equal.
    apply (togglePostReaction_rows createdAt siteId postSlug reactionKey actorToken w
             _ Hunique Hkey Htoken).
    intros row Hrow%Hmatch [Hk _]. destruct Hrow as (_ & Hrow & _). congruence.
Qed.

Lemma togglePostReaction_changes_snapshot_witness :
  let w := snd (togglePostReaction "t1" 42 "intro" "lion" "abcdefabcdefabcdefab00"
                  emptyWorld) in
  let result := togglePostReaction "t2" 42 "intro" " LION " "0123456789abcdef0123" w in
  shownCount "lion"
    (fst (listPostReactionSnapshot 42 "intro" "0123456789abcdef0123" (snd result)))
  = shownCount "lion"
      (fst (listPostReactionSnapshot 42 "intro" "0123456789abcdef0123" w))
    + (if fst result then 1 else -1).
Proof.
  intros w result.
  apply (togglePostReaction_changes_snapshot "t2" 42 "intro" " LION "
           "0123456789abcdef0123" w).
  - vm_compute. repeat split; repeat constructor; try (rewrite elem_of_nil; tauto).
  - reflexivity.
  - reflexivity.
Defined.

End ReactionToggleEffect.

(** ** Two toggles in a row *)

Section ReactionToggleTwice.

Import Reactions ReactionTable.

(** C2, as amended.  Two successive [togglePostReaction] calls with the same
    preset key and well-formed token return opposite results: [true] and
    then [false] exactly when the actor holds no row for the key on the post
    before the first call, [false] and then [true] when the actor does.  In
    the first case the [reactions] table is again what it was.  In both
    cases the count that every snapshot of the post shows for the key is
    again what it was, on a table that satisfies the [UNIQUE] constraint and
    stores preset keys, as every table written by the code does. *)
Theorem togglePostReaction_twice
    (createdAt1 createdAt2 : string) (siteId : Z)
    (postSlug reactionKey actorToken viewer : string) (w : World) :
  reactionKey ∈ map key REACTION_PRESETS ->
  Js.forallb Js.isLowerHex actorToken && Js.lengthIn 20 64 actorToken = true ->
  let first := togglePostReaction createdAt1 siteId postSlug reactionKey actorToken w in
  let second :=
    togglePostReaction createdAt2 siteId postSlug reactionKey actorToken (snd first) in
  let shown world :=
    shownCount reactionKey (fst (listPostReactionSnapshot siteId postSlug viewer world)) in
  (fst first = true <->
   Forall (fun row => isReaction siteId postSlug reactionKey actorToken row = false)
          (reactions w))
  /\ fst second = negb (fst first)
  /\ (fst first = true ->
      reactions (snd second) = reactions w /\ shown (snd second) = shown w)
  /\ (NoDup (map reactionIdentity (reactions w)) ->
      Forall (fun row => reaction_key row ∈ map key REACTION_PRESETS) (reactions w) ->
      shown (snd second) = shown w).
Proof.
  intros Hpreset Hvalid. cbv beta zeta.
  destruct (sanitizeReactionKey_preset _ Hpreset) as [Hkey Hkey'].
  destruct (sanitizeActorToken_valid _ Hvalid) as [Htoken Htoken'].
  set (m := isReaction siteId postSlug reactionKey actorToken).
  pose proof (togglePostReaction_cases createdAt1 siteId postSlug reactionKey actorToken w)
    as First.
  rewrite Hkey, Htoken in First. specialize (First Hkey' Htoken'). cbv zeta in First.
  fold m in First.
  pose proof (togglePostReaction_cases createdAt2 siteId postSlug reactionKey actorToken
                (snd (togglePostReaction createdAt1 siteId postSlug reactionKey
                        actorToken w))) as Second.
  rewrite Hkey, Htoken in Second. specialize (Second Hkey' Htoken'). cbv zeta in Second.
  fold m in Second.
  set (new := {| reaction_id := _; reaction_site_id := siteId;
                 reaction_post_slug := postSlug; reaction_key := reactionKey;
                 actor_token := actorToken; reaction_created_at := createdAt2 |})
    in Second.
  assert (Hnew : m new = true) by apply isReaction_refl.
  destruct (head (filter (fun row => m row = true) (reactions w))) as [found|] eqn:Ehead.
  - (* the actor holds the reaction: delete, then insert *)
    destruct First as [Hfirst Hrows1].
    assert (Hfound : found ∈ reactions w /\ m found = true).
    { assert (Hin : found ∈ filter (fun row => m row = true) (reactions w))
        by (destruct (filter _ (reactions w));
            [discriminate | injection Ehead as ->; apply list_elem_of_here]).
      apply list_elem_of_filter in Hin. tauto. }
    destruct Hfound as [Hin Hmatch].
    assert (Hgone : filter (fun row => m row = true)
                      (filter (fun row => m row = false) (reactions w)) = []).
    { apply filter_none. apply Forall_forall.
      intros row [Hrow _]%list_elem_of_filter. exact Hrow. }
    rewrite Hrows1, Hgone in Second. cbn [head] in Second.
    destruct Second as [Hsecond Hrows2].
    rewrite Hfirst, Hsecond. split; [|split; [reflexivity | split; [discriminate|]]].
    + split; [discriminate|]. intros Hnone. rewrite Forall_forall in Hnone.
      rewrite (Hnone _ Hin) in Hmatch. discriminate.
    + intros Hunique Hstored.
      assert (Hstored2 :
                Forall (fun row => reaction_key row ∈ map key REACTION_PRESETS)
                  (filter (fun row => onPost siteId postSlug row = true)
                     (reactions (snd (togglePostReaction createdAt2 siteId postSlug
                        reactionKey actorToken
                        (snd (togglePostReaction createdAt1 siteId postSlug reactionKey
                                actorToken w))))))).
      { rewrite Hrows2. apply Forall_forall.
        intros row [_ Hrow]%list_elem_of_filter.
        apply elem_of_app in Hrow as [[_ Hrow]%list_elem_of_filter | Hrow].
        - rewrite Forall_forall in Hstored. now apply Hstored.
        - apply list_elem_of_singleton in Hrow as ->. exact Hpreset. }
      assert (Hstored0 :
                Forall (fun row => reaction_key row ∈ map key REACTION_PRESETS)
                  (filter (fun row => onPost siteId postSlug row = true) (reactions w))).
      { apply Forall_forall. intros row [_ Hrow]%list_elem_of_filter.
        rewrite Forall_forall in Hstored. now apply Hstored. }
      rewrite !snapshot_count by assumption. rewrite !list_filter_filter. f_equal.
      rewrite Hrows2, filter_app, length_app, filter_cons, filter_nil.
      assert (Hon : onPost siteId postSlug found = true /\ reaction_key found = reactionKey).
      { unfold m, isReaction in Hmatch.
        apply andb_prop in Hmatch as [[Hpost Hk%String.eqb_eq]%andb_prop _]. auto. }
      destruct (decide (reaction_key new = reactionKey /\ onPost siteId postSlug new = true))
        as [_|Hnot].
      * cbn [length].
        apply (drop_one m _ (siteId, postSlug, reactionKey, actorToken) (reactions w)).
        -- intros row. apply isReaction_identity.
        -- exact Hunique.
        -- exists found. tauto.
      * destruct Hnot. split; [reflexivity|].
        unfold onPost. cbn. now rewrite Z.eqb_refl, String.eqb_refl.
  - (* no row: insert, then delete *)
    apply head_filter_None in Ehead.
    destruct (filter_none _ _ Ehead) as [Hnone Hsame].
    destruct First as [Hfirst Hrows1].
    rewrite Hrows1, !filter_app, Hnone, Hsame, !filter_cons, !filter_nil in Second.
    unfold m in Second. rewrite isReaction_refl in Second.
    destruct (decide (true = true)); [|contradiction].
    destruct (decide (true = false)); [discriminate|].
    cbn [app head] in Second. rewrite app_nil_r in Second.
    destruct Second as [Hsecond Hback].
    rewrite Hfirst, Hsecond.
    assert (Hshown : shownCount reactionKey
              (fst (listPostReactionSnapshot siteId postSlug viewer
                 (snd (togglePostReaction createdAt2 siteId postSlug reactionKey actorToken
                    (snd (togglePostReaction createdAt1 siteId postSlug reactionKey
                            actorToken w))))))
            = shownCount reactionKey
                (fst (listPostReactionSnapshot siteId postSlug viewer w)))
      by (f_equal; now apply listPostReactionSnapshot_reads_reactions).
    split; [tauto|]. split; [reflexivity|]. split; [auto|]. intros _ _. exact Hshown.
Qed.

(** The actor holds the reaction: the calls return [false] and [true], and
    the count is 1 before and after. *)
Lemma togglePostReaction_twice_witness :
  let toggle createdAt := togglePostReaction createdAt 42 "intro" "lion"
                            "0123456789abcdef0123" in
  let shown world :=
    shownCount "lion"
      (fst (listPostReactionSnapshot 42 "intro" "0123456789abcdef0123" world)) in
  let w := snd (toggle "t0" emptyWorld) in
  let first := toggle "t1" w in
  let second := toggle "t2" (snd first) in
  fst first = false /\ fst second = true
  /\ shown (snd second) = shown w /\ shown w = 1.
Proof.
  intros toggle shown w first second.
  destruct (togglePostReaction_twice "t1" "t2" 42 "intro" "lion" "0123456789abcdef0123"
              "0123456789abcdef0123" w) as (_ & Hsecond & _ & Hshown).
  - cbn. rewrite elem_of_cons. left. reflexivity.
  - vm_compute. reflexivity.
  - split; [reflexivity|]. split; [exact Hsecond|]. split; [|reflexivity].
    apply Hshown.
    + vm_compute. apply NoDup_singleton.
    + vm_compute. constructor; [|constructor]. apply list_elem_of_here.
Defined.

(** C2, as stated, fails when the actor already holds the reaction: the two
    calls then return [false] and [true]. *)
Lemma togglePostReaction_twice_when_active :
  let w := snd (togglePostReaction "t0" 42 "intro" "lion" "0123456789abcdef0123"
                  emptyWorld) in
  let first := togglePostReaction "t1" 42 "intro" "lion" "0123456789abcdef0123" w in
  let second :=
    togglePostReaction "t2" 42 "intro" "lion" "0123456789abcdef0123" (snd first) in
  "lion" ∈ map key REACTION_PRESETS
  /\ Js.forallb Js.isLowerHex "0123456789abcdef0123"
       && Js.lengthIn 20 64 "0123456789abcdef0123" = true
  /\ fst first = false /\ fst second = true
  /\ ~ (fst first = true /\ fst second = false).
Proof.
  cbv zeta. split; [cbn; rewrite elem_of_cons; left; reflexivity|].
  split; [vm_compute; reflexivity|].
  split; [vm_compute; reflexivity|]. split; [vm_compute; reflexivity|].
  vm_compute. intros [H _]. discriminate H.
Qed.

End ReactionToggleTwice.

Section ReactionsAcrossPosts.

Import Reactions ReactionTable PostCleanup.

Lemma filter_andb {A} (a b : A -> bool) (l : list A) :
  filter (fun x => a x && b x = true) l
  = filter (fun x => b x = true) (filter (fun x => a x = true) l).
Proof.
  induction l as [|x l IH]; [reflexivity|].
  rewrite (filter_cons (fun x => a x && b x = true)), (filter_cons (fun x => a x = true)).
  destruct (a x) eqn:Ea; cbn [andb].
  - destruct (decide (true = true)); [|contradiction]. rewrite filter_cons, IH.
    destruct (decide (b x = true)); reflexivity.
  - destruct (decide (false = true)); [discriminate | exact IH].
Qed.

Lemma groupByKey_keys (rows1 rows2 : list ReactionRow) :
  map reaction_key rows1 = map reaction_key rows2 ->
  groupByKey rows1 = groupByKey rows2.
Proof.
  intros Hkeys. unfold groupByKey. rewrite Hkeys. apply map_ext. intros k. do 2 f_equal.
  assert (Hcount : forall rows : list ReactionRow,
            length (filter (fun row => reaction_key row = k) rows)
            = length (filter (fun k' => k' = k) (map reaction_key rows))).
  { induction rows as [|row rows IH]; [reflexivity|].
    cbn [map]. rewrite !filter_cons.
    destruct (decide (reaction_key row = k)); cbn [length]; now rewrite IH. }
  now rewrite !Hcount, Hkeys.
Qed.

Lemma keys_of_actor (token : string) (rows1 rows2 : list ReactionRow) :
  map (fun row => (reaction_key row, actor_token row)) rows1
  = map (fun row => (reaction_key row, actor_token row)) rows2 ->
  map reaction_key (filter (fun row => String.eqb (actor_token row) token = true) rows1)
  = map reaction_key (filter (fun row => String.eqb (actor_token row) token = true) rows2).
Proof.
  revert rows2. induction rows1 as [|r1 rows1 IH]; intros [|r2 rows2] Hsame;
    try discriminate; [reflexivity|].
  cbn [map] in Hsame. injection Hsame as Hkey Hactor Hrest.
  rewrite !filter_cons, Hactor.
  destruct (decide (String.eqb (actor_token r2) token = true)); cbn [map];
    rewrite (IH _ Hrest); congruence.
Qed.

(** A snapshot is made of the keys and actors of the rows of its post. *)
Lemma snapshot_of_post siteId1 postSlug1 siteId2 postSlug2 viewer w1 w2 :
  map (fun row => (reaction_key row, actor_token row))
    (filter (fun row => onPost siteId1 postSlug1 row = true) (reactions w1))
  = map (fun row => (reaction_key row, actor_token row))
      (filter (fun row => onPost siteId2 postSlug2 row = true) (reactions w2)) ->
  fst (listPostReactionSnapshot siteId1 postSlug1 viewer w1)
  = fst (listPostReactionSnapshot siteId2 postSlug2 viewer w2).
Proof.
  intros Hsame. rewrite !listPostReactionSnapshot_value. cbv zeta.
  rewrite !filter_andb.
  rewrite (keys_of_actor _ _ _ Hsame).
  apply (f_equal (map fst)) in Hsame. rewrite !map_map in Hsame. cbn [fst] in Hsame.
  rewrite (groupByKey_keys _ _ Hsame). reflexivity.
Qed.

Lemma onPost_other siteId postSlug siteId' postSlug' row :
  (siteId', postSlug') <> (siteId, postSlug) ->
  onPost siteId postSlug row = true -> onPost siteId' postSlug' row = false.
Proof.
  unfold onPost. intros Hother [Hsite%Z.eqb_eq Hslug%String.eqb_eq]%andb_prop.
  destruct (Z.eqb_spec (reaction_site_id row) siteId'); [|reflexivity].
  destruct (String.eqb_spec (reaction_post_slug row) postSlug'); [|reflexivity].
  destruct Hother. congruence.
Qed.

(** The rows a toggle on one post leaves alone. *)
Lemma togglePostReaction_other_rows createdAt siteId postSlug reactionKey actorToken w
    (p : ReactionRow -> bool) :
  (forall row, onPost siteId postSlug row = true -> p row = false) ->
  filter (fun row => p row = true)
    (reactions (snd (togglePostReaction createdAt siteId postSlug reactionKey
                       actorToken w)))
  = filter (fun row => p row = true) (reactions w).
Proof.
  intros Hother.
  assert (Hrejected : reactions (snd (ensureReactionsTable w)) = reactions w).
  { unfold ensureReactionsTable, ensureSchema.
    now destruct (reactionsTableReady (memo w)). }
  destruct (Js.truthy (Reactions.sanitizeReactionKey reactionKey)) eqn:Hkey.
  2:{ rewrite togglePostReaction_rejected by auto. cbn [snd]. now rewrite Hrejected. }
  destruct (Js.truthy (Reactor.sanitizeActorToken actorToken)) eqn:Htoken.
  2:{ rewrite togglePostReaction_rejected by auto. cbn [snd]. now rewrite Hrejected. }
  pose proof (togglePostReaction_cases createdAt siteId postSlug reactionKey actorToken
                w Hkey Htoken) as C.
  cbv zeta in C.
  destruct (head (filter _ (reactions w))) as [found|]; destruct C as [_ ->].
  - apply drop_others. intros row _ Hrow Hp. unfold isReaction in Hrow.
    apply andb_prop in Hrow as [[Hpost _]%andb_prop _]. rewrite (Hother _ Hpost) in Hp.
    discriminate.
  - rewrite filter_app, filter_cons, filter_nil.
    destruct (decide (p _ = true)) as [Hp|_]; [|apply app_nil_r].
    rewrite Hother in Hp; [discriminate|]. unfold onPost. cbn.
    now rewrite Z.eqb_refl, String.eqb_refl.
Qed.

(** X12.  A toggle on one post is not seen on another: whatever
    [togglePostReaction] is called with, the snapshot of every other post,
    and of every post of another site, is the same before and after, for
    every viewer. *)
Theorem togglePostReaction_other_posts
    (createdAt : string) (siteId : Z) (postSlug reactionKey actorToken : string)
    (siteId' : Z) (postSlug' viewer : string) (w : World) :
  (siteId', postSlug') <> (siteId, postSlug) ->
  fst (listPostReactionSnapshot siteId' postSlug' viewer
         (snd (togglePostReaction createdAt siteId postSlug reactionKey actorToken w)))
  = fst (listPostReactionSnapshot siteId' postSlug' viewer w).
Proof.
  intros Hother. apply snapshot_of_post. f_equal.
  apply (togglePostReaction_other_rows createdAt siteId postSlug reactionKey actorToken w
           (onPost siteId' postSlug')).
  intros row. now apply onPost_other.
Qed.

Lemma togglePostReaction_other_posts_witness :
  let w := snd (togglePostReaction "t1" 42 "intro" "lion" "abcdefabcdefabcdefab00"
                  emptyWorld) in
  fst (listPostReactionSnapshot 42 "intro" "abcdefabcdefabcdefab00"
         (snd (togglePostReaction "t2" 7 "intro" "lion" "abcdefabcdefabcdefab00" w)))
  = fst (listPostReactionSnapshot 42 "intro" "abcdefabcdefabcdefab00" w).
Proof.
  intros w.
  apply (togglePostReaction_other_posts "t2" 7 "intro" "lion" "abcdefabcdefabcdefab00"
           42 "intro" "abcdefabcdefabcdefab00" w).
  intros [= Hsite].
Defined.

(** The snapshot of a post without rows. *)
Lemma snapshot_without_rows siteId postSlug viewer w :
  filter (fun row => onPost siteId postSlug row = true) (reactions w) = [] ->
  let snapshot := fst (listPostReactionSnapshot siteId postSlug viewer w) in
  total snapshot = 0 /\ selectedKeys snapshot = []
  /\ Forall (fun item => count item = 0 /\ selected item = false) (items snapshot).
Proof.
  intros Hnone. cbv zeta. rewrite listPostReactionSnapshot_value. cbv zeta.
  rewrite filter_andb, Hnone, filter_nil.
  replace (if Js.truthy (Reactor.sanitizeActorToken viewer)
           then filter (fun k => Js.truthy k = true)
                  (map Reactions.sanitizeReactionKey (map reaction_key []))
           else []) with (@nil string) by (now destruct (Js.truthy _)).
  vm_compute. repeat split; repeat constructor.
Qed.

(** X13.  [deleteReactionsByPost] empties the post and nothing else: every
    snapshot of the post then shows total 0, count 0 for every preset and no
    selected key, while the snapshots of the other posts and of the posts
    of other sites are as before. *)
Theorem deleteReactionsByPost_clears
    (siteId : Z) (postSlug : string) (siteId' : Z) (postSlug' viewer : string)
    (w : World) :
  let w' := snd (deleteReactionsByPost siteId postSlug w) in
  let cleared := fst (listPostReactionSnapshot siteId postSlug viewer w') in
  (total cleared = 0 /\ selectedKeys cleared = []
   /\ Forall (fun item => count item = 0 /\ selected item = false) (items cleared))
  /\ ((siteId', postSlug') <> (siteId, postSlug) ->
      fst (listPostReactionSnapshot siteId' postSlug' viewer w')
      = fst (listPostReactionSnapshot siteId' postSlug' viewer w)).
Proof.
  cbv zeta.
  assert (Hrows : reactions (snd (deleteReactionsByPost siteId postSlug w))
                  = filter (fun row => onPost siteId postSlug row = false) (reactions w)).
  { unfold deleteReactionsByPost, ensureReactionsTable, ensureSchema, bind, modify.
    now destruct (reactionsTableReady (memo w)). }
  split.
  - apply snapshot_without_rows. rewrite Hrows. apply filter_all_false.
    apply Forall_forall. now intros row [Hrow _]%list_elem_of_filter.
  - intros Hother. apply snapshot_of_post. f_equal. rewrite Hrows.
    apply (drop_others (onPost siteId postSlug)).
    intros row _ Hrow Hother'. rewrite (onPost_other _ _ _ _ _ Hother Hrow) in Hother'.
    discriminate.
Qed.

Lemma deleteReactionsByPost_clears_witness :
  let w := snd (togglePostReaction "t2" 42 "other" "fire" "abcdefabcdefabcdefab00"
             (snd (togglePostReaction "t1" 42 "intro" "lion" "abcdefabcdefabcdefab00"
                     emptyWorld))) in
  let w' := snd (deleteReactionsByPost 42 "intro" w) in
  fst (listPostReactionSnapshot 42 "other" "abcdefabcdefabcdefab00" w')
  = fst (listPostReactionSnapshot 42 "other" "abcdefabcdefabcdefab00" w).
Proof.
  intros w w'.
  apply (deleteReactionsByPost_clears 42 "intro" 42 "other" "abcdefabcdefabcdefab00" w).
  intros [= Hslug].
Defined.

Lemma NoDup_map_compare {A B C} (f : A -> B) (g : A -> C) (l : list A) :
  (forall x y, x ∈ l -> y ∈ l -> g x = g y -> f x = f y) ->
  NoDup (map f l) -> NoDup (map g l).
Proof.
  induction l as [|x l IH]; intros Hfg Hf; cbn [map]; [apply NoDup_nil_2|].
  cbn [map] in Hf. apply NoDup_cons in Hf as [Hnotin Hf]. apply NoDup_cons. split.
  - intros [y [Hy Hin]]%list_elem_of_fmap. apply Hnotin.
    rewrite (Hfg x y (list_elem_of_here _ _) (list_elem_of_further _ _ _ Hin) Hy).
    now apply list_elem_of_fmap_2.
  - apply IH; [|exact Hf]. intros a b Ha Hb. apply Hfg; now apply list_elem_of_further.
Qed.

(** X14.  [moveReactionsToPost] carries the reactions along when a post
    changes its slug: for two different slugs, on a table that satisfies
    the [UNIQUE] constraint and holds no reaction under the new slug, the
    [UPDATE] goes through, every snapshot of the new slug is the snapshot
    the old slug had, and the old slug is left with a total of 0.  When the
    [UNIQUE] constraint stops the [UPDATE], the table is unchanged. *)
Theorem moveReactionsToPost_carries
    (siteId : Z) (fromPostSlug toPostSlug viewer : string) (w : World) :
  let result := moveReactionsToPost siteId fromPostSlug toPostSlug w in
  (fromPostSlug <> toPostSlug ->
   NoDup (map reactionIdentity (reactions w)) ->
   Forall (fun row => onPost siteId toPostSlug row = false) (reactions w) ->
   fst result = Some tt
   /\ fst (listPostReactionSnapshot siteId toPostSlug viewer (snd result))
      = fst (listPostReactionSnapshot siteId fromPostSlug viewer w)
   /\ total (fst (listPostReactionSnapshot siteId fromPostSlug viewer (snd result))) = 0)
  /\ (fst result = None -> reactions (snd result) = reactions w).
Proof.
  cbv zeta.
  assert (Hcases :
    let moved := map (moveReaction siteId fromPostSlug toPostSlug) (reactions w) in
    if bool_decide (NoDup (map reactionIdentity moved))
    then fst (moveReactionsToPost siteId fromPostSlug toPostSlug w) = Some tt
         /\ reactions (snd (moveReactionsToPost siteId fromPostSlug toPostSlug w)) = moved
    else fst (moveReactionsToPost siteId fromPostSlug toPostSlug w) = None
         /\ reactions (snd (moveReactionsToPost siteId fromPostSlug toPostSlug w))
            = reactions w).
  { cbv zeta.
    unfold moveReactionsToPost, ensureReactionsTable, ensureSchema, bind, modify, get, ret.
    destruct (reactionsTableReady (memo w));
      cbn [fst snd reactions set_statements set_memo];
      destruct (bool_decide (NoDup _)); split; reflexivity. }
  cbv zeta in Hcases. split.
  - intros Hne Hunique Hfree. rewrite Forall_forall in Hfree.
    assert (Hmoved : forall row,
              onPost siteId fromPostSlug row = true ->
              onPost siteId toPostSlug (moveReaction siteId fromPostSlug toPostSlug row)
              = true
              /\ onPost siteId fromPostSlug
                   (moveReaction siteId fromPostSlug toPostSlug row) = false
              /\ reaction_key (moveReaction siteId fromPostSlug toPostSlug row)
                 = reaction_key row
              /\ actor_token (moveReaction siteId fromPostSlug toPostSlug row)
                 = actor_token row).
    { intros row Hrow. unfold moveReaction. rewrite Hrow.
      unfold onPost in *. cbn. apply andb_prop in Hrow as [-> _].
      rewrite String.eqb_refl. cbn [andb].
      destruct (String.eqb_spec toPostSlug fromPostSlug); [congruence | auto]. }
    assert (Hstays : forall row,
              onPost siteId fromPostSlug row = false ->
              moveReaction siteId fromPostSlug toPostSlug row = row).
    { intros row Hrow. unfold moveReaction. now rewrite Hrow. }
    rewrite bool_decide_eq_true_2 in Hcases.
    2:{ rewrite map_map.
        apply (NoDup_map_compare reactionIdentity); [|exact Hunique].
        intros x y Hx Hy Hsame.
        destruct (onPost siteId fromPostSlug x) eqn:Ex,
                 (onPost siteId fromPostSlug y) eqn:Ey.
        - unfold moveReaction in Hsame. rewrite Ex, Ey in Hsame.
          unfold onPost in Ex, Ey.
          apply andb_prop in Ex as [Hxs%Z.eqb_eq Hxp%String.eqb_eq].
          apply andb_prop in Ey as [Hys%Z.eqb_eq Hyp%String.eqb_eq].
          unfold reactionIdentity in *. cbn in Hsame. congruence.
        - exfalso. destruct (Hmoved x Ex) as (Hto & _).
          rewrite (Hstays y Ey) in Hsame.
          assert (onPost siteId toPostSlug y = true).
          { unfold onPost in *. unfold reactionIdentity in Hsame.
            injection Hsame as Hs Hp _ _. now rewrite <- Hs, <- Hp. }
          rewrite (Hfree y Hy) in H. discriminate.
        - exfalso. destruct (Hmoved y Ey) as (Hto & _).
          rewrite (Hstays x Ex) in Hsame.
          assert (onPost siteId toPostSlug x = true).
          { unfold onPost in *. unfold reactionIdentity in Hsame.
            injection Hsame as Hs Hp _ _. now rewrite Hs, Hp. }
          rewrite (Hfree x Hx) in H. discriminate.
        - now rewrite (Hstays x Ex), (Hstays y Ey) in Hsame. }
    destruct Hcases as [-> Hrows]. split; [reflexivity|]. split.
    + apply snapshot_of_post. rewrite Hrows. clear Hrows Hunique.
      induction (reactions w) as [|row rows IH]; [reflexivity|].
      cbn [map]. rewrite !filter_cons.
      assert (IH' := IH (fun r Hr => Hfree r (list_elem_of_further _ _ _ Hr))).
      destruct (onPost siteId fromPostSlug row) eqn:Erow.
      * destruct (Hmoved row Erow) as (-> & _ & Hkey & Hactor).
        destruct (decide (true = true)); [|contradiction].
        cbn [map]. now rewrite Hkey, Hactor, IH'.
      * rewrite (Hstays row Erow), (Hfree row (list_elem_of_here _ _)).
        destruct (decide (false = true)); [discriminate | exact IH'].
    + apply snapshot_without_rows. rewrite Hrows. apply filter_all_false.
      apply Forall_forall. intros moved [row [-> Hin]]%list_elem_of_fmap.
      destruct (onPost siteId fromPostSlug row) eqn:Erow.
      * now destruct (Hmoved row Erow) as (_ & -> & _).
      * now rewrite (Hstays row Erow).
  - intros Hnone. destruct (bool_decide (NoDup _)); destruct Hcases as [Hresult Hrows];
      [congruence | exact Hrows].
Qed.

Lemma moveReactionsToPost_carries_witness :
  let w := snd (togglePostReaction "t2" 42 "draft-1" "fire" "0123456789abcdef0123"
             (snd (togglePostReaction "t1" 42 "draft-1" "lion" "abcdefabcdefabcdefab00"
                     emptyWorld))) in
  let result := moveReactionsToPost 42 "draft-1" "hello-world" w in
  fst result = Some tt
  /\ fst (listPostReactionSnapshot 42 "hello-world" "0123456789abcdef0123" (snd result))
     = fst (listPostReactionSnapshot 42 "draft-1" "0123456789abcdef0123" w)
  /\ total (fst (listPostReactionSnapshot 42 "draft-1" "0123456789abcdef0123"
                   (snd result))) = 0.
Proof.
  intros w result.
  apply (moveReactionsToPost_carries 42 "draft-1" "hello-world" "0123456789abcdef0123" w).
  - discriminate.
  - apply (bool_decide_unpack _). vm_compute. reflexivity.
  - repeat constructor.
Defined.

End ReactionsAcrossPosts.

(** ** Comments: pages, writes and the handler *)

Section CommentPages.

Import Comments CommentStore.

Lemma chunks_concat {A} (n m : nat) (l : list A) :
  (0 < n)%nat -> (length l <= m * n)%nat ->
  concat (map (fun i => take n (drop (i * n) l)) (seq 0 m)) = l.
Proof.
  intros Hn. revert l. induction m as [|m IH]; intros l Hlen.
  - destruct l; [reflexivity | cbn in Hlen; lia].
  - cbn [seq map concat]. rewrite <- seq_shift, map_map. cbn [Nat.mul Nat.add drop].
    transitivity (take n l ++ drop n l)%list; [|apply take_drop]. f_equal.
    rewrite <- (IH (drop n l)) by (rewrite length_drop; lia).
    f_equal. apply map_ext. intros i. rewrite drop_drop. do 2 f_equal; lia.
Qed.

Lemma listPostComments_pages_cover_aux siteId postSlug pageSize w :
  concat
    (map (fun p => pageComments (fst (listPostComments siteId postSlug (Z.of_nat p)
                                        pageSize w)))
         (seq 1 (Z.to_nat (totalPages (fst (listPostComments siteId postSlug 1
                                              pageSize w))))))
  = map toComment
      (merge_sort newerFirst
         (filter (fun row => onPost siteId postSlug row = true) (comments w))).
Proof.
  set (n := Z.min (Z.max (Js.numberOr pageSize COMMENTS_PAGE_SIZE) 1) 80).
  set (matching := filter (fun row => onPost siteId postSlug row = true) (comments w)).
  set (pages := Z.max 1 (Js.ceilDiv (Z.of_nat (length matching)) n)).
  assert (Hn : 1 <= n <= 80) by (subst n; lia).
  assert (Hfirst : totalPages (fst (listPostComments siteId postSlug 1 pageSize w))
                   = pages)
    by (destruct (listPostComments_value siteId postSlug 1 pageSize w) as [-> _];
        reflexivity).
  rewrite Hfirst.
  assert (Hpage : forall i, (i < Z.to_nat pages)%nat ->
            pageComments (fst (listPostComments siteId postSlug (Z.of_nat (S i))
                                 pageSize w))
            = map toComment (take (Z.to_nat n)
                (drop (i * Z.to_nat n) (merge_sort newerFirst matching)))).
  { intros i Hi.
    destruct (listPostComments_value siteId postSlug (Z.of_nat (S i)) pageSize w)
      as [-> _].
    cbn [pageComments]. fold n matching pages. do 3 f_equal.
    unfold Js.numberOr. destruct (Z.eqb_spec (Z.of_nat (S i)) 0); [lia|].
    rewrite Z.max_l, Z.min_l by lia.
    rewrite Z2Nat.inj_mul by lia. f_equal. lia. }
  rewrite <- seq_shift, map_map.
  rewrite (map_ext_in _ (fun i => map toComment (take (Z.to_nat n)
             (drop (i * Z.to_nat n) (merge_sort newerFirst matching)))))
    by (intros i Hi%in_seq; apply Hpage; lia).
  rewrite <- (map_map (fun i => take (Z.to_nat n) (drop (i * Z.to_nat n) _))
                      (map toComment)).
  rewrite <- concat_map. f_equal. apply chunks_concat; [lia|].
  rewrite merge_sort_Permutation.
  pose proof (ceilDiv_covers (Z.of_nat (length matching)) n ltac:(lia)).
  subst pages. nia.
Qed.

(** X15.  The pages of [listPostComments] cover the comments of a post:
    read one after the other, pages 1 to [totalPages] hold every comment of
    the post exactly once, in the order of the sorted list, none of another
    post or site, and no page holds more than [pageSize] comments. *)
Theorem listPostComments_pages_cover
    (siteId : Z) (postSlug : string) (pageSize : Z) (w : World) :
  let pageOf p := fst (listPostComments siteId postSlug p pageSize w) in
  let pages := map (fun p => pageComments (pageOf (Z.of_nat p)))
                   (seq 1 (Z.to_nat (totalPages (pageOf 1)))) in
  concat pages
  = map toComment
      (merge_sort newerFirst
         (filter (fun row => onPost siteId postSlug row = true) (comments w)))
  /\ Z.of_nat (length (concat pages)) = total (pageOf 1)
  /\ Forall (fun comments => Z.of_nat (length comments) <= Comments.pageSize (pageOf 1))
       pages
  /\ Forall (fun comment => Comments.postSlug comment = postSlug) (concat pages).
Proof.
  cbv beta zeta. rewrite listPostComments_pages_cover_aux.
  destruct (listPostComments_value siteId postSlug 1 pageSize w) as [Hfirst _].
  cbv zeta in Hfirst. rewrite Hfirst. cbn [totalPages total Comments.pageSize].
  split; [reflexivity|]. split; [|split].
  - now rewrite length_map, merge_sort_Permutation.
  - apply Forall_forall. intros comments [p [-> _]]%list_elem_of_fmap.
    pose proof (listPostComments_fields siteId postSlug (Z.of_nat p) pageSize w)
      as (_ & _ & _ & _ & Hlen).
    cbv zeta in Hlen. lia.
  - apply Forall_forall. intros comment [row [-> Hrow]]%list_elem_of_fmap.
    rewrite merge_sort_Permutation in Hrow.
    apply list_elem_of_filter in Hrow as [Hrow _]. unfold onPost in Hrow.
    apply andb_prop in Hrow as [_ Hslug%String.eqb_eq]. exact Hslug.
Qed.

End CommentPages.

Section CommentWrites.

Import Comments CommentStore PostCleanup.

Lemma listPostComments_reads_post siteId postSlug page pageSize w1 w2 :
  filter (fun row => onPost siteId postSlug row = true) (comments w1)
  = filter (fun row => onPost siteId postSlug row = true) (comments w2) ->
  fst (listPostComments siteId postSlug page pageSize w1)
  = fst (listPostComments siteId postSlug page pageSize w2).
Proof.
  intros Hsame.
  destruct (listPostComments_value siteId postSlug page pageSize w1) as [-> _].
  destruct (listPostComments_value siteId postSlug page pageSize w2) as [-> _].
  now rewrite Hsame.
Qed.

Lemma comment_onPost_other siteId postSlug siteId' postSlug' row :
  (siteId', postSlug') <> (siteId, postSlug) ->
  onPost siteId postSlug row = true -> onPost siteId' postSlug' row = false.
Proof.
  unfold onPost. intros Hother [Hsite%Z.eqb_eq Hslug%String.eqb_eq]%andb_prop.
  destruct (Z.eqb_spec (comment_site_id row) siteId'); [|reflexivity].
  destruct (String.eqb_spec (comment_post_slug row) postSlug'); [|reflexivity].
  destruct Hother. congruence.
Qed.

Lemma createComment_value seq createdAt siteId postSlug authorName authorSiteSlug
    text w :
  let id := nextRowId seq (map comment_id (comments w)) in
  let result :=
    createComment seq createdAt siteId postSlug authorName authorSiteSlug text w in
  fst result
  = {| Comments.id := id; Comments.postSlug := postSlug;
       Comments.authorName := authorName; Comments.authorSiteSlug := authorSiteSlug;
       commentContent := text; Comments.createdAt := createdAt |}
  /\ comments (snd result)
     = (comments w ++
          [{| comment_id := id; comment_site_id := siteId;
              comment_post_slug := postSlug; author_name := authorName;
              author_site_slug := authorSiteSlug; content := text;
              comment_created_at := createdAt |}])%list
  /\ posts (snd result) = posts w
  /\ site_notifications (snd result) = site_notifications w
  /\ site_telegram_settings (snd result) = site_telegram_settings w
  /\ relay_calls (snd result) = relay_calls w.
Proof.
  cbv zeta.
  unfold createComment, ensureCommentsTable, ensureSchema, bind, modify, get, ret.
  destruct (commentsTableReady (memo w)); repeat split; reflexivity.
Qed.

(** X16.  A created comment is stored under a fresh id and shows up in the
    list of its post: whatever the table and its id counter hold,
    [createComment] returns an id above the counter and above every id of
    the table, the total of the post's list grows by one, some page of the
    list holds the returned comment as it was returned, and the list of
    every other post is as before. *)
Theorem createComment_listed
    (seq : Z) (createdAt : string) (siteId : Z)
    (postSlug authorName authorSiteSlug text : string) (page pageSize : Z)
    (w : World) :
  let result :=
    createComment seq createdAt siteId postSlug authorName authorSiteSlug text w in
  let listed p := fst (listPostComments siteId postSlug p pageSize (snd result)) in
  seq < Comments.id (fst result)
  /\ Forall (fun row => comment_id row < Comments.id (fst result)) (comments w)
  /\ total (listed page)
     = total (fst (listPostComments siteId postSlug page pageSize w)) + 1
  /\ (exists p, fst result ∈ pageComments (listed (Z.of_nat p)))
  /\ (forall siteId' postSlug',
        (siteId', postSlug') <> (siteId, postSlug) ->
        fst (listPostComments siteId' postSlug' page pageSize (snd result))
        = fst (listPostComments siteId' postSlug' page pageSize w)).
Proof.
  cbv beta zeta.
  destruct (createComment_value seq createdAt siteId postSlug authorName authorSiteSlug
              text w) as (Hvalue & Hrows & _).
  cbv zeta in Hvalue, Hrows.
  assert (Hself : onPost siteId postSlug
            {| comment_id := nextRowId seq (map comment_id (comments w));
               comment_site_id := siteId; comment_post_slug := postSlug;
               author_name := authorName; author_site_slug := authorSiteSlug;
               content := text; comment_created_at := createdAt |} = true)
    by (unfold onPost; cbn; now rewrite Z.eqb_refl, String.eqb_refl).
  split; [|split; [|split; [|split]]].
  - rewrite Hvalue. cbn. unfold nextRowId. lia.
  - rewrite Hvalue. cbn [Comments.id].
    pose proof (nextRowId_above seq (map comment_id (comments w))) as Habove.
    rewrite Forall_forall in Habove. apply Forall_forall. intros row Hrow.
    apply Habove. now apply list_elem_of_fmap_2.
  - destruct (listPostComments_value siteId postSlug page pageSize
                (snd (createComment seq createdAt siteId postSlug authorName
                        authorSiteSlug text w))) as [-> _].
    destruct (listPostComments_value siteId postSlug page pageSize w) as [-> _].
    cbn [total]. rewrite Hrows, filter_app, filter_cons, filter_nil.
    destruct (decide (onPost _ _ _ = true)); [|contradiction].
    rewrite length_app. cbn [length]. lia.
  - pose proof (listPostComments_pages_cover_aux siteId postSlug pageSize
                (snd (createComment seq createdAt siteId postSlug authorName
                        authorSiteSlug text w))) as Hcover.
    assert (Hin : fst (createComment seq createdAt siteId postSlug authorName
                         authorSiteSlug text w)
                  ∈ map toComment
                      (merge_sort newerFirst
                         (filter (fun row => onPost siteId postSlug row = true)
                            (comments (snd (createComment seq createdAt siteId postSlug
                                              authorName authorSiteSlug text w)))))).
    { rewrite Hvalue, Hrows. apply list_elem_of_fmap. eexists. split.
      2:{ rewrite merge_sort_Permutation. apply list_elem_of_filter.
          split; [exact Hself|]. apply elem_of_app. right. apply list_elem_of_here. }
      unfold toComment, Js.orElse. cbn. now destruct (Js.truthy authorSiteSlug) eqn:E;
        [|destruct authorSiteSlug; [|discriminate]]. }
    rewrite <- Hcover in Hin. apply list_elem_of_In, in_concat in Hin as [comments [Hpage%list_elem_of_In Hin%list_elem_of_In]].
    apply list_elem_of_fmap in Hpage as [p [-> _]]. eauto.
  - intros siteId' postSlug' Hother. apply listPostComments_reads_post.
    rewrite Hrows, filter_app, filter_cons, filter_nil.
    rewrite (comment_onPost_other _ _ _ _ _ Hother Hself).
    destruct (decide (false = true)); [discriminate | apply app_nil_r].
Qed.

Lemma createComment_listed_witness :
  let result := createComment 7 "2024-05-01T10:00:00.000Z" 42 "intro" "Ann" "ann"
                  "Hello" emptyWorld in
  Comments.id (fst result) = 8
  /\ total (fst (listPostComments 42 "intro" 1 20 (snd result))) = 1
  /\ fst (listPostComments 42 "other" 1 20 (snd result))
     = fst (listPostComments 42 "other" 1 20 emptyWorld).
Proof.
  intros result.
  destruct (createComment_listed 7 "2024-05-01T10:00:00.000Z" 42 "intro" "Ann" "ann"
              "Hello" 1 20 emptyWorld) as (_ & _ & Htotal & _ & Hother).
  split; [reflexivity|]. split; [exact Htotal|].
  apply Hother. intros [= Hslug].
Defined.

Lemma deleteComment_value siteId commentId w :
  let result := deleteComment siteId commentId w in
  fst result
  = (0 <? Z.of_nat (length (filter (fun row => isComment siteId commentId row = true)
                              (comments w))))
  /\ comments (snd result)
     = filter (fun row => isComment siteId commentId row = false) (comments w).
Proof.
  cbv zeta.
  unfold deleteComment, ensureCommentsTable, ensureSchema, bind, modify, get, ret.
  destruct (commentsTableReady (memo w)); split; reflexivity.
Qed.

(** X17.  [deleteComment] deletes within one site only: it answers [true]
    exactly when the site has a comment with the id, it then removes that
    comment and no other row, a comment of another site with the same id
    stays, and a second call for the same id answers [false]. *)
Theorem deleteComment_own_site (siteId commentId : Z) (w : World) :
  let result := deleteComment siteId commentId w in
  (fst result = true <->
   exists row, row ∈ comments w /\ comment_id row = commentId
               /\ comment_site_id row = siteId)
  /\ (forall row, row ∈ comments (snd result) <->
        row ∈ comments w
        /\ ~ (comment_id row = commentId /\ comment_site_id row = siteId))
  /\ (fst result = false -> comments (snd result) = comments w)
  /\ fst (deleteComment siteId commentId (snd result)) = false.
Proof.
  cbv zeta.
  destruct (deleteComment_value siteId commentId w) as [Hresult Hrows].
  cbv zeta in Hresult, Hrows.
  assert (Hmatch : forall row,
            isComment siteId commentId row = true
            <-> comment_id row = commentId /\ comment_site_id row = siteId)
    by (intros row; unfold isComment; now rewrite andb_true_iff, !Z.eqb_eq).
  assert (Hmember : forall row,
            row ∈ comments (snd (deleteComment siteId commentId w)) <->
            row ∈ comments w
            /\ ~ (comment_id row = commentId /\ comment_site_id row = siteId)).
  { intros row. rewrite Hrows, list_elem_of_filter, <- Hmatch.
    destruct (isComment siteId commentId row); split; intros [H1 H2]; split;
      congruence || auto. }
  split; [|split; [exact Hmember|split]].
  - rewrite Hresult. split.
    + intros Hsome%Z.ltb_lt.
      destruct (filter _ (comments w)) as [|row rest] eqn:E; [cbn in Hsome; lia|].
      assert (Hin : row ∈ filter (fun row => isComment siteId commentId row = true)
                          (comments w)) by (rewrite E; apply list_elem_of_here).
      apply list_elem_of_filter in Hin as [Hrow%Hmatch Hin]. exists row. tauto.
    + intros (row & Hin & Hid & Hsite). apply Z.ltb_lt.
      assert (Hin' : row ∈ filter (fun row => isComment siteId commentId row = true)
                           (comments w))
        by (apply list_elem_of_filter; split; [apply Hmatch|]; auto).
      destruct (filter _ (comments w)); [now apply elem_of_nil in Hin'|]. cbn. lia.
  - rewrite Hresult. intros Hnone%Z.ltb_ge. rewrite Hrows.
    destruct (filter (fun row => isComment siteId commentId row = true) (comments w))
      as [|row rest] eqn:E; [|cbn in Hnone; lia].
    clear Hrows Hresult Hmember Hnone. induction (comments w) as [|row rows IH];
      [reflexivity|].
    rewrite filter_cons in E. rewrite filter_cons.
    destruct (isComment siteId commentId row) eqn:Erow.
    + destruct (decide (true = true)); [discriminate | contradiction].
    + destruct (decide (false = true)); [discriminate|].
      destruct (decide (false = false)); [|contradiction]. f_equal. now apply IH.
  - destruct (deleteComment_value siteId commentId
                (snd (deleteComment siteId commentId w))) as [-> _].
    apply Z.ltb_ge.
    destruct (filter _ (comments (snd (deleteComment siteId commentId w))))
      as [|row rest] eqn:E; [cbn; lia|].
    exfalso.
    assert (Hin : row ∈ filter (fun row => isComment siteId commentId row = true)
                        (comments (snd (deleteComment siteId commentId w))))
      by (rewrite E; apply list_elem_of_here).
    apply list_elem_of_filter in Hin as [Hrow%Hmatch Hin].
    apply Hmember in Hin as [_ Hnot]. contradiction.
Qed.

Lemma deleteComment_own_site_witness :
  let w := snd (createComment 0 "t1" 42 "intro" "Ann" EmptyString "Hello" emptyWorld) in
  fst (deleteComment 7 1 w) = false /\ comments (snd (deleteComment 7 1 w)) = comments w.
Proof.
  intros w. destruct (deleteComment_own_site 7 1 w) as (_ & _ & Hsame & _).
  split; [reflexivity|]. apply Hsame. reflexivity.
Defined.

(** X18.  When a post is deleted or changes its slug its comments follow:
    after [deleteCommentsByPost] the list of the post has total 0, after
    [moveCommentsToPost] to a different slug the total of the new slug is
    its own plus that of the old slug, whose total is then 0; either way
    the list of every other post is as before. *)
Theorem comments_follow_post
    (siteId : Z) (postSlug toPostSlug : string) (page pageSize : Z) (w : World) :
  let count site slug world :=
    total (fst (listPostComments site slug page pageSize world)) in
  let deleted := snd (deleteCommentsByPost siteId postSlug w) in
  let moved := snd (moveCommentsToPost siteId postSlug toPostSlug w) in
  count siteId postSlug deleted = 0
  /\ (postSlug <> toPostSlug ->
      count siteId toPostSlug moved
      = count siteId toPostSlug w + count siteId postSlug w
      /\ count siteId postSlug moved = 0)
  /\ (forall siteId' postSlug',
        (siteId', postSlug') <> (siteId, postSlug) ->
        fst (listPostComments siteId' postSlug' page pageSize deleted)
        = fst (listPostComments siteId' postSlug' page pageSize w)
        /\ ((siteId', postSlug') <> (siteId, toPostSlug) ->
            fst (listPostComments siteId' postSlug' page pageSize moved)
            = fst (listPostComments siteId' postSlug' page pageSize w))).
Proof.
  cbv beta zeta.
  assert (Hdeleted : comments (snd (deleteCommentsByPost siteId postSlug w))
                     = filter (fun row => onPost siteId postSlug row = false)
                         (comments w)).
  { unfold deleteCommentsByPost, ensureCommentsTable, ensureSchema, bind, modify.
    now destruct (commentsTableReady (memo w)). }
  assert (Hmoved : comments (snd (moveCommentsToPost siteId postSlug toPostSlug w))
                   = map (moveComment siteId postSlug toPostSlug) (comments w)).
  { unfold moveCommentsToPost, ensureCommentsTable, ensureSchema, bind, modify.
    now destruct (commentsTableReady (memo w)). }
  assert (Htotal : forall site slug world,
            total (fst (listPostComments site slug page pageSize world))
            = Z.of_nat (length (filter (fun row => onPost site slug row = true)
                                  (comments world)))).
  { intros site slug world.
    now destruct (listPostComments_value site slug page pageSize world) as [-> _]. }
  split; [|split].
  - rewrite Htotal, Hdeleted, filter_all_false; [reflexivity|].
    apply Forall_forall. now intros row [Hrow _]%list_elem_of_filter.
  - intros Hne. rewrite !Htotal, Hmoved. clear Hdeleted Hmoved Htotal.
    induction (comments w) as [|row rows [IHto IHfrom]]; [split; reflexivity|].
    cbn [map].
    destruct (onPost siteId postSlug row) eqn:Efrom.
    + assert (Hold : onPost siteId toPostSlug row = false).
      { apply (comment_onPost_other siteId postSlug); [|exact Efrom].
        intros [= E]. congruence. }
      assert (Hnew : onPost siteId toPostSlug (moveComment siteId postSlug toPostSlug row)
                     = true
                     /\ onPost siteId postSlug
                          (moveComment siteId postSlug toPostSlug row) = false).
      { unfold moveComment. rewrite Efrom. unfold onPost in *. cbn.
        apply andb_prop in Efrom as [-> _]. rewrite String.eqb_refl. cbn [andb].
        destruct (String.eqb_spec toPostSlug postSlug); [congruence | auto]. }
      destruct Hnew as [Hnew_to Hnew_from].
      rewrite (filter_cons_True (fun r => onPost siteId toPostSlug r = true)
                 (moveComment siteId postSlug toPostSlug row)) by exact Hnew_to.
      rewrite (filter_cons_False (fun r => onPost siteId toPostSlug r = true) row)
        by (rewrite Hold; discriminate).
      rewrite (filter_cons_True (fun r => onPost siteId postSlug r = true) row)
        by exact Efrom.
      rewrite (filter_cons_False (fun r => onPost siteId postSlug r = true)
                 (moveComment siteId postSlug toPostSlug row))
        by (rewrite Hnew_from; discriminate).
      cbn [length]. split; lia.
    + assert (Hstay : moveComment siteId postSlug toPostSlug row = row)
        by (unfold moveComment; now rewrite Efrom).
      rewrite Hstay.
      rewrite !(filter_cons_False (fun r => onPost siteId postSlug r = true) row)
        by (rewrite Efrom; discriminate).
      rewrite !(filter_cons (fun r => onPost siteId toPostSlug r = true) row).
      destruct (decide (onPost siteId toPostSlug row = true)); cbn [length]; split; lia.
  - intros siteId' postSlug' Hother. split.
    + apply listPostComments_reads_post. rewrite Hdeleted.
      clear Hdeleted Hmoved Htotal. induction (comments w) as [|row rows IH];
        [reflexivity|].
      rewrite (filter_cons (fun row => onPost siteId postSlug row = false)).
      rewrite (filter_cons _ row rows).
      destruct (onPost siteId postSlug row) eqn:Erow.
      * rewrite (comment_onPost_other _ _ _ _ _ Hother Erow).
        destruct (decide (true = false)); [discriminate|].
        destruct (decide (false = true)); [discriminate | exact IH].
      * destruct (decide (false = false)); [|contradiction].
        rewrite filter_cons, IH. reflexivity.
    + intros Hother'. apply listPostComments_reads_post. rewrite Hmoved.
      clear Hdeleted Hmoved Htotal. induction (comments w) as [|row rows IH];
        [reflexivity|].
      cbn [map].
      destruct (onPost siteId postSlug row) eqn:Erow.
      * assert (Hnew : onPost siteId' postSlug'
                         (moveComment siteId postSlug toPostSlug row) = false).
        { apply (comment_onPost_other siteId toPostSlug); [exact Hother'|].
          unfold moveComment. rewrite Erow. unfold onPost in *. cbn.
          apply andb_prop in Erow as [-> _]. now rewrite String.eqb_refl. }
        rewrite (filter_cons_False _ (moveComment siteId postSlug toPostSlug row))
          by (rewrite Hnew; discriminate).
        rewrite (filter_cons_False _ row)
          by (rewrite (comment_onPost_other _ _ _ _ _ Hother Erow); discriminate).
        exact IH.
      * assert (Hstay : moveComment siteId postSlug toPostSlug row = row)
          by (unfold moveComment; now rewrite Erow).
        rewrite Hstay, !filter_cons, IH. reflexivity.
Qed.

Lemma comments_follow_post_witness :
  let w := snd (createComment 1 "t2" 42 "hello-world" "Bob" EmptyString "Hi"
             (snd (createComment 0 "t1" 42 "draft-1" "Ann" EmptyString "Hello"
                     emptyWorld))) in
  let moved := snd (moveCommentsToPost 42 "draft-1" "hello-world" w) in
  total (fst (listPostComments 42 "hello-world" 1 20 moved)) = 2
  /\ total (fst (listPostComments 42 "draft-1" 1 20 moved)) = 0.
Proof.
  intros w moved.
  destruct (comments_follow_post 42 "draft-1" "hello-world" 1 20 w) as (_ & Hmove & _).
  apply Hmove. discriminate.
Defined.

End CommentWrites.

(** ** What a request leaves alone *)

Section Frames.

Lemma keeps_ret {X A} (f : World -> X) (a : A) : keeps f (ret a).
Proof. intros w. reflexivity. Qed.

Lemma keeps_get {X A} (f : World -> X) (g : World -> A) : keeps f (get g).
Proof. intros w. reflexivity. Qed.

Lemma keeps_bind {X A B} (f : World -> X) (m : M A) (k : A -> M B) :
  keeps f m -> (forall a, keeps f (k a)) -> keeps f (bind m k).
Proof.
  intros Hm Hk w. unfold bind. specialize (Hm w). destruct (m w) as [a w1].
  cbn [snd] in Hm. now rewrite Hk.
Qed.

Lemma keeps_modify {X} (f : World -> X) (g : World -> World) :
  (forall w, f (g w) = f w) -> keeps f (modify g).
Proof. intros Hg w. apply Hg. Qed.

Lemma keeps_issue {X} (f : World -> X) (s : Stmt) :
  (forall l w, f (set_statements l w) = f w) -> keeps f (issue s).
Proof. intros Hf w. apply Hf. Qed.

Lemma keeps_ensureSchema {X} (f : World -> X) ready mark ddl :
  (forall l w, f (set_statements l w) = f w) ->
  (forall m w, f (set_memo m w) = f w) ->
  keeps f (ensureSchema ready mark ddl).
Proof.
  intros Hs Hm w. unfold ensureSchema. destruct (ready (memo w)); cbn [snd];
    [reflexivity|]. now rewrite Hm, Hs.
Qed.

End Frames.

Ltac frame_step :=
  first
    [ apply keeps_ret
    | apply keeps_get
    | apply keeps_issue; reflexivity
    | apply keeps_modify; reflexivity
    | apply keeps_ensureSchema; reflexivity
    | apply keeps_bind; [|intros ?]
    | match goal with
      | |- keeps _ (if ?b then _ else _) => destruct b
      | |- keeps _ (match ?x with _ => _ end) => destruct x
      end ].

Ltac frame := cbv zeta; repeat frame_step.

Section HandlerFrames.

Variable aesGcmDecrypt : list Z -> list Z -> list Z -> option string.

Lemma consumeRateLimit_keeps {X} (f : World -> X) sweep nowMs rateKey windowMs
    maxAttempts :
  (forall l w, f (set_statements l w) = f w) ->
  (forall m w, f (set_memo m w) = f w) ->
  (forall t w, f (set_rate_limits t w) = f w) ->
  keeps f (RateLimiter.consumeRateLimit sweep nowMs rateKey windowMs maxAttempts).
Proof.
  intros Hs Hm Ht.
  unfold RateLimiter.consumeRateLimit, RateLimiter.maybeScheduleRateLimitGc,
    ensureRateLimitsTable.
  cbv zeta.
  repeat first
    [ apply keeps_ret | apply keeps_get
    | apply keeps_issue; exact Hs
    | apply keeps_modify; intros ?; apply Ht
    | apply keeps_ensureSchema; [exact Hs | exact Hm]
    | apply keeps_bind; [|intros ?]
    | match goal with
      | |- keeps _ (if ?b then _ else _) => destruct b
      | |- keeps _ (match ?x with _ => _ end) => destruct x
      end ].
Qed.

Lemma getPostMeta_keeps {X} (f : World -> X) siteId postSlug includeDrafts :
  (forall l w, f (set_statements l w) = f w) ->
  keeps f (getPostMeta siteId postSlug includeDrafts).
Proof.
  intros Hs. unfold getPostMeta.
  apply keeps_bind; [apply keeps_issue; exact Hs | intros ?; apply keeps_get].
Qed.


End HandlerFrames.

Section RefusedRequests.

Variable aesGcmDecrypt : list Z -> list Z -> list Z -> option string.

(** X19.  [POST /api/reactions] writes a reaction, queues a notification
    and sets the actor cookie only on the way to status 200: a request it
    answers with 429, 400, 404 or 500, a body that cannot be read among
    them, leaves the [reactions], [site_notifications], [comments] and
    [page_views] tables as they were, sends nothing to the relay and carries
    no cookie. *)
Theorem postApiReactions_refused
    (sweepRate : bool) (nowMs : Z) (entropy : list Z) (toggledAt : string)
    (sweepNotifications : bool) (queuedAt : string) (env : Env) (request : Request)
    (site : Site) (read : JsonBody Api.ReactionBody) (w : World) :
  let result :=
    Api.postApiReactions aesGcmDecrypt sweepRate nowMs entropy toggledAt
      sweepNotifications queuedAt env request site read w in
  Api.status (fst result) <> 200 ->
  Api.status (fst result) ∈ [429; 400; 404; 500]
  /\ Api.setCookie (fst result) = None
  /\ reactions (snd result) = reactions w
  /\ site_notifications (snd result) = site_notifications w
  /\ relay_calls (snd result) = relay_calls w
  /\ comments (snd result) = comments w
  /\ page_views (snd result) = page_views w.
Proof.
  cbv zeta. unfold Api.postApiReactions, bind.
  pose proof (fun X (f : World -> X) Hs Hm Ht =>
                consumeRateLimit_keeps f sweepRate nowMs (Api.reactionRateKey request site)
                  Api.REACTION_RATE_WINDOW_MS Api.REACTION_RATE_MAX_ATTEMPTS Hs Hm Ht w)
    as Hrate.
  destruct (RateLimiter.consumeRateLimit _ _ _ _ _ w) as [reactionRate w1].
  cbn [snd] in Hrate.
  assert (Hkept1 : reactions w1 = reactions w
                   /\ site_notifications w1 = site_notifications w
                   /\ relay_calls w1 = relay_calls w /\ comments w1 = comments w
                   /\ page_views w1 = page_views w)
    by (repeat split; apply Hrate; reflexivity).
  clear Hrate. destruct Hkept1 as (R1 & N1 & C1 & M1 & V1).
  destruct (negb (RateLimiter.allowed reactionRate)).
  { intros _. unfold ret. cbn [fst snd Api.status Api.setCookie Api.failed].
    split; [apply list_elem_of_here | repeat split; assumption]. }
  destruct read as [error|payload].
  { intros _. unfold ret. cbn [fst snd Api.status Api.setCookie Api.failed].
    split; [do 3 apply list_elem_of_further; apply list_elem_of_here
           | repeat split; assumption]. }
  destruct (negb (Js.truthy (Js.toLowerCase (Js.trim (Api.bodyPostSlug payload))))).
  { intros _. unfold ret. cbn [fst snd Api.status Api.setCookie Api.failed].
    split; [apply list_elem_of_further, list_elem_of_here | repeat split; assumption]. }
  destruct (negb (Js.truthy (Reactions.sanitizeReactionKey
                               (Api.bodyReactionKey payload)))).
  { intros _. unfold ret. cbn [fst snd Api.status Api.setCookie Api.failed].
    split; [apply list_elem_of_further, list_elem_of_here | repeat split; assumption]. }
  pose proof (fun X (f : World -> X) Hs =>
                getPostMeta_keeps f (site_id site)
                  (Js.toLowerCase (Js.trim (Api.bodyPostSlug payload))) false Hs w1)
    as Hmeta.
  destruct (getPostMeta _ _ false w1) as [post w2]. cbn [snd] in Hmeta.
  assert (Hkept2 : reactions w2 = reactions w
                   /\ site_notifications w2 = site_notifications w
                   /\ relay_calls w2 = relay_calls w /\ comments w2 = comments w
                   /\ page_views w2 = page_views w).
  { repeat split; (etransitivity; [apply Hmeta; reflexivity | assumption]). }
  clear Hmeta. destruct post as [post|].
  2:{ intros _. unfold ret. cbn [fst snd Api.status Api.setCookie Api.failed].
      split; [|tauto]. do 2 apply list_elem_of_further. apply list_elem_of_here. }
  destruct (Reactor.resolveReactorToken entropy request env) as [reactor|].
  2:{ intros _. unfold ret. cbn [fst snd Api.status Api.setCookie Api.failed].
      split; [|tauto]. do 3 apply list_elem_of_further. apply list_elem_of_here. }
  destruct (Reactions.togglePostReaction _ _ _ _ _ w2) as [active w3].
  destruct ((if active then _ else ret tt) w3) as [[] w4].
  destruct (Reactions.listPostReactionSnapshot _ _ _ w4) as [snapshot w5].
  cbn. intros Hstatus. now destruct Hstatus.
Qed.






End RefusedRequests.

Lemma postApiReactions_refused_witness :
  let request := {| cf_connecting_ip := "203.0.113.7"; user_agent := "Mozilla/5.0";
                    cookie := EmptyString |} in
  let site := {| site_id := 42; site_slug := "alice" |} in
  let env := {| SESSION_SECRET := "s3cret"; BASE_DOMAIN := "example.org" |} in
  let payload := {| Api.bodyPostSlug := "no-such-post"; Api.bodyReactionKey := "lion" |} in
  let result :=
    Api.postApiReactions (fun _ _ _ => None) false 1000 [] "t1" false "t2" env request site
      (Parsed payload) emptyWorld in
  Api.status (fst result) = 404 /\ reactions (snd result) = [].
Proof.
  intros request site env payload result.
  destruct (postApiReactions_refused (fun _ _ _ => None) false 1000 [] "t1" false "t2"
              env request site (Parsed payload) emptyWorld) as (_ & _ & Hrows & _).
  - vm_compute. discriminate.
  - split; [reflexivity | exact Hrows].
Defined.



(** ** The notification inbox *)

Section InboxFacts.

Import Inbox.

(** The value of [listSiteNotifications]. *)
Lemma listSiteNotifications_value siteId page pageSize w :
  let safePageSize := Z.min (Z.max (Js.numberOr pageSize NOTIFICATION_PAGE_SIZE) 1) 100 in
  let own := filter (fun row => ofSite siteId row = true) (site_notifications w) in
  let total := Z.of_nat (length own) in
  let totalPages := Z.max 1 (Js.ceilDiv total safePageSize) in
  let boundedPage := Z.min (Z.max (Js.numberOr page 1) 1) totalPages in
  fst (listSiteNotifications siteId page pageSize w)
  = {| notifications :=
         map toNotification
           (take (Z.to_nat safePageSize)
              (drop (Z.to_nat ((boundedPage - 1) * safePageSize))
                 (merge_sort Notify.newerFirst own)));
       unread :=
         Z.of_nat (length (filter (fun row => ofSite siteId row && isUnread row = true)
                             (site_notifications w)));
       total := total; Inbox.page := boundedPage; Inbox.pageSize := safePageSize;
       totalPages := totalPages;
       hasPrev := 1 <? boundedPage; hasNext := boundedPage <? totalPages |}
  /\ site_notifications (snd (listSiteNotifications siteId page pageSize w))
     = site_notifications w.
Proof.
  cbv zeta.
  unfold listSiteNotifications, ensureNotificationTables, ensureSchema, bind, get, ret.
  destruct (notificationTablesReady (memo w));
    cbn [fst snd site_notifications set_statements set_memo];
    rewrite !(Z.max_l (Z.of_nat _) 0) by lia; split; reflexivity.
Qed.

Lemma markSiteNotificationsRead_value now siteId all ids w :
  site_notifications (snd (markSiteNotificationsRead now siteId all ids w))
  = map (fun row =>
           if ofSite siteId row
              && (all || bool_decide (notification_id row ∈ selectedIds ids))
           then markRead now row else row)
        (site_notifications w).
Proof.
  unfold markSiteNotificationsRead, ensureNotificationTables, ensureSchema, bind, modify,
    ret.
  assert (Hnone : map (fun row =>
                         if ofSite siteId row
                            && bool_decide (notification_id row ∈ @nil Z)
                         then markRead now row else row) (site_notifications w)
                  = site_notifications w).
  { rewrite <- (map_id (site_notifications w)) at 2. apply map_ext. intros row.
    rewrite bool_decide_eq_false_2 by apply not_elem_of_nil.
    now rewrite andb_false_r. }
  destruct (notificationTablesReady (memo w)), all;
    cbn [fst snd site_notifications set_statements set_memo set_site_notifications orb];
    try (apply map_ext; intros row; now rewrite andb_true_r);
    (destruct (selectedIds ids) as [|id chosen] eqn:E;
     [cbn [snd site_notifications set_statements set_memo]; symmetry; exact Hnone
     | reflexivity]).
Qed.

Lemma inbox_reads_site siteId page pageSize w1 w2 :
  filter (fun row => ofSite siteId row = true) (site_notifications w1)
  = filter (fun row => ofSite siteId row = true) (site_notifications w2) ->
  fst (listSiteNotifications siteId page pageSize w1)
  = fst (listSiteNotifications siteId page pageSize w2).
Proof.
  intros Hsame.
  destruct (listSiteNotifications_value siteId page pageSize w1) as [-> _].
  destruct (listSiteNotifications_value siteId page pageSize w2) as [-> _].
  rewrite !filter_andb, Hsame. reflexivity.
Qed.

(** X21.  Marking everything read empties the unread count of the site and
    touches nothing else: after [markSiteNotificationsRead] with [all], the
    inbox of the site shows [unread = 0] and the same total, the rows keep
    their ids and order, a row that was read keeps the time it was read at,
    and the inbox of every other site is as before. *)
Theorem markSiteNotificationsRead_all
    (now : string) (siteId : Z) (ids : list (option Z)) (page pageSize : Z) (w : World) :
  let w' := snd (markSiteNotificationsRead now siteId true ids w) in
  let inbox := fst (listSiteNotifications siteId page pageSize w') in
  unread inbox = 0
  /\ total inbox = total (fst (listSiteNotifications siteId page pageSize w))
  /\ map notification_id (site_notifications w')
     = map notification_id (site_notifications w)
  /\ (forall row, row ∈ site_notifications w -> read_at row <> None ->
                  row ∈ site_notifications w')
  /\ (forall siteId', siteId' <> siteId ->
        fst (listSiteNotifications siteId' page pageSize w')
        = fst (listSiteNotifications siteId' page pageSize w)).
Proof.
  cbv zeta.
  pose proof (markSiteNotificationsRead_value now siteId true ids w) as Hrows.
  cbn [orb] in Hrows.
  assert (Hmark : forall row, ofSite siteId (markRead now row) = ofSite siteId row
                              /\ isUnread (markRead now row) = false
                              /\ notification_id (markRead now row) = notification_id row)
    by (intros row; unfold ofSite, isUnread, markRead; cbn;
        destruct (read_at row); auto).
  destruct (listSiteNotifications_value siteId page pageSize
              (snd (markSiteNotificationsRead now siteId true ids w))) as [-> _].
  destruct (listSiteNotifications_value siteId page pageSize w) as [-> _].
  cbn [unread total]. rewrite Hrows. clear Hrows.
  split; [|split; [|split; [|split]]].
  - rewrite filter_all_false; [reflexivity|]. apply Forall_forall.
    intros row' [row [-> _]]%list_elem_of_fmap. rewrite andb_true_r.
    destruct (ofSite siteId row) eqn:Esite.
    + destruct (Hmark row) as (-> & -> & _). now rewrite Esite.
    + now rewrite Esite.
  - f_equal. induction (site_notifications w) as [|row rows IH]; [reflexivity|].
    cbn [map]. rewrite !filter_cons. rewrite andb_true_r.
    destruct (ofSite siteId row) eqn:Esite.
    + destruct (Hmark row) as (-> & _). rewrite Esite.
      destruct (decide (true = true)); [|contradiction]. cbn [length]. now rewrite IH.
    + rewrite Esite. destruct (decide (false = true)); [discriminate | exact IH].
  - rewrite map_map. apply map_ext. intros row. rewrite andb_true_r.
    destruct (ofSite siteId row); [apply Hmark | reflexivity].
  - intros row Hin Hread. apply list_elem_of_fmap. exists row. split; [|exact Hin].
    rewrite andb_true_r. destruct (ofSite siteId row); [|reflexivity].
    unfold markRead. destruct row as [? ? ? ? ? ? ? ? ? ? ? ? [readAt|]];
      [reflexivity | now destruct Hread].
  - intros siteId' Hother. apply inbox_reads_site.
    pose proof (markSiteNotificationsRead_value now siteId true ids w) as Hrows.
    rewrite Hrows. clear Hrows.
    induction (site_notifications w) as [|row rows IH]; [reflexivity|].
    cbn [map]. rewrite !filter_cons, IH. rewrite andb_true_r.
    destruct (ofSite siteId row) eqn:Esite; [|reflexivity].
    assert (Hrow : ofSite siteId' row = false).
    { unfold ofSite in *. apply Z.eqb_eq in Esite. apply Z.eqb_neq. congruence. }
    assert (Hmarked : ofSite siteId' (markRead now row) = false) by exact Hrow.
    rewrite Hrow, Hmarked. reflexivity.
Qed.

Lemma markSiteNotificationsRead_all_witness :
  let event kind :=
    {| Notify.eventType := kind; Notify.postSlug := "intro";
       Notify.postTitle := "Intro"; Notify.actorName := "Ann";
       Notify.actorSiteSlug := EmptyString; Notify.contentPreview := "Hello";
       Notify.reactionKey := EmptyString; Notify.reactionLabel := EmptyString;
       Notify.targetPath := EmptyString; Notify.createdAt := EmptyString |} in
  let w := snd (Notify.createSiteNotification "t2" 7 (event "reaction")
             (snd (Notify.createSiteNotification "t1" 42 (event "comment")
                     emptyWorld))) in
  let w' := snd (markSiteNotificationsRead "t3" 42 true [] w) in
  unread (fst (listSiteNotifications 42 1 40 w')) = 0
  /\ fst (listSiteNotifications 7 1 40 w') = fst (listSiteNotifications 7 1 40 w).
Proof.
  intros event w w'.
  destruct (markSiteNotificationsRead_all "t3" 42 [] 1 40 w)
    as (Hunread & _ & _ & _ & Hother).
  split; [exact Hunread|]. apply Hother. lia.
Defined.

Lemma length_remove_dups {A} `{EqDecision A} (l : list A) :
  (length (remove_dups l) <= length l)%nat.
Proof.
  apply submseteq_length, NoDup_submseteq; [apply NoDup_remove_dups|].
  intros x Hx. rewrite elem_of_remove_dups in Hx. exact Hx.
Qed.

Lemma elem_of_selectedIds (ids : list (option Z)) (id : Z) :
  id ∈ selectedIds ids -> Some id ∈ ids /\ 0 < id.
Proof.
  unfold selectedIds. rewrite elem_of_reverse, elem_of_remove_dups, elem_of_reverse.
  intros Hin. apply elem_of_take in Hin as (i & Hin%list_elem_of_lookup_2 & _).
  apply list_elem_of_filter in Hin as [Hpositive Hin].
  apply list_elem_of_omap in Hin as [item [Hin ->]]. auto.
Qed.

(** X22.  Marking by id marks what was asked and nothing else: after
    [markSiteNotificationsRead] with a list of ids, a row differs from what
    it was only if it belongs to the site, was unread and has a positive id
    that the list names, and it then is the same row read at [now]; at most
    80 ids are honoured, and a list without a positive integer changes
    nothing. *)
Theorem markSiteNotificationsRead_ids
    (now : string) (siteId : Z) (ids : list (option Z)) (w : World) :
  let w' := snd (markSiteNotificationsRead now siteId false ids w) in
  Forall2 (fun old new =>
             new = old
             \/ (new = markRead now old /\ notification_site_id old = siteId
                 /\ read_at old = None /\ read_at new = Some now
                 /\ Some (notification_id old) ∈ ids /\ 0 < notification_id old))
          (site_notifications w) (site_notifications w')
  /\ (forall old, old ∈ site_notifications w -> notification_site_id old = siteId ->
                  notification_id old ∈ selectedIds ids ->
                  markRead now old ∈ site_notifications w')
  /\ (length (selectedIds ids) <= 80)%nat
  /\ (Forall (fun item => forall id, item = Some id -> id <= 0) ids ->
      site_notifications w' = site_notifications w).
Proof.
  cbv zeta. rewrite markSiteNotificationsRead_value. cbn [orb].
  split; [|split; [|split]].
  - induction (site_notifications w) as [|row rows IH]; cbn [map]; constructor;
      [|exact IH].
    destruct (ofSite siteId row) eqn:Esite; cbn [andb]; [|auto].
    destruct (bool_decide_reflect (notification_id row ∈ selectedIds ids)) as [Hin|_];
      [|auto].
    apply elem_of_selectedIds in Hin as [Hin Hpositive].
    destruct (read_at row) as [readAt|] eqn:Eread.
    + left. unfold markRead. rewrite Eread. destruct row. cbn in *. now subst.
    + right. unfold ofSite in Esite. apply Z.eqb_eq in Esite.
      repeat split; try assumption. unfold markRead. cbn. now rewrite Eread.
  - intros old Hin Hsite Hid. apply list_elem_of_fmap. exists old.
    split; [|exact Hin]. unfold ofSite. rewrite Hsite, Z.eqb_refl.
    now rewrite (bool_decide_eq_true_2 _ Hid).
  - unfold selectedIds. rewrite length_reverse.
    pose proof (length_remove_dups
                  (reverse (take 80 (filter (fun item => 0 < item)
                                       (omap (fun item => item) ids))))) as Hlen.
    rewrite length_reverse, length_take in Hlen. lia.
  - intros Hnone. rewrite <- (map_id (site_notifications w)) at 2.
    apply map_ext. intros row.
    destruct (bool_decide_reflect (notification_id row ∈ selectedIds ids)) as [Hin|_];
      [|now rewrite andb_false_r].
    apply elem_of_selectedIds in Hin as [Hin Hpositive].
    rewrite Forall_forall in Hnone. specialize (Hnone _ Hin _ eq_refl). lia.
Qed.

Lemma markSiteNotificationsRead_ids_witness :
  let event :=
    {| Notify.eventType := "comment"; Notify.postSlug := "intro";
       Notify.postTitle := "Intro"; Notify.actorName := "Ann";
       Notify.actorSiteSlug := EmptyString; Notify.contentPreview := "Hello";
       Notify.reactionKey := EmptyString; Notify.reactionLabel := EmptyString;
       Notify.targetPath := EmptyString; Notify.createdAt := EmptyString |} in
  let w := snd (Notify.createSiteNotification "t1" 42 event emptyWorld) in
  site_notifications (snd (markSiteNotificationsRead "t2" 42 false [None; Some (-1)] w))
  = site_notifications w.
Proof.
  intros event w.
  apply (markSiteNotificationsRead_ids "t2" 42 [None; Some (-1)] w).
  repeat constructor; intros id [= <-]; lia.
Defined.

(** X23.  What the inbox shows: [listSiteNotifications] never reports more
    unread notifications than notifications, its page number lies within
    [[1, totalPages]], [hasPrev] and [hasNext] tell whether a page lies
    before or after it, a page holds at most [pageSize <= 100] rows, and
    a notification that [createSiteNotification] has just stored is counted
    once, as unread. *)
Theorem listSiteNotifications_shape
    (siteId : Z) (page pageSize : Z) (nowIso : string) (payload : Notify.Event)
    (w : World) :
  let inbox := fst (listSiteNotifications siteId page pageSize w) in
  let stored := Notify.createSiteNotification nowIso siteId payload w in
  let after := fst (listSiteNotifications siteId page pageSize (snd stored)) in
  0 <= unread inbox <= total inbox
  /\ 1 <= Inbox.page inbox <= totalPages inbox
  /\ (hasPrev inbox = true <-> 1 < Inbox.page inbox)
  /\ (hasNext inbox = true <-> Inbox.page inbox < totalPages inbox)
  /\ Z.of_nat (length (notifications inbox)) <= Inbox.pageSize inbox <= 100
  /\ (fst stored <> None ->
      unread after = unread inbox + 1 /\ total after = total inbox + 1).
Proof.
  cbv zeta.
  destruct (listSiteNotifications_value siteId page pageSize w) as [-> _].
  cbn [unread total Inbox.page totalPages hasPrev hasNext notifications Inbox.pageSize].
  split; [|split; [|split; [|split; [|split]]]].
  - rewrite filter_andb. split; [lia|]. apply inj_le, length_filter.
  - lia.
  - apply Z.ltb_lt.
  - apply Z.ltb_lt.
  - rewrite length_map, length_take. lia.
  - intros Hstored.
    destruct (listSiteNotifications_value siteId page pageSize
                (snd (Notify.createSiteNotification nowIso siteId payload w)))
      as [-> _].
    cbn [unread total].
    assert (Hrows : exists row,
              site_notifications
                (snd (Notify.createSiteNotification nowIso siteId payload w))
              = (site_notifications w ++ [row])%list
              /\ notification_site_id row = siteId /\ read_at row = None).
    { revert Hstored.
      unfold Notify.createSiteNotification, ensureNotificationTables, ensureSchema,
        bind, issue, modify, get, ret.
      cbv zeta.
      destruct (notificationTablesReady (memo w));
        cbn [fst snd site_notifications site_notifications_seq set_statements set_memo];
        destruct (negb (Js.truthy (Notify.sanitizeNotifyEventType _)));
        cbn [fst snd]; try (intros H; now destruct H);
        destruct (negb (Js.truthy (Js.slice0 120 _)));
        cbn [fst snd site_notifications set_site_notifications set_statements];
        try (intros H; now destruct H);
        intros _; eexists; repeat split. }
    destruct Hrows as (row & -> & Hsite & Hunread).
    rewrite !filter_app, !length_app, !filter_cons, !filter_nil.
    unfold ofSite, isUnread. rewrite Hsite, Hunread, Z.eqb_refl. cbn [andb].
    destruct (decide (true = true)); [|contradiction]. cbn [length]. lia.
Qed.

Lemma listSiteNotifications_shape_witness :
  let event :=
    {| Notify.eventType := "comment"; Notify.postSlug := "intro";
       Notify.postTitle := "Intro"; Notify.actorName := "Ann";
       Notify.actorSiteSlug := EmptyString; Notify.contentPreview := "Hello";
       Notify.reactionKey := EmptyString; Notify.reactionLabel := EmptyString;
       Notify.targetPath := EmptyString; Notify.createdAt := EmptyString |} in
  let stored := Notify.createSiteNotification "t1" 42 event emptyWorld in
  unread (fst (listSiteNotifications 42 1 40 (snd stored))) = 1.
Proof.
  intros event stored.
  destruct (listSiteNotifications_shape 42 1 40 "t1" event emptyWorld)
    as (_ & _ & _ & _ & _ & Hstored).
  destruct Hstored as [Hunread _]; [vm_compute; discriminate|]. exact Hunread.
Defined.

End InboxFacts.

(** ** Sessions *)

Section SessionFacts.

Import Session.

Lemma foldl_lor_zero {A} (f : A -> Z) (l : list A) (acc : Z) :
  foldl (fun mismatch i => Z.lor mismatch (f i)) acc l = 0
  <-> acc = 0 /\ Forall (fun i => f i = 0) l.
Proof.
  revert acc. induction l as [|i l IH]; intros acc; cbn [foldl].
  - split; [intros ->; auto | tauto].
  - rewrite IH, Z.lor_eq_0_iff, Forall_cons. tauto.
Qed.

Lemma charCodeAt_ext (a b : string) :
  String.length a = String.length b ->
  (forall i, (i < String.length a)%nat -> charCodeAt a i = charCodeAt b i) ->
  a = b.
Proof.
  revert b. induction a as [|c a IH]; intros [|d b] Hlen Hcodes; try discriminate;
    [reflexivity|].
  cbn [String.length] in Hlen, Hcodes. f_equal.
  - specialize (Hcodes 0%nat ltac:(lia)). unfold charCodeAt in Hcodes. cbn in Hcodes.
    apply Nat2Z.inj in Hcodes.
    rewrite <- (ascii_nat_embedding c), <- (ascii_nat_embedding d). now rewrite Hcodes.
  - apply IH; [lia|]. intros i Hi. apply (Hcodes (S i)). lia.
Qed.

Lemma timingSafeEqual_sound (a b : string) : timingSafeEqual a b = true -> a = b.
Proof.
  unfold timingSafeEqual. rewrite Z.eqb_eq, foldl_lor_zero, Z.lxor_eq_0_iff.
  intros [Hlen%Nat2Z.inj Hcodes]. apply charCodeAt_ext; [exact Hlen|].
  intros i Hi. rewrite Forall_forall in Hcodes. apply Z.lxor_eq_0_iff, Hcodes.
  apply list_elem_of_In, in_seq. lia.
Qed.

Lemma timingSafeEqual_refl (a : string) : timingSafeEqual a a = true.
Proof.
  unfold timingSafeEqual. rewrite Z.eqb_eq, foldl_lor_zero, Z.lxor_eq_0_iff.
  split; [reflexivity|]. apply Forall_forall. intros i _. apply Z.lxor_nilpotent.
Qed.

(** X24.  [timingSafeEqual] is equality of strings: it answers [true]
    exactly when the two strings are the same, whatever their lengths. *)
Theorem timingSafeEqual_eq (a b : string) : timingSafeEqual a b = true <-> a = b.
Proof.
  split; [apply timingSafeEqual_sound | intros ->; apply timingSafeEqual_refl].
Qed.

Lemma forallb_app (p : ascii -> bool) (a b : string) :
  Js.forallb p (a ++ b) = Js.forallb p a && Js.forallb p b.
Proof.
  induction a as [|c a IH]; [reflexivity|].
  change (String c a ++ b) with (String c (a ++ b)). cbn [Js.forallb].
  now rewrite IH, andb_assoc.
Qed.

Lemma split_none (sep : ascii) (s : string) :
  Js.forallb (fun c => negb (Ascii.eqb c sep)) s = true -> Js.split sep s = [s].
Proof.
  induction s as [|c s IH]; cbn [Js.forallb Js.split]; [reflexivity|].
  intros [Hc Hs]%andb_prop. apply negb_true_iff in Hc. now rewrite Hc, (IH Hs).
Qed.

Lemma split_app (sep : ascii) (a b : string) :
  Js.forallb (fun c => negb (Ascii.eqb c sep)) a = true ->
  Js.split sep (a ++ String sep b) = a :: Js.split sep b.
Proof.
  induction a as [|c a IH].
  - intros _. change (EmptyString ++ String sep b) with (String sep b).
    cbn [Js.split]. now rewrite Ascii.eqb_refl.
  - change (String c a ++ String sep b) with (String c (a ++ String sep b)).
    cbn [Js.forallb Js.split].
    intros [Hc Ha]%andb_prop. apply negb_true_iff in Hc. now rewrite Hc, (IH Ha).
Qed.

Lemma includes_app (sep : ascii) (a b : string) :
  Js.includes (String sep EmptyString) (a ++ String sep b) = true.
Proof.
  unfold Js.includes.
  assert (H : exists n, String.index 0 (String sep EmptyString) (a ++ String sep b)
                        = Some n).
  { induction a as [|c a [n IH]].
    - change (EmptyString ++ String sep b) with (String sep b).
      cbn [String.index String.prefix].
      destruct (ascii_dec sep sep); [|contradiction]. destruct b; cbn; eauto.
    - change (String c a ++ String sep b) with (String c (a ++ String sep b)).
      cbn [String.index String.prefix].
      destruct (ascii_dec sep c);
        [destruct (a ++ String sep b)%string; cbn; eauto|]. rewrite IH. eauto. }
  destruct H as [n ->]. reflexivity.
Qed.

Lemma tokenChar_plain c :
  Notify.isTokenChar c = true ->
  negb (Js.isSpace c) = true /\ negb (Ascii.eqb c ".") = true
  /\ negb (Ascii.eqb c ";") = true /\ negb (Ascii.eqb c "=") = true.
Proof. destruct c as [[] [] [] [] [] [] [] []]; vm_compute; intuition congruence. Qed.

Lemma lowerHex_token c : Js.isLowerHex c = true -> Notify.isTokenChar c = true.
Proof. destruct c as [[] [] [] [] [] [] [] []]; vm_compute; congruence. Qed.

Lemma hmacHex_shape value secret :
  Js.forallb Notify.isTokenChar (hmacHex value secret) = true
  /\ Js.truthy (hmacHex value secret) = true.
Proof.
  unfold hmacHex. split.
  - eapply forallb_impl; [apply lowerHex_token | apply bytesToHex_lowerHex].
  - pose proof (bytesToHex_length
                  (hmacSha256 (Sha256.bytesOfString secret) (Sha256.bytesOfString value)))
      as Hlen.
    unfold hmacSha256 in Hlen at 2. rewrite digest_length in Hlen.
    destruct (Sha256.bytesToHex _); [discriminate | reflexivity].
Qed.

(** The cookie header a browser sends back for one cookie. *)
Lemma parseCookies_single (name value : string) :
  Js.truthy name = true ->
  Js.forallb Notify.isTokenChar name = true ->
  Js.forallb (fun c => Notify.isTokenChar c || Ascii.eqb c ".") value = true ->
  Reactor.parseCookies (name ++ "=" ++ value) !! name = Some value.
Proof.
  intros Hname Hchars Hvalue. unfold Reactor.parseCookies.
  change ("=" ++ value) with (String "=" value).
  assert (Hplain : forall c, Notify.isTokenChar c || Ascii.eqb c "." = true ->
            negb (Js.isSpace c) = true /\ negb (Ascii.eqb c ";") = true
            /\ negb (Ascii.eqb c "=") = true)
    by (intros c; destruct c as [[] [] [] [] [] [] [] []]; vm_compute;
        intuition congruence).
  assert (Hall : forall q : ascii -> bool,
            (forall c, Notify.isTokenChar c || Ascii.eqb c "." = true -> q c = true) ->
            q "="%char = true ->
            Js.forallb q (name ++ String "=" value) = true).
  { intros q Hq Heq. rewrite forallb_app. cbn [Js.forallb]. rewrite Heq.
    rewrite (forallb_impl _ q value Hq Hvalue).
    rewrite (forallb_impl Notify.isTokenChar q name); [reflexivity | | exact Hchars].
    intros c Hc. apply Hq. now rewrite Hc. }
  rewrite split_none by (apply Hall; [intros c Hc; now apply Hplain | reflexivity]).
  cbn [map]. rewrite trim_solid
    by (apply Hall; [intros c Hc; now apply Hplain | reflexivity]).
  rewrite filter_cons, filter_nil.
  destruct (decide (Js.truthy (name ++ String "=" value) = true)) as [_|Hempty].
  2:{ destruct Hempty. destruct name; [discriminate | reflexivity]. }
  cbn [map].
  rewrite split_app
    by (eapply forallb_impl; [|exact Hchars]; intros c Hc; apply Hplain; now rewrite Hc).
  rewrite split_none
    by (eapply forallb_impl; [|exact Hvalue]; intros c Hc; now apply Hplain).
  cbn [String.concat]. unfold Js.fromEntries. cbn [reverse rev_append list_to_map foldr].
  apply lookup_insert_eq.
Qed.

Section Codec.

Variable encodePayload : string -> Z -> string.
Variable decodePayload : string -> option Payload.

(** X25.  Only a signed, unexpired session of the site authenticates:
    when [isSiteAuthenticated] answers [true], the session cookie of the
    request holds a payload and, after the first dot, the HMAC-SHA-256 of
    that payload under the session secret, and the payload names this site
    and has not expired.  Without the secret, without the cookie or with
    any other signature the answer is [false]. *)
Theorem isSiteAuthenticated_signed
    (nowMs : Z) (request : Request) (env : Env) (siteSlug : string) :
  isSiteAuthenticated decodePayload nowMs request env siteSlug = true ->
  exists token payloadEncoded signature rest secret payload,
    Reactor.parseCookies (cookie request) !! SESSION_COOKIE = Some token
    /\ Js.split "."%char token = payloadEncoded :: signature :: rest
    /\ Reactor.getSessionSecret env = Some secret
    /\ signature = hmacHex payloadEncoded secret
    /\ decodePayload payloadEncoded = Some payload
    /\ slug payload = siteSlug
    /\ nowMs <= exp payload.
Proof.
  unfold isSiteAuthenticated, verifySessionToken.
  destruct (Reactor.parseCookies (cookie request) !! SESSION_COOKIE) as [token|]
    eqn:Hcookie; [|discriminate].
  destruct (negb (Js.truthy token)); [discriminate|].
  destruct (negb (Js.includes "." token)); [discriminate|].
  destruct (Js.split "."%char token) as [|payloadEncoded [|signature rest]] eqn:Hsplit;
    try discriminate.
  destruct (negb (Js.truthy payloadEncoded) || negb (Js.truthy signature));
    [discriminate|].
  destruct (Reactor.getSessionSecret env) as [secret|] eqn:Hsecret; [|discriminate].
  cbv zeta.
  destruct (timingSafeEqual signature (hmacHex payloadEncoded secret)) eqn:Hsigned;
    cbn [negb]; [|discriminate].
  destruct (decodePayload payloadEncoded) as [payload|] eqn:Hpayload; [|discriminate].
  destruct (Z.ltb_spec (exp payload) nowMs); [discriminate|].
  intros Hslug%String.eqb_eq.
  exists token, payloadEncoded, signature, rest, secret, payload.
  repeat split; try assumption; try reflexivity. now apply timingSafeEqual_sound.
Qed.

(** X26.  A session authenticates its own site until it expires: the token
    that [createSessionToken] makes, sent back as the session cookie, makes
    [isSiteAuthenticated] answer [true] for the site it was made for as
    long as the clock has not passed its expiry, seven days after it was
    made, and [false] afterwards and for every other site; the payload
    codec is only asked to read back what it wrote. *)
Theorem createSessionToken_authenticates
    (nowMs later : Z) (siteSlug other : string) (env : Env) (secret : string)
    (ip ua : string) :
  let expires := nowMs + SESSION_TTL_SECONDS * 1000 in
  let encoded := encodePayload siteSlug expires in
  Reactor.getSessionSecret env = Some secret ->
  decodePayload encoded = Some {| slug := siteSlug; exp := expires |} ->
  Js.truthy encoded = true ->
  Js.forallb Notify.isTokenChar encoded = true ->
  exists token,
    createSessionToken encodePayload nowMs siteSlug env = Some token
    /\ isSiteAuthenticated decodePayload later
         {| cf_connecting_ip := ip; user_agent := ua;
            cookie := SESSION_COOKIE ++ "=" ++ token |} env other
       = (later <=? expires) && String.eqb siteSlug other.
Proof.
  cbv zeta. intros Hsecret Hdecode Hfilled Hchars.
  unfold createSessionToken. rewrite Hsecret. eexists. split; [reflexivity|].
  set (encoded := encodePayload siteSlug (nowMs + SESSION_TTL_SECONDS * 1000)) in *.
  destruct (hmacHex_shape encoded secret) as [Hsig Hsigned].
  unfold isSiteAuthenticated. cbn [cookie].
  rewrite parseCookies_single; [|reflexivity|reflexivity|].
  2:{ change ("." ++ hmacHex encoded secret) with (String "." (hmacHex encoded secret)).
      rewrite forallb_app. cbn [Js.forallb].
      rewrite (forallb_impl Notify.isTokenChar _ encoded),
              (forallb_impl Notify.isTokenChar _ (hmacHex encoded secret));
        [reflexivity | | exact Hsig | | exact Hchars];
        intros c Hc; now rewrite Hc. }
  assert (Htoken : Js.truthy (encoded ++ "." ++ hmacHex encoded secret) = true)
    by (destruct encoded; [discriminate | reflexivity]).
  rewrite Htoken. cbn [negb]. unfold verifySessionToken.
  change ("." ++ hmacHex encoded secret) with (String "." (hmacHex encoded secret)).
  rewrite (includes_app "."). cbn [negb].
  rewrite split_app
    by (eapply forallb_impl; [|exact Hchars]; intros c Hc; now apply tokenChar_plain).
  rewrite split_none
    by (eapply forallb_impl; [|exact Hsig]; intros c Hc; now apply tokenChar_plain).
  rewrite Hfilled, Hsigned, Hsecret. cbn [negb orb]. cbv zeta.
  rewrite timingSafeEqual_refl, Hdecode. cbn [negb exp slug].
  destruct (Z.ltb_spec (nowMs + SESSION_TTL_SECONDS * 1000) later) as [Hlate|Hearly].
  - rewrite (proj2 (Z.leb_gt _ _)) by lia. reflexivity.
  - rewrite (proj2 (Z.leb_le _ _)) by lia. reflexivity.
Qed.

End Codec.

End SessionFacts.

Lemma isSiteAuthenticated_signed_witness :
  let decodePayload (_ : string) :=
    Some {| Session.slug := "alice"; Session.exp := 2000 |} in
  let env := {| SESSION_SECRET := "s3cret"; BASE_DOMAIN := "example.org" |} in
  let request :=
    {| cf_connecting_ip := "203.0.113.7"; user_agent := "Mozilla/5.0";
       cookie := "theme=dark; stublogs_session=payload."
                 ++ Session.hmacHex "payload" "s3cret" |} in
  exists token payloadEncoded signature rest secret payload,
    Reactor.parseCookies (cookie request) !! Session.SESSION_COOKIE = Some token
    /\ Js.split "."%char token = payloadEncoded :: signature :: rest
    /\ Reactor.getSessionSecret env = Some secret
    /\ signature = Session.hmacHex payloadEncoded secret
    /\ decodePayload payloadEncoded = Some payload
    /\ Session.slug payload = "alice"
    /\ 1000 <= Session.exp payload.
Proof.
  intros decodePayload env request.
  apply (isSiteAuthenticated_signed decodePayload 1000 request env "alice").
  vm_compute. reflexivity.
Defined.

Lemma createSessionToken_authenticates_witness :
  let encodePayload (_ : string) (_ : Z) := "eyJzbHVnIjoiYWxpY2UifQ" in
  let decodePayload (_ : string) :=
    Some {| Session.slug := "alice";
            Session.exp := 1000 + Session.SESSION_TTL_SECONDS * 1000 |} in
  let env := {| SESSION_SECRET := "s3cret"; BASE_DOMAIN := "example.org" |} in
  exists token,
    Session.createSessionToken encodePayload 1000 "alice" env = Some token
    /\ Session.isSiteAuthenticated decodePayload 5000
         {| cf_connecting_ip := "203.0.113.7"; user_agent := "Mozilla/5.0";
            cookie := Session.SESSION_COOKIE ++ "=" ++ token |} env "bob"
       = (5000 <=? 1000 + Session.SESSION_TTL_SECONDS * 1000) && String.eqb "alice" "bob".
Proof.
  intros encodePayload decodePayload env.
  apply (createSessionToken_authenticates encodePayload decodePayload 1000 5000 "alice"
           "bob" env "s3cret" "203.0.113.7" "Mozilla/5.0"); reflexivity.
Defined.

(** ** Stored secrets *)

Section HexCodec.

Lemma hexValue_hexDigit n :
  0 <= n < 16 -> Notify.hexValue (Sha256.hexDigit n) = n.
Proof.
  intros Hn. assert (Hnat : exists i : nat, (i < 16)%nat /\ n = Z.of_nat i)
    by (exists (Z.to_nat n); lia).
  destruct Hnat as (i & Hi & ->).
  do 16 (destruct i as [|i]; [reflexivity|]). lia.
Qed.

Lemma hexPairs_bytesToHex bytes :
  Forall (fun b => 0 <= b < 256) bytes ->
  Notify.hexPairs (Sha256.bytesToHex bytes) = bytes.
Proof.
  induction 1 as [|b bytes Hb _ IH]; [reflexivity|].
  cbn [Sha256.bytesToHex Notify.hexPairs]. rewrite IH. f_equal.
  change 15 with (Z.ones 4). rewrite Z.land_ones, Z.shiftr_div_pow2 by lia.
  change (2 ^ 4) with 16.
  rewrite !hexValue_hexDigit.
  - pose proof (Z.div_mod b 16). lia.
  - apply Z.mod_pos_bound. lia.
  - split; [apply Z.div_pos; lia | apply Z.div_lt_upper_bound; lia].
Qed.

Lemma lowerHex_plain c :
  Js.isLowerHex c = true ->
  negb (Js.isSpace c) = true /\ Ascii.eqb (Js.lowerChar c) c = true
  /\ negb (Ascii.eqb c "$") = true.
Proof. destruct c as [[] [] [] [] [] [] [] []]; vm_compute; intuition congruence. Qed.

Lemma hexToBytes_stored (bytes : list Z) :
  Forall (fun b => 0 <= b < 256) bytes -> bytes <> [] ->
  Notify.hexToBytes (Sha256.bytesToHex bytes) = Some bytes.
Proof.
  intros Hbytes Hsome. unfold Notify.hexToBytes.
  pose proof (bytesToHex_lowerHex bytes) as Hhex.
  rewrite trim_solid
    by (eapply forallb_impl; [|exact Hhex]; intros c Hc; now apply lowerHex_plain).
  rewrite toLowerCase_fixed
    by (eapply forallb_impl; [|exact Hhex]; intros c Hc; now apply lowerHex_plain).
  rewrite Hhex, bytesToHex_length. cbn [negb orb].
  rewrite Nat.even_mul. cbn [Nat.even orb negb]. rewrite orb_false_r.
  destruct bytes as [|b bytes]; [contradiction|].
  cbn [Sha256.bytesToHex Js.truthy negb].
  f_equal. now apply (hexPairs_bytesToHex (b :: bytes)).
Qed.

(** X27.  Hex text reads back: for a non-empty list of bytes,
    [hexToBytes (bytesToHex bytes)] is the list again, and of the empty
    text [hexToBytes] makes [null]. *)
Theorem hexToBytes_bytesToHex (bytes : list Z) :
  Forall (fun b => 0 <= b < 256) bytes ->
  Notify.hexToBytes (Sha256.bytesToHex bytes)
  = if decide (bytes = []) then None else Some bytes.
Proof.
  intros Hbytes. destruct (decide (bytes = [])) as [->|Hsome]; [reflexivity|].
  now apply hexToBytes_stored.
Qed.

Lemma hexToBytes_bytesToHex_witness :
  Notify.hexToBytes (Sha256.bytesToHex [0; 15; 16; 255]) = Some [0; 15; 16; 255].
Proof.
  apply (hexToBytes_bytesToHex [0; 15; 16; 255]). repeat constructor; lia.
Defined.

End HexCodec.

Section SecretsFacts.

Import Secrets.

Variable aesGcmEncrypt : list Z -> list Z -> string -> list Z.
Variable aesGcmDecrypt : list Z -> list Z -> list Z -> option string.

(** What [decryptSensitiveValue] makes of a stored [v1$nonce$ciphertext]
    text. *)
Lemma decryptSensitiveValue_stored (iv cipher : list Z) (env : Env) (secret : string) :
  Reactor.getSessionSecret env = Some secret ->
  Forall (fun b => 0 <= b < 256) iv -> iv <> [] ->
  Forall (fun b => 0 <= b < 256) cipher -> cipher <> [] ->
  Notify.decryptSensitiveValue aesGcmDecrypt
    ("v1$" ++ Sha256.bytesToHex iv ++ "$" ++ Sha256.bytesToHex cipher) env
  = aesGcmDecrypt
      (Sha256.digest (Sha256.bytesOfString (secret ++ ":site-tele-notify:v1")))
      iv cipher.
Proof.
  intros Hsecret Hiv Hiv' Hcipher Hcipher'. unfold Notify.decryptSensitiveValue.
  change ("v1$" ++ Sha256.bytesToHex iv ++ "$" ++ Sha256.bytesToHex cipher)
    with ("v1" ++ String "$" (Sha256.bytesToHex iv
                                ++ String "$" (Sha256.bytesToHex cipher))).
  assert (Hsolid : forall bytes,
            Js.forallb (fun c => negb (Js.isSpace c)) (Sha256.bytesToHex bytes) = true
            /\ Js.forallb (fun c => negb (Ascii.eqb c "$")) (Sha256.bytesToHex bytes)
               = true).
  { intros bytes. split; (eapply forallb_impl; [|apply bytesToHex_lowerHex]);
      intros c Hc; now apply lowerHex_plain. }
  rewrite trim_solid.
  2:{ rewrite forallb_app. cbn [Js.forallb]. rewrite forallb_app. cbn [Js.forallb].
      destruct (Hsolid iv) as [-> _], (Hsolid cipher) as [-> _]. reflexivity. }
  change (Js.truthy ("v1" ++ _)) with true. cbn [negb].
  rewrite split_app by reflexivity.
  rewrite split_app by apply Hsolid.
  rewrite split_none by apply Hsolid.
  cbn [String.eqb Ascii.eqb Bool.eqb negb].
  rewrite !hexToBytes_stored by assumption. now rewrite Hsecret.
Qed.

Lemma encryptSensitiveValue_stored
    (entropy : list Z) (value : string) (env : Env) (secret : string) :
  let key := Sha256.digest (Sha256.bytesOfString (secret ++ ":site-tele-notify:v1")) in
  let iv := take 12 entropy in
  let cipher := aesGcmEncrypt key iv value in
  Reactor.getSessionSecret env = Some secret ->
  (12 <= length entropy)%nat ->
  Forall (fun b => 0 <= b < 256) entropy ->
  Forall (fun b => 0 <= b < 256) cipher -> cipher <> [] ->
  aesGcmDecrypt key iv cipher = Some value ->
  exists stored,
    encryptSensitiveValue aesGcmEncrypt entropy value env = Some stored
    /\ Notify.decryptSensitiveValue aesGcmDecrypt stored env = Some value.
Proof.
  cbv zeta. intros Hsecret Hlen Hentropy Hcipher Hcipher' Hdecrypt.
  unfold encryptSensitiveValue. destruct value as [|c value]; cbn [Js.truthy negb].
  { exists EmptyString. split; reflexivity. }
  rewrite Hsecret. eexists. split; [reflexivity|].
  rewrite (decryptSensitiveValue_stored _ _ env secret); try assumption.
  - now apply Forall_take.
  - destruct entropy; [cbn in Hlen; lia | discriminate].
Qed.

(** X28.  A stored secret reads back: what [encryptSensitiveValue] makes
    of a text, [decryptSensitiveValue] turns into the text again, as long
    as AES-GCM itself decrypts what it encrypted under the same key and
    nonce; the nonce is the 12 bytes drawn, the key the SHA-256 digest of
    the session secret with its label. *)
Theorem encryptSensitiveValue_read_back
    (entropy : list Z) (value : string) (env : Env) (secret : string) :
  let key := Sha256.digest (Sha256.bytesOfString (secret ++ ":site-tele-notify:v1")) in
  let iv := take 12 entropy in
  let cipher := aesGcmEncrypt key iv value in
  Reactor.getSessionSecret env = Some secret ->
  (12 <= length entropy)%nat ->
  Forall (fun b => 0 <= b < 256) entropy ->
  Forall (fun b => 0 <= b < 256) cipher -> cipher <> [] ->
  aesGcmDecrypt key iv cipher = Some value ->
  exists stored,
    encryptSensitiveValue aesGcmEncrypt entropy value env = Some stored
    /\ Notify.decryptSensitiveValue aesGcmDecrypt stored env = Some value.
Proof. apply encryptSensitiveValue_stored. Qed.

Lemma sanitizeTelegramChatId_idem value :
  Notify.sanitizeTelegramChatId (Notify.sanitizeTelegramChatId value)
  = Notify.sanitizeTelegramChatId value.
Proof.
  unfold Notify.sanitizeTelegramChatId at 2 3.
  destruct (Js.truthy (Js.trim value)) eqn:Htruthy; cbn [negb]; [|reflexivity].
  destruct (Js.forallb Js.isDigit _ && Js.lengthIn 5 20 _) eqn:Hshape; [|reflexivity].
  unfold Notify.sanitizeTelegramChatId. now rewrite trim_idem, Htruthy, Hshape.
Qed.

Lemma sanitizeTelegramBotToken_idem value :
  Notify.sanitizeTelegramBotToken (Notify.sanitizeTelegramBotToken value)
  = Notify.sanitizeTelegramBotToken value.
Proof.
  unfold Notify.sanitizeTelegramBotToken at 2 3.
  destruct (Js.truthy (Js.trim value)) eqn:Htruthy; cbn [negb]; [|reflexivity].
  destruct (Js.split ":"%char (Js.trim value)) as [|botId [|secret [|extra rest]]]
    eqn:Hsplit; try reflexivity.
  destruct (Js.forallb Js.isDigit botId && _ && _ && _) eqn:Hshape; [|reflexivity].
  unfold Notify.sanitizeTelegramBotToken.
  now rewrite trim_idem, Htruthy, Hsplit, Hshape.
Qed.

Lemma getSiteNotifySettings_keeps {X} (f : World -> X) env siteId includeBotToken :
  (forall l w, f (set_statements l w) = f w) ->
  (forall m w, f (set_memo m w) = f w) ->
  keeps f (Notify.getSiteNotifySettings aesGcmDecrypt env siteId includeBotToken).
Proof.
  intros Hs Hm. unfold Notify.getSiteNotifySettings, ensureNotificationTables.
  apply keeps_bind; [apply keeps_ensureSchema; assumption | intros ?].
  apply keeps_bind; [apply keeps_issue; assumption | intros ?].
  apply keeps_bind; [apply keeps_get | intros [row|]]; apply keeps_ret.
Qed.

Lemma getSiteNotifySettings_hidden env siteId w :
  Notify.telegramBotToken
    (fst (Notify.getSiteNotifySettings aesGcmDecrypt env siteId false w)) = EmptyString.
Proof.
  unfold Notify.getSiteNotifySettings, ensureNotificationTables, ensureSchema, bind,
    issue, modify, get, ret.
  destruct (notificationTablesReady (memo w));
    cbn [fst snd site_telegram_settings set_statements set_memo];
    destruct (site_telegram_settings w !! siteId); reflexivity.
Qed.

(** X29.  The notification settings read back as they were saved, and the
    bot token stays inside: after [upsertSiteNotifySettings] the settings
    of the site hold the flags (absent ones at their defaults: off, on,
    on), the cleaned chat id and the time of the call; a well-formed new
    token is stored encrypted and is what the notifier decrypts again; with
    no new token the stored one stays, unless it is to be cleared; what the
    call returns never carries the token; and the rows of the other sites
    are not touched. *)
Theorem upsertSiteNotifySettings_read_back
    (entropy : list Z) (now : string) (env : Env) (siteId : Z)
    (payload : SettingsPayload) (secret : string) (w : World) :
  let rawToken := Notify.sanitizeTelegramBotToken (payloadTelegramBotToken payload) in
  let key := Sha256.digest (Sha256.bytesOfString (secret ++ ":site-tele-notify:v1")) in
  let cipher := aesGcmEncrypt key (take 12 entropy) rawToken in
  let stored :=
    from_option telegram_bot_token_enc EmptyString (site_telegram_settings w !! siteId) in
  let result :=
    upsertSiteNotifySettings aesGcmEncrypt aesGcmDecrypt entropy now env siteId payload w in
  let read := fst (Notify.getSiteNotifySettings aesGcmDecrypt env siteId true
                     (snd result)) in
  Reactor.getSessionSecret env = Some secret ->
  (12 <= length entropy)%nat ->
  Forall (fun b => 0 <= b < 256) entropy ->
  Forall (fun b => 0 <= b < 256) cipher -> cipher <> [] ->
  aesGcmDecrypt key (take 12 entropy) cipher = Some rawToken ->
  (exists shown row,
     fst result = Some shown
     /\ Notify.telegramBotToken shown = EmptyString
     /\ site_telegram_settings (snd result) !! siteId = Some row
     /\ (Js.truthy rawToken = false ->
         telegram_bot_token_enc row
         = if payloadClearBotToken payload then EmptyString else stored))
  /\ Notify.settingsEnabled read = default false (payloadEnabled payload)
  /\ Notify.notifyComments read = default true (payloadNotifyComments payload)
  /\ Notify.notifyReactions read = default true (payloadNotifyReactions payload)
  /\ Notify.telegramChatId read
     = Notify.sanitizeTelegramChatId (payloadTelegramChatId payload)
  /\ Notify.updatedAt read = now
  /\ (Js.truthy rawToken = true ->
      Notify.telegramBotToken read = rawToken /\ Notify.hasBotToken read = true)
  /\ (forall other, other <> siteId ->
        site_telegram_settings (snd result) !! other
        = site_telegram_settings w !! other).
Proof.
  cbv zeta. intros Hsecret Hlen Hentropy Hcipher Hcipher' Hdecrypt.
  set (rawToken := Notify.sanitizeTelegramBotToken (payloadTelegramBotToken payload))
    in *.
  destruct (encryptSensitiveValue_stored entropy rawToken env secret Hsecret Hlen
              Hentropy Hcipher Hcipher' Hdecrypt) as (tokenEnc & Hencrypt & Hback).
  assert (Hresult : exists tokenEnc',
    (if Js.truthy rawToken
     then tokenEnc' = tokenEnc
     else tokenEnc' = if payloadClearBotToken payload then EmptyString
                      else from_option telegram_bot_token_enc EmptyString
                             (site_telegram_settings w !! siteId))
    /\ site_telegram_settings
         (snd (upsertSiteNotifySettings aesGcmEncrypt aesGcmDecrypt entropy now env
                 siteId payload w))
       = <[siteId :=
             {| enabled := if normalizeNotifyBool (payloadEnabled payload) false
                           then 1 else 0;
                notify_comments :=
                  if normalizeNotifyBool (payloadNotifyComments payload) true
                  then 1 else 0;
                notify_reactions :=
                  if normalizeNotifyBool (payloadNotifyReactions payload) true
                  then 1 else 0;
                telegram_chat_id :=
                  Notify.sanitizeTelegramChatId (payloadTelegramChatId payload);
                telegram_bot_token_enc := tokenEnc';
                settings_updated_at := now |}]> (site_telegram_settings w)
    /\ exists shown,
         fst (upsertSiteNotifySettings aesGcmEncrypt aesGcmDecrypt entropy now env
                siteId payload w) = Some shown
         /\ Notify.telegramBotToken shown = EmptyString).
  { exists (if Js.truthy rawToken then tokenEnc
            else if payloadClearBotToken payload then EmptyString
                 else from_option telegram_bot_token_enc EmptyString
                        (site_telegram_settings w !! siteId)).
    split; [now destruct (Js.truthy rawToken)|].
    assert (H1 : site_telegram_settings (snd (ensureNotificationTables w))
                 = site_telegram_settings w)
      by (apply keeps_ensureSchema; reflexivity).
    unfold upsertSiteNotifySettings, bind. cbv zeta. fold rawToken.
    destruct (ensureNotificationTables w) as [[] w1]. cbn [snd] in H1.
    unfold issue, modify, get, ret.
    cbn [fst snd site_telegram_settings set_statements]. rewrite H1.
    assert (Hchosen :
      (if Js.truthy rawToken
       then encryptSensitiveValue aesGcmEncrypt entropy rawToken env
       else if payloadClearBotToken payload then Some EmptyString
            else Some (from_option telegram_bot_token_enc EmptyString
                         (site_telegram_settings w !! siteId)))
      = Some (if Js.truthy rawToken then tokenEnc
              else if payloadClearBotToken payload then EmptyString
                   else from_option telegram_bot_token_enc EmptyString
                          (site_telegram_settings w !! siteId)))
      by (destruct (Js.truthy rawToken);
          [exact Hencrypt | now destruct (payloadClearBotToken payload)]).
    rewrite Hchosen.
    cbn [fst snd site_telegram_settings set_statements set_site_telegram_settings].
    rewrite H1.
    match goal with
    | |- context [Notify.getSiteNotifySettings _ _ _ false ?w3] =>
        pose proof (getSiteNotifySettings_keeps site_telegram_settings
                      env siteId false ltac:(reflexivity) ltac:(reflexivity) w3) as H4;
        pose proof (getSiteNotifySettings_hidden env siteId w3) as Hhidden;
        destruct (Notify.getSiteNotifySettings aesGcmDecrypt env siteId false w3)
          as [settings w4]
    end.
    cbn [fst snd site_telegram_settings set_site_telegram_settings] in H4, Hhidden |- *.
    split; [exact H4|]. exists settings. split; [reflexivity | exact Hhidden]. }
  destruct Hresult as (tokenEnc' & Htoken & Hrows & shown & Hshown & Hhidden).
  pose proof (getSiteNotifySettings_reads aesGcmDecrypt env siteId
                (snd (upsertSiteNotifySettings aesGcmEncrypt aesGcmDecrypt entropy now
                        env siteId payload w))) as (Hread & _).
  cbv zeta in Hread. rewrite Hrows, lookup_insert_eq in Hread. rewrite Hread.
  cbn [Notify.settingsEnabled Notify.notifyComments Notify.notifyReactions
       Notify.telegramChatId Notify.updatedAt Notify.telegramBotToken
       Notify.hasBotToken enabled notify_comments notify_reactions telegram_chat_id
       telegram_bot_token_enc settings_updated_at].
  split; [|split; [|split; [|split; [|split; [|split; [|split]]]]]].
  - exists shown. eexists. split; [exact Hshown|]. split; [exact Hhidden|].
    rewrite Hrows, lookup_insert_eq. split; [reflexivity|].
    intros Hnone. rewrite Hnone in Htoken. exact Htoken.
  - unfold normalizeNotifyBool. now destruct (default false _).
  - unfold normalizeNotifyBool. now destruct (default true _).
  - unfold normalizeNotifyBool. now destruct (default true _).
  - apply sanitizeTelegramChatId_idem.
  - reflexivity.
  - intros Htruthy. rewrite Htruthy in Htoken. subst tokenEnc'. rewrite Hback.
    unfold default. cbn [from_option id]. split.
    + apply sanitizeTelegramBotToken_idem.
    + unfold encryptSensitiveValue in Hencrypt. rewrite Htruthy, Hsecret in Hencrypt.
      cbn [negb] in Hencrypt. now injection Hencrypt as <-.
  - intros other Hother. rewrite Hrows. now apply lookup_insert_ne.
Qed.

End SecretsFacts.

Lemma encryptSensitiveValue_read_back_witness :
  let seal (key iv : list Z) (plain : string) :=
    map (Z.lxor 90) (Sha256.bytesOfString plain) in
  let unseal (key iv cipher : list Z) :=
    if decide (cipher = seal key iv "123456:abcdefghijklmnopqrstuvwxyz")
    then Some "123456:abcdefghijklmnopqrstuvwxyz" else None in
  let env := {| SESSION_SECRET := "s3cret"; BASE_DOMAIN := "example.org" |} in
  exists stored,
    Secrets.encryptSensitiveValue seal [1; 2; 3; 4; 5; 6; 7; 8; 9; 10; 11; 12]
      "123456:abcdefghijklmnopqrstuvwxyz" env = Some stored
    /\ Notify.decryptSensitiveValue unseal stored env
       = Some "123456:abcdefghijklmnopqrstuvwxyz".
Proof.
  intros seal unseal env.
  apply (encryptSensitiveValue_read_back seal unseal
           [1; 2; 3; 4; 5; 6; 7; 8; 9; 10; 11; 12]
           "123456:abcdefghijklmnopqrstuvwxyz" env "s3cret").
  - reflexivity.
  - cbn. lia.
  - repeat constructor; lia.
  - vm_compute. repeat constructor; discriminate.
  - vm_compute. discriminate.
  - vm_compute. reflexivity.
Defined.

Lemma upsertSiteNotifySettings_read_back_witness :
  let seal (key iv : list Z) (plain : string) :=
    map (Z.lxor 90) (Sha256.bytesOfString plain) in
  let unseal (key iv cipher : list Z) :=
    if decide (cipher = seal key iv "123456:abcdefghijklmnopqrstuvwxyz")
    then Some "123456:abcdefghijklmnopqrstuvwxyz" else None in
  let env := {| SESSION_SECRET := "s3cret"; BASE_DOMAIN := "example.org" |} in
  let payload :=
    {| Secrets.payloadEnabled := Some true; Secrets.payloadNotifyComments := None;
       Secrets.payloadNotifyReactions := Some false;
       Secrets.payloadTelegramChatId := " -1001234567890 ";
       Secrets.payloadTelegramBotToken := " 123456:abcdefghijklmnopqrstuvwxyz";
       Secrets.payloadClearBotToken := false |} in
  let result :=
    Secrets.upsertSiteNotifySettings seal unseal [1; 2; 3; 4; 5; 6; 7; 8; 9; 10; 11; 12]
      "2024-05-01T10:00:00.000Z" env 42 payload emptyWorld in
  let read := fst (Notify.getSiteNotifySettings unseal env 42 true (snd result)) in
  Notify.settingsEnabled read = true
  /\ Notify.telegramChatId read = "-1001234567890"
  /\ Notify.telegramBotToken read = "123456:abcdefghijklmnopqrstuvwxyz".
Proof.
  intros seal unseal env payload result read.
  destruct (upsertSiteNotifySettings_read_back seal unseal
              [1; 2; 3; 4; 5; 6; 7; 8; 9; 10; 11; 12] "2024-05-01T10:00:00.000Z" env 42
              payload "s3cret" emptyWorld)
    as (_ & Henabled & _ & _ & Hchat & _ & Htoken & _).
  - reflexivity.
  - cbn. lia.
  - repeat constructor; lia.
  - vm_compute. repeat constructor; discriminate.
  - vm_compute. discriminate.
  - vm_compute. reflexivity.
  - split; [exact Henabled|]. split; [exact Hchat|]. apply Htoken. reflexivity.
Defined.

(** ** Hosts *)

Section HostFacts.

Import Hosts.

Lemma toLowerCase_app (a b : string) :
  Js.toLowerCase (a ++ b) = Js.toLowerCase a ++ Js.toLowerCase b.
Proof.
  induction a as [|c a IH]; [reflexivity|].
  change (String c a ++ b) with (String c (a ++ b)). cbn [Js.toLowerCase].
  now rewrite IH.
Qed.

Lemma toLowerCase_length (s : string) :
  String.length (Js.toLowerCase s) = String.length s.
Proof. induction s as [|c s IH]; cbn [Js.toLowerCase String.length]; congruence. Qed.

Lemma length_append (a b : string) :
  String.length (a ++ b) = (String.length a + String.length b)%nat.
Proof.
  induction a as [|c a IH]; [reflexivity|].
  change (String c a ++ b) with (String c (a ++ b)). cbn [String.length]. now rewrite IH.
Qed.

Lemma substring_all (s : string) : String.substring 0 (String.length s) s = s.
Proof. induction s as [|c s IH]; cbn; [reflexivity | now rewrite IH]. Qed.

Lemma substring_suffix (a t : string) :
  String.substring (String.length a) (String.length t) (a ++ t) = t.
Proof.
  induction a as [|c a IH]; [apply substring_all|].
  change (String c a ++ t) with (String c (a ++ t)). cbn [String.length String.substring].
  exact IH.
Qed.

Lemma slice0_prefix (a t : string) : Js.slice0 (String.length a) (a ++ t) = a.
Proof.
  induction a as [|c a IH]; [now destruct t|].
  change (String c a ++ t) with (String c (a ++ t)). cbn [String.length Js.slice0].
  now rewrite IH.
Qed.

Lemma lowerChar_dot c :
  negb (Ascii.eqb c ".") = true -> negb (Ascii.eqb (Js.lowerChar c) ".") = true.
Proof. destruct c as [[] [] [] [] [] [] [] []]; vm_compute; congruence. Qed.

Lemma forallb_toLowerCase (p : ascii -> bool) (s : string) :
  Js.forallb (fun c => p (Js.lowerChar c)) s = Js.forallb p (Js.toLowerCase s).
Proof. induction s as [|c s IH]; cbn [Js.forallb Js.toLowerCase]; congruence. Qed.

(** X30.  The host name of a site names the site: for a base domain and a
    site slug without a dot, [getHostSlug] of [slug.base] is the slug in
    lower case, whatever the case of host and base, and of the base domain
    itself it is [null]. *)
Theorem getHostSlug_of_site (siteSlug baseDomain : string) :
  Js.truthy siteSlug = true ->
  Js.forallb (fun c => negb (Ascii.eqb c ".")) siteSlug = true ->
  getHostSlug (siteSlug ++ "." ++ baseDomain) baseDomain = Some (Js.toLowerCase siteSlug)
  /\ getHostSlug baseDomain baseDomain = None.
Proof.
  intros Hfilled Hplain. unfold getHostSlug. cbv zeta. split.
  2:{ now rewrite String.eqb_refl. }
  rewrite !toLowerCase_app.
  change (Js.toLowerCase ".") with ".".
  set (label := Js.toLowerCase siteSlug). set (base := Js.toLowerCase baseDomain).
  assert (Hlabel : Js.truthy label = true) by (subst label; now destruct siteSlug).
  assert (Hlength : String.length (label ++ "." ++ base)
                    = (String.length label + S (String.length base))%nat)
    by (rewrite length_append; reflexivity).
  destruct (String.eqb_spec (label ++ "." ++ base) base) as [Hsame|_].
  { apply (f_equal String.length) in Hsame. rewrite Hlength in Hsame. lia. }
  unfold endsWith. rewrite Hlength.
  change (String.length ("." ++ base)) with (S (String.length base)).
  replace (String.length label + S (String.length base) - S (String.length base))%nat
    with (String.length label) by lia.
  change (S (String.length base)) with (String.length ("." ++ base)).
  rewrite substring_suffix, String.eqb_refl.
  change (String.length ("." ++ base)) with (S (String.length base)).
  rewrite (proj2 (Nat.leb_le _ _)) by lia. cbn [andb negb].
  replace (String.length label + S (String.length base) - String.length base - 1)%nat
    with (String.length label) by lia.
  rewrite slice0_prefix, Hlabel. cbn [negb].
  rewrite split_none.
  - rewrite filter_cons, filter_nil.
    destruct (decide (Js.truthy label = true)); [reflexivity | contradiction].
  - subst label. rewrite <- forallb_toLowerCase.
    eapply forallb_impl; [|exact Hplain]. intros c Hc. now apply lowerChar_dot.
Qed.

Lemma getHostSlug_of_site_witness :
  getHostSlug ("Alice" ++ "." ++ "Example.ORG") "Example.ORG" = Some "alice".
Proof. apply (getHostSlug_of_site "Alice" "Example.ORG"); reflexivity. Defined.

End HostFacts.
